(** * typescript-rpc: subscription bookkeeping, client orchestration and
    server-side topics

  A shallow embedding of
  - [LocalTopicImpl] (packages/core/src/local.ts) and [ServerTopicImpl]
    (src/rpc.ts): the per-key list of subscribed sessions and [trigger];
  - [RpcClientImpl] (the client core): [subscribe], [unsubscribe],
    [resubscribe] and [close];
  together with the collaborators the client core drives
  ([RemoteSubscriptions], [HttpClient], [WebSocketConnection]).

  Conventions.
  - Objects compared by reference (sessions, consumer callbacks) are
    natural-number identities.
  - An [async] function is a [Task]: it runs synchronously up to its first
    [await], where it hands back the request it waits for and a
    continuation; the continuation is run later, on whatever state the
    program has reached by then.
  - Observable effects (a consumer being invoked, a frame being sent, a
    request being issued) are appended to a log kept in the state. *)

From Stdlib Require Import ZArith List Lia.
From stdpp Require Import gmap strings list fin_maps.

Set Default Proof Using "Type".

(** ** Promises and async functions *)

(** A JavaScript error value: [Error] carries a message, [RpcError] adds a
    numeric code. *)
Record JsError := mkError { code : option Z; message : string }.

(** How a promise settles. *)
Inductive Outcome (A : Type) : Type :=
| Fulfilled (a : A)
| Rejected (e : JsError).
Arguments Fulfilled {A} a.
Arguments Rejected {A} e.

(** An async function over a state [W] that awaits requests [Q] answered by
    values [R]. *)
#[warnings="-register-all"]
Inductive Task (W Q R A : Type) : Type :=
| Done (o : Outcome A)
| Await (q : Q) (k : Outcome R -> W -> Task W Q R A * W).
Arguments Done {W Q R A} o.
Arguments Await {W Q R A} q k.

(** Settle the promise a task is waiting for. *)
Definition resume {W Q R A} (t : Task W Q R A) (r : Outcome R) (w : W)
  : Task W Q R A * W :=
  match t with
  | Done o => (Done o, w)
  | Await _ k => k r w
  end.

(** The request a task is blocked on, if any. *)
Definition awaiting {W Q R A} (t : Task W Q R A) : option Q :=
  match t with
  | Done _ => None
  | Await q _ => Some q
  end.

(** How a task that has finished settled its promise. *)
Definition settled {W Q R A} (t : Task W Q R A) : option (Outcome A) :=
  match t with
  | Done o => Some o
  | Await _ _ => None
  end.

(** [array.forEach(async x => ...)] and [for (const x of array) promise...]:
    the bodies start in array order, each running up to its first [await];
    the promises they leave behind are kept so that their continuations can
    be talked about. *)
Fixpoint forEach {W Q R A X} (f : X -> W -> Task W Q R A * W) (l : list X)
    (w : W) : list (Task W Q R A) * W :=
  match l with
  | [] => ([], w)
  | x :: l' =>
      let '(task, w1) := f x w in
      let '(tasks, w2) := forEach f l' w1 in
      (task :: tasks, w2)
  end.

(** An optional argument, or an [unknown] value, as JavaScript sees it. *)
Inductive Optional (T : Type) : Type :=
| undefined
| null
| defined (v : T).
Arguments undefined {T}.
Arguments null {T}.
Arguments defined {T} v.

(** [x !== undefined] *)
Definition strict_neq_undefined {T} (x : Optional T) : bool :=
  match x with
  | undefined => false
  | _ => true
  end.

(** ** Arrays *)

Section JsArray.
Context {A : Type} `{EqDecision A}.

Fixpoint indexOf_from (k : Z) (l : list A) (x : A) : Z :=
  match l with
  | [] => (-1)%Z
  | y :: l' => if decide (y = x) then k else indexOf_from (k + 1)%Z l' x
  end.

(** [l.indexOf(x)]: the first index holding [x], or [-1]. *)
Definition indexOf (l : list A) (x : A) : Z := indexOf_from 0 l x.

(** The array after [l.splice(start, deleteCount)]: a negative [start]
    counts from the end, and both arguments are clamped to the array. *)
Definition splice (l : list A) (start deleteCount : Z) : list A :=
  let len := Z.of_nat (length l) in
  let actualStart :=
    if (start <? 0)%Z then Z.max (len + start) 0 else Z.min start len in
  let actualDeleteCount :=
    Z.min (Z.max deleteCount 0) (len - actualStart) in
  take (Z.to_nat actualStart) l
    ++ drop (Z.to_nat (actualStart + actualDeleteCount)) l.

End JsArray.

(** ** Server side: topics (local.ts, rpc.ts) *)

(** [MessageType] of rpc.ts, with its wire codes. *)
Inductive MessageType : Set :=
| Call | Subscribe | Unsubscribe | Get | Result | Error | Data.

Definition MessageType_code (t : MessageType) : Z :=
  match t with
  | Call => 2
  | Subscribe => 11
  | Unsubscribe => 12
  | Get => 14
  | Result => 3
  | Error => 4
  | Data => 13
  end.

(** An [RpcSession] object, compared by reference. *)
Definition RpcSession : Set := nat.

(** [LocalTopicImpl] of local.ts. [ServerTopicImpl] of rpc.ts has the same
    three methods, statement for statement, under the names [trigger],
    [subscribe] and [unsubscribe], reading [session.context] where local.ts
    calls [session.createContext()]. *)
Module LocalTopicImpl.
Section Topic.
(** [D]: the data a topic carries (neither [null] nor [undefined]), [P]: its
    parameters, [Ctx]: what a session hands to the supplier. *)
Context {D P Ctx : Type}.

(** [JSON.stringify] on parameters. *)
Variable JSON_stringify : P -> string.
(** [session.createContext()] in local.ts, [session.context] in rpc.ts. *)
Variable createContext : RpcSession -> Ctx.
(** [createMessageId()] (utils, not among the sources): the identifier
    handed out by its [n]-th call. *)
Variable createMessageId : nat -> string.

(** The frame [[type, id, name, params, data]] given to [session.send]. *)
Record Frame := mkFrame {
  frame_type : MessageType;
  frame_id : string;
  frame_name : string;
  frame_params : P;
  frame_data : D;
}.

Inductive Event :=
| SupplierCalled (params : P) (ctx : Ctx)
| Sent (session : RpcSession) (frame : Frame).

(** A topic object together with what the program does around it: the
    supplier calls and frames so far, and the number of message ids drawn.
    [has_supplier] is the truthiness of [this.supplier]. *)
Record t := mk {
  name : string;
  has_supplier : bool;
  subscribedSessions : gmap string (list RpcSession);
  log : list Event;
  messageIds : nat;
}.

(** [new LocalTopicImpl(supplier)], named by [prepareLocal]. *)
Definition create (name : string) (has_supplier : bool) : t :=
  mk name has_supplier ∅ [] 0.

Definition set_subscribedSessions
    (f : gmap string (list RpcSession) -> gmap string (list RpcSession))
    (w : t) : t :=
  mk (name w) (has_supplier w) (f (subscribedSessions w)) (log w)
     (messageIds w).

Definition emit (e : Event) (w : t) : t :=
  mk (name w) (has_supplier w) (subscribedSessions w) (log w ++ [e])
     (messageIds w).

(** [session.send(MessageType.Data, createMessageId(), this.name, params,
    data)] *)
Definition send_data (session : RpcSession) (params : P) (data : D) (w : t)
  : t :=
  let id := createMessageId (messageIds w) in
  mk (name w) (has_supplier w) (subscribedSessions w)
     (log w ++ [Sent session (mkFrame Data id (name w) params data)])
     (S (messageIds w)).

(** The pending call [this.supplier(params, ctx)]. *)
Inductive SupplierRequest := Supply (params : P) (ctx : Ctx).

Definition TopicTask : Type := Task t SupplierRequest D unit.

(** [const data = await this.supplier(params, session.createContext())]
    followed by [session.send(...)]: the supplier is entered at once, the
    frame is sent when its promise fulfils; a rejection ends the callback
    without a frame. *)
Definition supply_then_send (session : RpcSession) (params : P) (w : t)
  : TopicTask * t :=
  let ctx := createContext session in
  (Await (Supply params ctx)
     (fun r w' =>
        match r with
        | Fulfilled data =>
            (Done (Fulfilled tt), send_data session params data w')
        | Rejected e => (Done (Rejected e), w')
        end),
   emit (SupplierCalled params ctx) w).

(** The [TypeError] of the call [this.supplier(...)] on a topic that has no
    supplier. *)
Definition supplier_is_not_a_function : JsError :=
  mkError None "this.supplier is not a function".

(** The callback [trigger] passes to [forEach]. The test
    [suppliedData != undefined] is a loose one: [null] takes the supplier
    branch like [undefined]. That branch calls [this.supplier] without
    testing it: on a topic without a supplier the call throws, the promise
    of the callback rejects, and neither a supplier is entered nor a frame
    sent. *)
Definition trigger_session (params : P) (suppliedData : Optional D)
    (session : RpcSession) (w : t) : TopicTask * t :=
  match suppliedData with
  | defined data => (Done (Fulfilled tt), send_data session params data w)
  | undefined | null =>
      if has_supplier w then supply_then_send session params w
      else (Done (Rejected supplier_is_not_a_function), w)
  end.

Definition trigger (params : P) (suppliedData : Optional D) (w : t)
  : list TopicTask * t :=
  let key := JSON_stringify params in
  let subscribed := default [] (subscribedSessions w !! key) in
  forEach (trigger_session params suppliedData) subscribed w.

Definition subscribeSession (session : RpcSession) (params : P) (w : t)
  : TopicTask * t :=
  let key := JSON_stringify params in
  let sessions := default [] (subscribedSessions w !! key) in
  (* no double subscribe *)
  if bool_decide (0 <= indexOf sessions session)%Z then
    (Done (Fulfilled tt), w)
  else
    let w1 := set_subscribedSessions (<[key := sessions ++ [session]]>) w in
    if has_supplier w1 then supply_then_send session params w1
    else (Done (Fulfilled tt), w1).

Definition unsubscribeSession (session : RpcSession) (params : P) (w : t)
  : t :=
  let key := JSON_stringify params in
  match subscribedSessions w !! key with
  | None => w
  | Some sessions =>
      let index := indexOf sessions session in
      let sessions' := splice sessions index 1 in
      if bool_decide (length sessions' = 0)
      then set_subscribedSessions (delete key) w
      else set_subscribedSessions (<[key := sessions']>) w
  end.

(** The sessions subscribed under the key of [params]. *)
Definition sessions_of (params : P) (w : t) : list RpcSession :=
  default [] (subscribedSessions w !! JSON_stringify params).

(** The states a topic goes through: calls of its three methods, and
    suppliers delivering their result to a waiting callback. *)
Inductive reachable : t -> Prop :=
| reach_create n s : reachable (create n s)
| reach_subscribe w session params :
    reachable w -> reachable (subscribeSession session params w).2
| reach_unsubscribe w session params :
    reachable w -> reachable (unsubscribeSession session params w)
| reach_trigger w params suppliedData :
    reachable w -> reachable (trigger params suppliedData w).2
| reach_supplied w session params data :
    reachable w -> reachable (send_data session params data w).

(** No session is listed twice under a key. *)
Definition sessions_nodup (w : t) : Prop :=
  forall key l, subscribedSessions w !! key = Some l -> NoDup l.

(** The supplier calls of a log. *)
Definition supplier_calls (l : list Event) : list (P * Ctx) :=
  omap (fun e => match e with
                 | SupplierCalled p c => Some (p, c)
                 | Sent _ _ => None
                 end) l.

(** The frames of a log, with their receivers. *)
Definition sent_frames (l : list Event) : list (RpcSession * Frame) :=
  omap (fun e => match e with
                 | SupplierCalled _ _ => None
                 | Sent s f => Some (s, f)
                 end) l.

End Topic.
End LocalTopicImpl.

(** ** Client side *)

(** A consumer callback [(d: unknown) => void], compared by reference. *)
Definition Consumer : Set := nat.

(** *** RemoteSubscriptions: the subscription registry *)

Module RemoteSubscriptions.
Section Registry.
Context {Value Parameters : Type}.

(** The canonical serialization of [parameters] that keys a subscription. *)
Variable stringify : Parameters -> string.

(** Modelled from the spec: the subscription record of section 3
    (RemoteSubscriptions.ts is not among the sources): consumers in
    insertion order with duplicates, the last observed value, and whether
    an initial subscribe is in flight. [sub_parameters] is kept for
    [getAllSubscriptions]. *)
Record Subscription := mkSubscription {
  sub_parameters : Parameters;
  consumers : list Consumer;
  lastValue : Optional Value;
  pending : bool;
}.

(** Modelled from the spec: the registry, one record per live key
    [(itemName, stringify parameters)], and the optional external cache
    adapter, held as the values [put] into it. *)
Record t := mk {
  records : gmap (string * string) Subscription;
  cache : option (gmap (string * string) (Optional Value));
}.

(** Modelled from the spec: [new RemoteSubscriptions()], no record and no
    cache adapter. *)
Definition create : t := mk ∅ None.

(** Modelled from the spec: the adapter's [get(itemName, parameters)]. *)
Definition cache_get (key : string * string) (reg : t) : Optional Value :=
  match cache reg with
  | Some c => default undefined (c !! key)
  | None => undefined
  end.

(** Modelled from the spec: the adapter's [put(itemName, parameters,
    value)], when an adapter is configured. *)
Definition cache_put (key : string * string) (value : Optional Value)
    (reg : t) : option (gmap (string * string) (Optional Value)) :=
  match cache reg with
  | Some c => Some (<[key := value]> c)
  | None => None
  end.

(** Modelled from the spec: [getCached] returns [lastValue] if present,
    otherwise consults the cache adapter; the registry is only read. *)
Definition getCached (itemName : string) (parameters : Parameters) (reg : t)
  : Optional Value :=
  let key := (itemName, stringify parameters) in
  match records reg !! key with
  | Some r =>
      if strict_neq_undefined (lastValue r) then lastValue r
      else cache_get key reg
  | None => cache_get key reg
  end.

(** Modelled from the spec: [subscribe] ensures a record exists for the key,
    appends the consumer, sets [lastValue], invokes [consumer(initialValue)]
    and writes through to the cache adapter. The second component lists the
    consumer invocations made. *)
Definition subscribe (initialValue : Optional Value) (itemName : string)
    (parameters : Parameters) (consumer : Consumer) (reg : t)
  : t * list (Consumer * Optional Value) :=
  let key := (itemName, stringify parameters) in
  let r := default (mkSubscription parameters [] undefined false)
                   (records reg !! key) in
  let r' := mkSubscription (sub_parameters r)
              (consumers r ++ [consumer]) initialValue (pending r) in
  (mk (<[key := r']> (records reg)) (cache_put key initialValue reg),
   [(consumer, initialValue)]).

(** Modelled from the spec: removing exactly one occurrence of a consumer,
    nothing if it is absent. *)
Fixpoint remove_one (consumer : Consumer) (l : list Consumer)
  : list Consumer :=
  match l with
  | [] => []
  | c :: l' => if decide (c = consumer) then l' else c :: remove_one consumer l'
  end.

(** Modelled from the spec: [unsubscribe] removes one occurrence of the
    consumer and returns [true] iff no consumer is left under the key, in
    which case the record is removed. A key without a record has no
    consumer left. *)
Definition unsubscribe (itemName : string) (parameters : Parameters)
    (consumer : Consumer) (reg : t) : bool * t :=
  let key := (itemName, stringify parameters) in
  match records reg !! key with
  | None => (true, reg)
  | Some r =>
      let consumers' := remove_one consumer (consumers r) in
      if bool_decide (consumers' = []) then
        (true, mk (delete key (records reg)) (cache reg))
      else
        (false,
         mk (<[key := mkSubscription (sub_parameters r)
                        consumers' (lastValue r) (pending r)]> (records reg))
            (cache reg))
  end.

(** Modelled from the spec: [consume] updates [lastValue], writes through to
    the cache adapter and invokes every consumer of the key, in insertion
    order, over a snapshot of the list; without a record the data is
    discarded. *)
Definition consume (itemName : string) (parameters : Parameters)
    (data : Optional Value) (reg : t)
  : t * list (Consumer * Optional Value) :=
  let key := (itemName, stringify parameters) in
  match records reg !! key with
  | None => (reg, [])
  | Some r =>
      (mk (<[key := mkSubscription (sub_parameters r)
                      (consumers r) data (pending r)]> (records reg))
          (cache_put key data reg),
       (fun c => (c, data)) <$> consumers r)
  end.

(** Modelled from the spec: [getAllSubscriptions], a snapshot
    [(itemName, parameters, consumers)] of every record. *)
Definition getAllSubscriptions (reg : t)
  : list (string * Parameters * list Consumer) :=
  (fun kr : string * string * Subscription =>
     (kr.1.1, sub_parameters kr.2, consumers kr.2))
    <$> map_to_list (records reg).

(** The consumers registered under a key. *)
Definition consumers_of (itemName : string) (parameters : Parameters)
    (reg : t) : list Consumer :=
  match records reg !! (itemName, stringify parameters) with
  | Some r => consumers r
  | None => []
  end.

End Registry.
Arguments Subscription : clear implicits.
Arguments t : clear implicits.
End RemoteSubscriptions.

(** *** WebSocketConnection: the push channel *)

Module WebSocketConnection.

(** Modelled from the spec: the states of the push channel's state machine
    in section 4.3 (WebSocketConnection.ts is not among the sources). *)
Inductive State : Set :=
| Disconnected | Connecting | Open | Backoff | Closed.

(** Modelled from the spec: the channel, its state and whether it has been
    open before (what decides if an open is a reconnect). *)
Record t := mk { state : State; opened_before : bool }.

(** Modelled from the spec: a new channel is disconnected. *)
Definition create : t := mk Disconnected false.

(** Modelled from the spec: [Disconnected --connect()--> Connecting]. *)
Definition connect (c : t) : t :=
  match state c with
  | Disconnected => mk Connecting (opened_before c)
  | _ => c
  end.

(** Modelled from the spec: [Connecting --open--> Open]; the flag tells
    whether [onReconnected] fires (second and later opens). *)
Definition on_open (c : t) : t * bool :=
  match state c with
  | Connecting => (mk Open true, opened_before c)
  | _ => (c, false)
  end.

(** Modelled from the spec: [Connecting --error--> Backoff] and
    [Open --close/err--> Backoff]. *)
Definition on_error (c : t) : t :=
  match state c with
  | Connecting | Open => mk Backoff (opened_before c)
  | _ => c
  end.

(** Modelled from the spec: [Backoff --timer--> Connecting]. *)
Definition on_timer (c : t) : t :=
  match state c with
  | Backoff => mk Connecting (opened_before c)
  | _ => c
  end.

(** Modelled from the spec: [Any --close()--> Closed], releasing the
    socket. *)
Definition close (c : t) : t := mk Closed (opened_before c).

(** Modelled from the spec: connected means the socket is open. *)
Definition isConnected (c : t) : bool :=
  match state c with
  | Open => true
  | _ => false
  end.

End WebSocketConnection.

(** *** HttpClient: the request channel *)

Module HttpClient.

(** The three requests of [HttpClient]; what the server answers is supplied
    when the task awaiting a request is resumed. *)
Inductive Request (Parameters : Type) : Type :=
| ReqCall (itemName : string) (parameters : Parameters)
| ReqSubscribe (itemName : string) (parameters : Parameters)
| ReqUnsubscribe (itemName : string) (parameters : Parameters).
Arguments ReqCall {Parameters} itemName parameters.
Arguments ReqSubscribe {Parameters} itemName parameters.
Arguments ReqUnsubscribe {Parameters} itemName parameters.

End HttpClient.

(** *** RpcClientImpl: the client core *)

Module RpcClientImpl.
Section Client.
Context {Value Parameters : Type}.
Variable stringify : Parameters -> string.

Inductive Event :=
| Invoked (consumer : Consumer) (d : Optional Value)
| Requested (request : HttpClient.Request Parameters).

(** The client object ([options.subscribe] is the only option its methods
    read) together with what it has done so far: consumer invocations and
    HTTP requests, in order. *)
Record t := mk {
  options_subscribe : bool;
  remoteSubscriptions : RemoteSubscriptions.t Value Parameters;
  connection : WebSocketConnection.t;
  trace : list Event;
}.

Definition ClientTask : Type :=
  Task t (HttpClient.Request Parameters) (Optional Value) unit.

(** The constructor. *)
Definition create (options_subscribe : bool) : t :=
  mk options_subscribe RemoteSubscriptions.create WebSocketConnection.create
     [].

Definition set_remoteSubscriptions (reg : RemoteSubscriptions.t Value Parameters)
    (w : t) : t :=
  mk (options_subscribe w) reg (connection w) (trace w).

Definition set_connection (c : WebSocketConnection.t) (w : t) : t :=
  mk (options_subscribe w) (remoteSubscriptions w) c (trace w).

Definition emit (events : list Event) (w : t) : t :=
  mk (options_subscribe w) (remoteSubscriptions w) (connection w)
     (trace w ++ events).

(** A registry operation that calls consumers: the new registry is stored
    and the invocations are recorded. *)
Definition with_registry
    (op : RemoteSubscriptions.t Value Parameters ->
          RemoteSubscriptions.t Value Parameters
          * list (Consumer * Optional Value))
    (w : t) : t :=
  let '(reg, invocations) := op (remoteSubscriptions w) in
  emit ((fun i : Consumer * Optional Value => Invoked i.1 i.2) <$> invocations)
       (set_remoteSubscriptions reg w).

(** [await this.httpClient.<request>(...)]: the request is issued now, the
    rest of the function runs when its promise settles. *)
Definition http (request : HttpClient.Request Parameters)
    (k : Outcome (Optional Value) -> t -> ClientTask * t) (w : t)
  : ClientTask * t :=
  (Await request k, emit [Requested request] w).

(** The inbound-data callback given to [WebSocketConnection] (lines 26-28).
    *)
Definition on_push (itemName : string) (parameters : Parameters)
    (data : Optional Value) (w : t) : t :=
  with_registry (RemoteSubscriptions.consume stringify itemName parameters data)
                w.

(** [close()] *)
Definition close (w : t) : t :=
  set_connection (WebSocketConnection.close (connection w)) w.

(** The handler of [this.connection.connect().catch((e) => { /* ignored */
    })]: whatever the outcome of [connect()], nothing is done with it. *)
Definition connect_catch (r : Outcome unit) (w : t) : t :=
  match r with
  | Fulfilled _ => w
  | Rejected e => w
  end.

(** [subscribe] *)
Definition subscribe (itemName : string) (parameters : Parameters)
    (consumer : Consumer) (w : t) : ClientTask * t :=
  let cached :=
    RemoteSubscriptions.getCached stringify itemName parameters
      (remoteSubscriptions w) in
  let w1 :=
    if strict_neq_undefined cached then emit [Invoked consumer cached] w
    else w in
  let w2 :=
    if options_subscribe w1
    then set_connection (WebSocketConnection.connect (connection w1)) w1
    else w1 in
  http (HttpClient.ReqSubscribe itemName parameters)
    (fun r w' =>
       match r with
       | Fulfilled data =>
           (Done (Fulfilled tt),
            with_registry
              (RemoteSubscriptions.subscribe stringify data itemName
                 parameters consumer) w')
       | Rejected e => (Done (Rejected e), w')
       end) w2.

(** [unsubscribe] *)
Definition unsubscribe (itemName : string) (parameters : Parameters)
    (consumer : Consumer) (w : t) : ClientTask * t :=
  let '(noSubscriptionsLeft, reg) :=
    RemoteSubscriptions.unsubscribe stringify itemName parameters consumer
      (remoteSubscriptions w) in
  let w1 := set_remoteSubscriptions reg w in
  if noSubscriptionsLeft then
    http (HttpClient.ReqUnsubscribe itemName parameters)
      (fun r w' =>
         match r with
         | Fulfilled _ => (Done (Fulfilled tt), w')
         | Rejected e => (Done (Rejected e), w')
         end) w1
  else (Done (Fulfilled tt), w1).

(** The local half of an unsubscribe, as the [catch] handler of
    [resubscribe] calls it: [this.remoteSubscriptions.unsubscribe(...)]. *)
Definition detach (itemName : string) (parameters : Parameters) (w : t)
    (consumer : Consumer) : t :=
  set_remoteSubscriptions
    (RemoteSubscriptions.unsubscribe stringify itemName parameters consumer
       (remoteSubscriptions w)).2 w.

(** The body of the loop of [resubscribe]:
    [httpClient.subscribe(...).then(consume).catch(detach all)]. *)
Definition resubscribe_one
    (s : string * Parameters * list Consumer) (w : t) : ClientTask * t :=
  let '(itemName, params, consumers) := s in
  http (HttpClient.ReqSubscribe itemName params)
    (fun r w' =>
       match r with
       | Fulfilled data =>
           (Done (Fulfilled tt), on_push itemName params data w')
       | Rejected e =>
           (Done (Fulfilled tt), foldl (detach itemName params) w' consumers)
       end) w.

(** [resubscribe], bound to the connection's reconnect hook. *)
Definition resubscribe (w : t) : list ClientTask * t :=
  forEach resubscribe_one
    (RemoteSubscriptions.getAllSubscriptions (remoteSubscriptions w)) w.

(** A connection attempt started by [subscribe] fails: the socket goes to
    its backoff state and the rejection reaches the [catch] handler. *)
Definition connect_failed (e : JsError) (w : t) : t :=
  connect_catch (Rejected e)
    (set_connection (WebSocketConnection.on_error (connection w)) w).

(** Pushed frames arriving one after the other. *)
Definition deliver (frames : list (string * Parameters * Optional Value))
    (w : t) : t :=
  foldl (fun w f => on_push f.1.1 f.1.2 f.2 w) w frames.

End Client.
Arguments t : clear implicits.
Arguments Event : clear implicits.
End RpcClientImpl.

(** ** Naming the topics (packages/core/src/local.ts) *)

Module PrepareLocal.

(** What [prepareLocal] can find in a services object: a [LocalTopicImpl]
    instance, a function, another object, [null], [undefined], or any other
    value. An object is given by the pairs [(key, services[key])] for the
    keys [prepareLocal] goes through, in that order. The module is strict
    code, so an assignment that cannot be made throws a [TypeError]:
    [writable] of a topic says whether [item.name = name] can be made (it
    cannot on a frozen topic), [writable] of a function member whether
    [services[key] = ...] can (it cannot on a frozen object or a read-only
    member). *)
#[warnings="-register-all"]
Inductive Local : Type :=
| LTopic (ref : nat) (writable : bool)
| LFunction (ref : nat) (writable : bool)
| LObject (members : list (string * Local))
| LNull
| LUndefined
| LOther.

(** What a run has done so far: the names given to topics
    ([item.name = name]) and the members replaced by bound functions
    ([services[key] = item.bind(services)]), and whether it has thrown. *)
Record Run := mkRun {
  names : list (nat * string);
  bound : list string;
  completed : bool;
}.

(** A [TypeError] leaves what was done before it. *)
Definition throw (run : Run) : Run := mkRun (names run) (bound run) false.

(** The [forEach] over the keys of a services object; [recurse] is
    [prepareLocal] itself. A [TypeError] ends the loop. *)
Section Each.
Variable recurse : Local -> string -> Run -> Run.
Variable prefix : string.

Fixpoint each_key (members : list (string * Local)) (run : Run) : Run :=
  match members with
  | [] => run
  | (key, item) :: members' =>
      match item with
      | LTopic ref writable =>
          let name := (prefix ++ "/" ++ key)%string in
          if writable then
            each_key members'
              (mkRun (names run ++ [(ref, name)]) (bound run) (completed run))
          else throw run
      | LObject _ | LNull =>
          let name := (prefix ++ "/" ++ key)%string in
          let run' := recurse item name run in
          if completed run' then each_key members' run' else run'
      | LFunction _ writable =>
          if writable then
            each_key members'
              (mkRun (names run) (bound run ++ [(prefix ++ "/" ++ key)%string])
                 (completed run))
          else throw run
      | LUndefined | LOther => each_key members' run
      end
  end.
End Each.

(** [prepareLocal(services, prefix)]: [Object.keys] throws on [null] and on
    [undefined], and finds no key on a function or a primitive value. *)
Fixpoint prepareLocal (services : Local) (prefix : string) (run : Run) : Run :=
  match services with
  | LObject members => each_key prepareLocal prefix members run
  | LNull | LUndefined => throw run
  | LTopic _ _ | LFunction _ _ | LOther => run
  end.

(** The name built along a path of keys: [prefix + "/" + key] at every
    step. *)
Definition path_name (prefix : string) (path : list string) : string :=
  foldl (fun name key => (name ++ "/" ++ key)%string) prefix path.

(** [leads services path ref]: the keys of [path] lead from [services]
    through objects to the topic [ref]. *)
Inductive leads : Local -> list string -> nat -> Prop :=
| leads_topic members key ref writable :
    (key, LTopic ref writable) ∈ members ->
    leads (LObject members) [key] ref
| leads_member members key inner path ref :
    (key, LObject inner) ∈ members ->
    leads (LObject inner) path ref ->
    leads (LObject members) (key :: path) ref.

(** Whether [null] stands among the members [prepareLocal] goes through,
    in [services] or in the objects inside it. *)
Fixpoint has_null (services : Local) : bool :=
  match services with
  | LNull => true
  | LObject members => existsb (fun km => has_null km.2) members
  | LTopic _ _ | LFunction _ _ | LUndefined | LOther => false
  end.

(** What one member of an object contributes to the names. *)
Definition named_by (prefix : string) (km : string * Local) (ref : nat)
    (name : string) : Prop :=
  ((exists writable, km.2 = LTopic ref writable)
   /\ name = (prefix ++ "/" ++ km.1)%string)
  \/ exists path, leads km.2 path ref
                  /\ name = path_name (prefix ++ "/" ++ km.1)%string path.

(** The names [prepareLocal] gives when it completes on [services]. *)
Definition names_topics (services : Local) : Prop :=
  forall prefix run,
    completed (prepareLocal services prefix run) = true ->
    forall ref name,
      (ref, name) ∈ names (prepareLocal services prefix run)
      <-> (ref, name) ∈ names run
          \/ exists path, leads services path ref /\ name = path_name prefix path.

(** Induction over a services object and the objects inside it. *)
Section Induction.
Variable Q : Local -> Prop.
Hypothesis Q_topic : forall ref writable, Q (LTopic ref writable).
Hypothesis Q_function : forall ref writable, Q (LFunction ref writable).
Hypothesis Q_null : Q LNull.
Hypothesis Q_undefined : Q LUndefined.
Hypothesis Q_other : Q LOther.
Hypothesis Q_object :
  forall members, Forall (fun km => Q km.2) members -> Q (LObject members).

Fixpoint Local_nested_ind (v : Local) : Q v :=
  match v with
  | LTopic ref writable => Q_topic ref writable
  | LFunction ref writable => Q_function ref writable
  | LNull => Q_null
  | LUndefined => Q_undefined
  | LOther => Q_other
  | LObject members =>
      Q_object members
        ((fix all (ms : list (string * Local)) : Forall (fun km => Q km.2) ms :=
            match ms with
            | [] => List.Forall_nil _
            | km :: ms' =>
                @List.Forall_cons _ (fun km => Q km.2) km ms'
                  (Local_nested_ind km.2) (all ms')
            end) members)
  end.
End Induction.

End PrepareLocal.

(** *** RpcClientImpl: what tests look at *)

Module RpcClientViews.
Section Views.
Context {Value Parameters : Type}.

(** [_allSubscriptions()]: one entry per consumer of every subscription. *)
Definition _allSubscriptions (w : RpcClientImpl.t Value Parameters)
  : list (string * Parameters * Consumer) :=
  s ← RemoteSubscriptions.getAllSubscriptions
        (RpcClientImpl.remoteSubscriptions w);
  consumer ← s.2;
  [(s.1.1, s.1.2, consumer)].

(** [isConnected()] *)
Definition isConnected (w : RpcClientImpl.t Value Parameters) : bool :=
  WebSocketConnection.isConnected (RpcClientImpl.connection w).

End Views.
End RpcClientViews.

(** ** Concrete topics and clients *)

Module Examples.

(** A topic parameterised by a boolean filter; contexts are session ids. *)
Definition stringify_bool (b : bool) : string :=
  if b then "true" else "false".

Definition context_of (session : RpcSession) : nat := session.

Definition message_id (n : nat) : string :=
  match n with
  | 0 => "m0"
  | 1 => "m1"
  | 2 => "m2"
  | _ => "m"
  end.

Definition topic : Type := @LocalTopicImpl.t string bool nat.

Definition subscribeSession :=
  LocalTopicImpl.subscribeSession (D:=string) stringify_bool context_of
    message_id.
Definition unsubscribeSession :=
  LocalTopicImpl.unsubscribeSession (D:=string) (Ctx:=nat) stringify_bool.
Definition trigger :=
  LocalTopicImpl.trigger (D:=string) stringify_bool context_of message_id.

(** Sessions 1 and 2 subscribed, in that order, to the todos with filter
    [true]. *)
Definition todos : topic :=
  (subscribeSession 2 true
     (subscribeSession 1 true (LocalTopicImpl.create "/todo/todos" true)).2).2.

(** A client over string values whose parameters are a list of flags. *)
Definition stringify_flags (parameters : list bool) : string :=
  "[" ++ String.concat "," (stringify_bool <$> parameters) ++ "]".

Definition client : Type := RpcClientImpl.t string (list bool).

Definition subscribe := RpcClientImpl.subscribe (Value:=string) stringify_flags.
Definition unsubscribe :=
  RpcClientImpl.unsubscribe (Value:=string) stringify_flags.
Definition resubscribe :=
  RpcClientImpl.resubscribe (Value:=string) stringify_flags.

Definition timeout : JsError := mkError (Some 504%Z) "Timeout".

(** A client, push delivery enabled, on which consumer 1 has subscribed to
    ["todo/getTodos"] and the server answered ["one"]. *)
Definition subscribed : client :=
  let s := subscribe "todo/getTodos" [] 1 (RpcClientImpl.create true) in
  (resume s.1 (Fulfilled (defined "one")) s.2).2.

End Examples.

(** ** Server side: sessions (src/rpc.ts) *)

(** The module-level state of src/rpc.ts (the [sessions] array and the
    topic objects of [services]) and its class [RpcSession]. *)
Module RpcServer.
Section Server.
Context {D P Ctx : Type}.

(** [JSON.stringify] on parameters. *)
Variable JSON_stringify : P -> string.
(** [session.context], fixed when the session is constructed. *)
Variable createContext : RpcSession -> Ctx.
(** [createMessageId()], as for [LocalTopicImpl]. *)
Variable createMessageId : nat -> string.

(** A [ServerTopicImpl] object, compared by reference. *)
Definition TopicRef : Set := nat.

(** Objects are kept by reference: [update objs ref o] is the store in
    which [ref] points to [o]. *)
Definition update {O : Type} (objs : nat -> O) (ref : nat) (o : O)
  : nat -> O :=
  fun ref' => if decide (ref' = ref) then o else objs ref'.

(** The fields of a [ServerTopicImpl] object. *)
Record TopicObj := mkTopic {
  topic_name : string;
  topic_has_supplier : bool;
  topic_subscribedSessions : gmap string (list RpcSession);
}.

(** The fields of an [RpcSession] object its methods change. *)
Record SessionObj := mkSession {
  alive : bool;
  subscriptions : list (TopicRef * P);
}.

(** What the keep-alive does with the socket of a session: [ws.ping()] and
    [ws.terminate()]. *)
Inductive SocketEvent : Set :=
| Ping (session : RpcSession)
| Terminate (session : RpcSession).

(** The topic and session objects, the [sessions] array, and what has been
    done so far: supplier calls and Data frames ([log], with the message ids
    drawn) and the pings and terminations of sockets. *)
Record t := mk {
  topics : TopicRef -> TopicObj;
  session_objs : RpcSession -> SessionObj;
  sessions : list RpcSession;
  log : list (@LocalTopicImpl.Event D P Ctx);
  messageIds : nat;
  socket : list SocketEvent;
}.

Definition ServerTask : Type :=
  Task t (@LocalTopicImpl.SupplierRequest P Ctx) D unit.

Definition set_session (session : RpcSession) (o : SessionObj) (w : t) : t :=
  mk (topics w) (update (session_objs w) session o) (sessions w) (log w)
     (messageIds w) (socket w).

Definition set_sessions (l : list RpcSession) (w : t) : t :=
  mk (topics w) (session_objs w) l (log w) (messageIds w) (socket w).

Definition emit_socket (e : SocketEvent) (w : t) : t :=
  mk (topics w) (session_objs w) (sessions w) (log w) (messageIds w)
     (socket w ++ [e]).

(** A topic object as [LocalTopicImpl] sees it, with the shared log and
    message-id counter. *)
Definition focus (topic : TopicRef) (w : t) : @LocalTopicImpl.t D P Ctx :=
  LocalTopicImpl.mk (topic_name (topics w topic))
    (topic_has_supplier (topics w topic))
    (topic_subscribedSessions (topics w topic)) (log w) (messageIds w).

(** Writing a topic object back. *)
Definition unfocus (topic : TopicRef) (s : @LocalTopicImpl.t D P Ctx) (w : t)
  : t :=
  mk (update (topics w) topic
        (mkTopic (LocalTopicImpl.name s) (LocalTopicImpl.has_supplier s)
           (LocalTopicImpl.subscribedSessions s)))
     (session_objs w) (sessions w) (LocalTopicImpl.log s)
     (LocalTopicImpl.messageIds s) (socket w).

(** A pending method of a topic object, run among the other objects. *)
Fixpoint lift (topic : TopicRef)
    (task : @LocalTopicImpl.TopicTask D P Ctx) : ServerTask :=
  match task with
  | Done o => Done o
  | Await q k =>
      Await q (fun r w =>
                 let '(task', s) := k r (focus topic w) in
                 (lift topic task', unfocus topic s w))
  end.

(** [await promise; rest]: the rest runs once the promise has fulfilled; a
    rejection ends the function. A promise that is already settled is
    continued in the same run. *)
Fixpoint and_then {A B} (task : Task t (@LocalTopicImpl.SupplierRequest P Ctx) D A)
    (w : t)
    (rest : A -> t -> Task t (@LocalTopicImpl.SupplierRequest P Ctx) D B * t)
  : Task t (@LocalTopicImpl.SupplierRequest P Ctx) D B * t :=
  match task with
  | Done (Fulfilled a) => rest a w
  | Done (Rejected e) => (Done (Rejected e), w)
  | Await q k =>
      (Await q (fun r w' =>
                  let '(task', w'') := k r w' in and_then task' w'' rest),
       w)
  end.

(** [topic.subscribe(params, session)] *)
Definition topic_subscribe (topic : TopicRef) (params : P)
    (session : RpcSession) (w : t) : ServerTask * t :=
  let '(task, s) :=
    LocalTopicImpl.subscribeSession JSON_stringify createContext
      createMessageId session params (focus topic w) in
  (lift topic task, unfocus topic s w).

(** [topic.unsubscribe(params, session)] *)
Definition topic_unsubscribe (topic : TopicRef) (params : P)
    (session : RpcSession) (w : t) : t :=
  unfocus topic
    (LocalTopicImpl.unsubscribeSession JSON_stringify session params
       (focus topic w)) w.

(** The connection handler of [createRpcServer]:
    [sessions.push(new RpcSession(ws, createContext(req)))]. *)
Definition connection (session : RpcSession) (w : t) : t :=
  set_sessions (sessions w ++ [session])
    (set_session session (mkSession true []) w).

(** The [pong] handler installed by the constructor. *)
Definition pong (session : RpcSession) (w : t) : t :=
  set_session session
    (mkSession true (subscriptions (session_objs w session))) w.

(** [checkAlive()] *)
Definition checkAlive (session : RpcSession) (w : t) : t :=
  if negb (alive (session_objs w session)) then
    emit_socket (Terminate session) w
  else
    emit_socket (Ping session)
      (set_session session
         (mkSession false (subscriptions (session_objs w session))) w).

(** The keep-alive timer: [sessions.forEach(session => session.checkAlive())].
    *)
Definition checkAll (w : t) : t :=
  foldl (fun w session => checkAlive session w) w (sessions w).

(** [subscribe(topic, params)] of [RpcSession] *)
Definition subscribe (session : RpcSession) (topic : TopicRef) (params : P)
    (w : t) : ServerTask * t :=
  let '(task, w1) := topic_subscribe topic params session w in
  and_then task w1
    (fun _ w' =>
       (Done (Fulfilled tt),
        set_session session
          (mkSession (alive (session_objs w' session))
             (subscriptions (session_objs w' session) ++ [(topic, params)]))
          w')).

(** The test of the [filter] in [unsubscribe]:
    [s.topic != topic || JSON.stringify(s.params) != paramsKey]. *)
Definition other_subscription (topic : TopicRef) (paramsKey : string)
    (s : TopicRef * P) : bool :=
  negb (bool_decide (s.1 = topic))
  || negb (bool_decide (JSON_stringify s.2 = paramsKey)).

(** [unsubscribe(topic, params)] of [RpcSession] *)
Definition unsubscribe (session : RpcSession) (topic : TopicRef) (params : P)
    (w : t) : ServerTask * t :=
  let w1 := topic_unsubscribe topic params session w in
  let paramsKey := JSON_stringify params in
  (Done (Fulfilled tt),
   set_session session
     (mkSession (alive (session_objs w1 session))
        (List.filter (other_subscription topic paramsKey)
           (subscriptions (session_objs w1 session))))
     w1).

(** [unsubscribeAll()]: the [map] calls [topic.unsubscribe] for every entry
    of [this.subscriptions], in order, before the list is emptied. *)
Definition unsubscribeAll (session : RpcSession) (w : t) : ServerTask * t :=
  let w1 :=
    foldl (fun w s => topic_unsubscribe s.1 s.2 session w) w
      (subscriptions (session_objs w session)) in
  (Done (Fulfilled tt),
   set_session session (mkSession (alive (session_objs w1 session)) []) w1).

(** [remove()], run when the socket closes. *)
Definition remove (session : RpcSession) (w : t) : ServerTask * t :=
  let '(task, w1) := unsubscribeAll session w in
  and_then task w1
    (fun _ w' =>
       let index := indexOf (sessions w') session in
       if bool_decide (0 <= index)%Z
       then (Done (Fulfilled tt),
             set_sessions (splice (sessions w') index 1) w')
       else (Done (Fulfilled tt), w')).

(** The sessions a topic lists under the key of [params]. *)
Definition sessions_of (topic : TopicRef) (params : P) (w : t)
  : list RpcSession :=
  default []
    (topic_subscribedSessions (topics w topic) !! JSON_stringify params).

(** A call that has returned and, if it was waiting for a supplier, has
    been given the supplier's answer. *)
Definition answered (answer : Outcome D) (r : ServerTask * t)
  : ServerTask * t :=
  resume r.1 answer r.2.

End Server.
Arguments t : clear implicits.
End RpcServer.

(** ** The service tree (packages/core/src/rpc.ts) *)

Module Services.

(** The JavaScript values a service tree is made of. An object is given by
    the properties that can be read from it, nearest first (its own and
    those of its prototypes); a topic is an object that has a
    [getTopicName] property. *)
#[warnings="-register-all"]
Inductive JsValue : Type :=
| JsUndefined
| JsNull
| JsPrimitive (repr : string)
| JsFunction (ref : nat)
| JsObject (members : list (string * JsValue)).

(** How a call ends: with [{item, object}] or with a [TypeError]. *)
Inductive Completion : Type :=
| Return (item object : JsValue)
| ThrowTypeError.

(** The character ["/"]. *)
Definition slash : Ascii.ascii := Eval cbv in Ascii.ascii_of_nat 47.

(** [s.split("/")] for a one-character separator: the pieces between the
    separators, at least one. *)
Fixpoint split (sep : Ascii.ascii) (s : string) : list string :=
  match s with
  | EmptyString => [EmptyString]
  | String c s' =>
      if decide (c = sep) then EmptyString :: split sep s'
      else match split sep s' with
           | piece :: pieces => String c piece :: pieces
           | [] => [String c EmptyString]
           end
  end.

(** [pieces.join("/")] *)
Definition join (sep : string) (pieces : list string) : string :=
  String.concat sep pieces.

(** [object[key]] *)
Fixpoint get (members : list (string * JsValue)) (key : string) : JsValue :=
  match members with
  | [] => JsUndefined
  | (k, v) :: members' => if decide (k = key) then v else get members' key
  end.

(** [key in object] *)
Fixpoint has (members : list (string * JsValue)) (key : string) : bool :=
  match members with
  | [] => false
  | (k, _) :: members' => if decide (k = key) then true else has members' key
  end.

(** [getServiceItem(services, name)]. The property read
    [services[names[0]]] is written as a loop over the properties of
    [services], so that the call on the member found is a call on a part of
    [services]; [getServiceItem_eq] below gives the function in the words of
    the source. On a [services] that is not an object the property read
    throws ([null], [undefined]) or finds nothing. *)
Fixpoint getServiceItem (services : JsValue) (name : string) : Completion :=
  if decide (name = EmptyString) then Return JsNull JsNull
  else
    let names := split slash name in
    let key := hd EmptyString names in
    match services with
    | JsObject members =>
        (fix read (ms : list (string * JsValue)) : Completion :=
           match ms with
           | [] => Return JsUndefined services
           | (k, item) :: ms' =>
               if decide (k = key) then
                 match item with
                 | JsNull => ThrowTypeError
                 | JsObject item_members =>
                     if has item_members "getTopicName"
                     then Return item services
                     else getServiceItem item (join "/" (tl names))
                 | _ => Return item services
                 end
               else read ms'
           end) members
    | JsNull | JsUndefined => ThrowTypeError
    | _ => Return JsUndefined services
    end.

(** No ["/"] in a property name. *)
Fixpoint slash_free (s : string) : bool :=
  match s with
  | EmptyString => true
  | String c s' => if decide (c = slash) then false else slash_free s'
  end.

(** A property name that can be a piece of an item name. *)
Definition member_name (key : string) : Prop :=
  key <> EmptyString /\ slash_free key = true.

(** What [getServiceItem] returns as found when it reads it from an
    object: anything but a plain object or [null]. *)
Definition is_item (v : JsValue) : bool :=
  match v with
  | JsNull => false
  | JsObject members => has members "getTopicName"
  | _ => true
  end.

(** [resolves services path item object]: following the member names of
    [path] from [services] through plain objects leads to [item], read
    from [object]. *)
Inductive resolves : JsValue -> list string -> JsValue -> JsValue -> Prop :=
| resolves_item members key item :
    get members key = item ->
    is_item item = true ->
    resolves (JsObject members) [key] item (JsObject members)
| resolves_member members key inner path item object :
    get members key = JsObject inner ->
    has inner "getTopicName" = false ->
    resolves (JsObject inner) path item object ->
    resolves (JsObject members) (key :: path) item object.

End Services.

(** ** Server side: connected clients (packages/core/src/local.ts) *)

(** [createRpcServer] of local.ts: the [sessions] object, keyed by client
    id, and the handlers it installs. *)
Module LocalServer.

(** What the handlers do besides updating [sessions]; [Thrown] is a
    [TypeError] leaving the [connection] handler. *)
Inductive Event : Set :=
| Opened (session : RpcSession)
| OnConnected (remoteId : string)
| Terminated (session : RpcSession)
| Removed (session : RpcSession)
| OnDisconnected (remoteId : string)
| Thrown (remoteId : string).

(** [sessions] is a plain object ([{}]): besides the ids stored in it, it
    answers to the names of the members of [Object.prototype]. *)
Definition Object_prototype : list string :=
  ["constructor"; "__defineGetter__"; "__defineSetter__"; "hasOwnProperty";
   "__lookupGetter__"; "__lookupSetter__"; "isPrototypeOf";
   "propertyIsEnumerable"; "toString"; "valueOf"; "__proto__";
   "toLocaleString"].

(** What [sessions[id]] can give besides [undefined]: a session stored
    under the id, or an inherited member (a function, or the prototype
    itself for ["__proto__"]; truthy, and without a [terminate] method). *)
Inductive Member : Set :=
| Session (session : RpcSession)
| Inherited.

#[global] Instance Member_eq_dec : EqDecision Member.
Proof. solve_decision. Defined.

Record t := mk {
  sessions : gmap string RpcSession;
  events : list Event;
}.

(** [createRpcServer(...)]: no client yet. *)
Definition create : t := mk ∅ [].

(** [sessions[id]]: the session stored under the id, before what is
    inherited. *)
Definition read (id : string) (w : t) : option Member :=
  match sessions w !! id with
  | Some session => Some (Session session)
  | None =>
      if bool_decide (id ∈ Object_prototype) then Some Inherited else None
  end.

(** The [connection] handler, for the client id [opts.getClientId(req)]
    and the new session object. Under an id that reads an inherited member
    the call [sessions[remoteId].terminate()] throws: the handler ends
    there, before the session is stored and before the socket gets its
    [message] and [close] handlers. *)
Definition connection (remoteId : string) (session : RpcSession) (w : t) : t :=
  let events1 := events w ++ [Opened session; OnConnected remoteId] in
  match read remoteId w with
  | Some (Session previous) =>
      mk (<[remoteId := session]> (sessions w))
         (events1 ++ [Terminated previous])
  | Some Inherited => mk (sessions w) (events1 ++ [Thrown remoteId])
  | None => mk (<[remoteId := session]> (sessions w)) events1
  end.

(** The [close] handler up to its [await]: [session.remove()] is called. *)
Definition close_begin (session : RpcSession) (w : t) : t :=
  mk (sessions w) (events w ++ [Removed session]).

(** The [close] handler after [await session.remove()]. *)
Definition close_end (remoteId : string) (session : RpcSession) (w : t) : t :=
  mk (if bool_decide (read remoteId w = Some (Session session))
      then delete remoteId (sessions w)
      else sessions w)
     (events w ++ [OnDisconnected remoteId]).

(** The [close] handler run to its end without anything in between. *)
Definition close (remoteId : string) (session : RpcSession) (w : t) : t :=
  close_end remoteId session (close_begin session w).

(** [isConnected(remoteId)] of the returned object: [!!sessions[remoteId]].
    *)
Definition isConnected (remoteId : string) (w : t) : bool :=
  bool_decide (is_Some (read remoteId w)).

(** [getRemote(clientId)] of the returned object: what [createRemote] is
    called on, or the error thrown. *)
Definition getRemote (clientId : string) (w : t) : Outcome Member :=
  match read clientId w with
  | Some member => Fulfilled member
  | None =>
      Rejected (mkError None ("Client " ++ clientId ++ " is not connected"))
  end.

(** The states the server goes through. *)
Inductive reachable : t -> Prop :=
| reach_create : reachable create
| reach_connection remoteId session w :
    reachable w -> reachable (connection remoteId session w)
| reach_close_begin session w :
    reachable w -> reachable (close_begin session w)
| reach_close_end remoteId session w :
    reachable w -> reachable (close_end remoteId session w).

End LocalServer.

(** ** Concrete servers and service trees *)

Module MoreExamples.

Definition server : Type := RpcServer.t string bool nat.

(** A server whose topics all have a supplier and no subscriber, with no
    session yet. *)
Definition new_server : server :=
  RpcServer.mk (fun _ => RpcServer.mkTopic "/todo/todos" true ∅)
    (fun _ => RpcServer.mkSession true []) [] [] 0 [].

Definition session_subscribe :=
  RpcServer.subscribe (D:=string) Examples.stringify_bool Examples.context_of
    Examples.message_id.

Definition session_unsubscribeAll :=
  RpcServer.unsubscribeAll (D:=string) (Ctx:=nat) Examples.stringify_bool.

Definition sessions_of :=
  RpcServer.sessions_of (D:=string) (Ctx:=nat) Examples.stringify_bool.

(** Sessions 1 and 2 connected; session 2 has subscribed to topic 0 with
    filter [true] and the supplier has answered. *)
Definition one_subscriber : server :=
  (RpcServer.answered (Fulfilled "all")
     (session_subscribe 2 0 true
        (RpcServer.connection 2 (RpcServer.connection 1 new_server)))).2.

(** Session 1 has subscribed as well. *)
Definition two_subscribers : server :=
  (RpcServer.answered (Fulfilled "all")
     (session_subscribe 1 0 true one_subscriber)).2.

(** A service tree: [todo.addTodo] is a function, [todo.todos] a topic, and
    [broken] is [null]. *)
Definition todo_topic : Services.JsValue :=
  Services.JsObject [("getTopicName", Services.JsFunction 2)].

Definition todo_service : list (string * Services.JsValue) :=
  [("addTodo", Services.JsFunction 1); ("todos", todo_topic)].

Definition services : list (string * Services.JsValue) :=
  [("todo", Services.JsObject todo_service); ("broken", Services.JsNull)].

(** The same tree as [prepareLocal] goes through it, without the [null]
    member, and with it. *)
Definition local_services : PrepareLocal.Local :=
  PrepareLocal.LObject
    [("todo", PrepareLocal.LObject
                [("addTodo", PrepareLocal.LFunction 1 true);
                 ("todos", PrepareLocal.LTopic 7 true)])].

Definition broken_services : PrepareLocal.Local :=
  PrepareLocal.LObject
    [("todo", PrepareLocal.LObject [("todos", PrepareLocal.LTopic 7 true)]);
     ("broken", PrepareLocal.LNull);
     ("late", PrepareLocal.LTopic 8 true)].

(** A tree whose [todo] object is frozen. *)
Definition frozen_services : PrepareLocal.Local :=
  PrepareLocal.LObject
    [("todo", PrepareLocal.LObject
                [("todos", PrepareLocal.LTopic 7 true);
                 ("addTodo", PrepareLocal.LFunction 1 false);
                 ("late", PrepareLocal.LTopic 8 true)])].

Definition new_run : PrepareLocal.Run := PrepareLocal.mkRun [] [] true.

End MoreExamples.

(** * Properties *)

(** ** Arrays *)

Section JsArrayFacts.
Context {A : Type} `{EqDecision A}.
Implicit Types (l : list A) (x : A) (k : Z).

Lemma indexOf_from_absent k l x :
  x ∉ l -> indexOf_from k l x = (-1)%Z.
Proof.
  revert k. induction l as [|y l IH]; intros k Hx; simpl; [done|].
  apply not_elem_of_cons in Hx as [Hne Hx].
  destruct (decide (y = x)); [congruence|]. by apply IH.
Qed.

Lemma indexOf_from_present k l x :
  x ∈ l -> (k <= indexOf_from k l x)%Z.
Proof.
  revert k. induction l as [|y l IH]; intros k Hx; simpl.
  - by apply elem_of_nil in Hx.
  - destruct (decide (y = x)); [lia|].
    apply elem_of_cons in Hx as [->|Hx]; [done|].
    specialize (IH (k + 1)%Z Hx). lia.
Qed.

Lemma indexOf_from_range k l x :
  (0 <= k)%Z ->
  indexOf_from k l x = (-1)%Z
  \/ (k <= indexOf_from k l x < k + Z.of_nat (length l))%Z.
Proof.
  revert k. induction l as [|y l IH]; intros k Hk; simpl; [by left|].
  destruct (decide (y = x)); [right; lia|].
  destruct (IH (k + 1)%Z ltac:(lia)) as [->|?]; [by left|right; lia].
Qed.

Lemma indexOf_from_lookup k l x :
  (0 <= k)%Z -> x ∈ l ->
  l !! Z.to_nat (indexOf_from k l x - k) = Some x.
Proof.
  revert k. induction l as [|y l IH]; intros k Hk Hx; simpl.
  - by apply elem_of_nil in Hx.
  - destruct (decide (y = x)) as [->|Hne].
    + by replace (k - k)%Z with 0%Z by lia.
    + apply elem_of_cons in Hx as [->|Hx]; [done|].
      pose proof (indexOf_from_present (k + 1)%Z l x Hx).
      specialize (IH (k + 1)%Z ltac:(lia) Hx).
      replace (Z.to_nat (indexOf_from (k + 1) l x - k))
        with (S (Z.to_nat (indexOf_from (k + 1) l x - (k + 1)))) by lia.
      done.
Qed.

Lemma indexOf_absent l x : x ∉ l -> indexOf l x = (-1)%Z.
Proof. apply indexOf_from_absent. Qed.

Lemma indexOf_present l x : x ∈ l -> (0 <= indexOf l x)%Z.
Proof. apply indexOf_from_present. Qed.

Lemma indexOf_nonneg_elem l x : (0 <= indexOf l x)%Z -> x ∈ l.
Proof.
  intros H. destruct (decide (x ∈ l)) as [|Hn]; [done|].
  rewrite (indexOf_absent l x Hn) in H. lia.
Qed.

(** [splice(-1, 1)] drops the last element. *)
Lemma splice_minus_one l x : splice (l ++ [x]) (-1) 1 = l.
Proof.
  unfold splice. cbv zeta.
  assert (Hlen : Z.of_nat (length (l ++ [x])) = (Z.of_nat (length l) + 1)%Z)
    by (rewrite length_app; simpl; lia).
  rewrite Hlen.
  replace (-1 <? 0)%Z with true by done.
  replace (Z.max (Z.of_nat (length l) + 1 + -1) 0)
    with (Z.of_nat (length l)) by lia.
  replace (Z.min (Z.max 1 0) (Z.of_nat (length l) + 1 - Z.of_nat (length l)))
    with 1%Z by lia.
  rewrite Nat2Z.id, take_app_length.
  rewrite drop_ge; [by rewrite app_nil_r|].
  rewrite length_app; simpl; lia.
Qed.

(** Splicing one element out at a valid index is [delete]. *)
Lemma splice_one_delete l (i : nat) :
  i < length l -> splice l (Z.of_nat i) 1 = delete i l.
Proof.
  intros Hi. unfold splice. cbv zeta.
  replace (Z.of_nat i <? 0)%Z with false by (symmetry; apply Z.ltb_ge; lia).
  replace (Z.min (Z.of_nat i) (Z.of_nat (length l))) with (Z.of_nat i) by lia.
  replace (Z.min (Z.max 1 0) (Z.of_nat (length l) - Z.of_nat i))
    with 1%Z by lia.
  rewrite Nat2Z.id.
  replace (Z.to_nat (Z.of_nat i + 1)) with (S i) by lia.
  by rewrite delete_take_drop.
Qed.

Lemma splice_sublist l start n : sublist (splice l start n) l.
Proof.
  unfold splice. cbv zeta.
  set (a := Z.to_nat _). set (b := Z.to_nat _).
  assert (Hab : a <= b) by (subst a b; destruct (Z.ltb_spec start 0); lia).
  rewrite <- (take_drop a l) at 3.
  apply sublist_app; [done|].
  replace b with (a + (b - a)) by lia. rewrite <- drop_drop.
  apply sublist_drop.
Qed.
End JsArrayFacts.

(** ** Topics *)

Section TopicFacts.
Context {D P Ctx : Type}.
Variable JSON_stringify : P -> string.
Variable createContext : RpcSession -> Ctx.
Variable createMessageId : nat -> string.

Local Abbreviation topic := (@LocalTopicImpl.t D P Ctx).
Local Abbreviation subscribeSession :=
  (LocalTopicImpl.subscribeSession JSON_stringify createContext createMessageId).
Local Abbreviation unsubscribeSession :=
  (LocalTopicImpl.unsubscribeSession JSON_stringify).
Local Abbreviation trigger :=
  (LocalTopicImpl.trigger JSON_stringify createContext createMessageId).
Local Abbreviation send_data := (LocalTopicImpl.send_data createMessageId).
Local Abbreviation supply_then_send :=
  (LocalTopicImpl.supply_then_send createContext createMessageId).
Local Abbreviation trigger_session :=
  (LocalTopicImpl.trigger_session createContext createMessageId).
Local Abbreviation sessions_of := (LocalTopicImpl.sessions_of JSON_stringify).
Local Abbreviation reachable :=
  (LocalTopicImpl.reachable JSON_stringify createContext createMessageId).
Local Abbreviation subscribedSessions := LocalTopicImpl.subscribedSessions.
Local Abbreviation sessions_nodup := (@LocalTopicImpl.sessions_nodup D P Ctx).

Implicit Types (w : topic) (session : RpcSession) (params : P).

Lemma subscribeSession_subscribed session params w :
  session ∈ sessions_of params w ->
  subscribeSession session params w = (Done (Fulfilled tt), w).
Proof.
  intros Hin. unfold LocalTopicImpl.subscribeSession.
  unfold LocalTopicImpl.sessions_of in Hin.
  by rewrite bool_decide_eq_true_2 by by apply indexOf_present.
Qed.

Lemma subscribeSession_fresh session params w :
  session ∉ sessions_of params w ->
  subscribedSessions (subscribeSession session params w).2
  = <[JSON_stringify params := sessions_of params w ++ [session]]>
      (subscribedSessions w).
Proof.
  intros Hin. unfold LocalTopicImpl.subscribeSession.
  unfold LocalTopicImpl.sessions_of in *.
  rewrite bool_decide_eq_false_2.
  - simpl. by destruct (LocalTopicImpl.has_supplier w).
  - rewrite (indexOf_absent _ _ Hin). lia.
Qed.

(** A newly subscribed session goes to the end of the list of its key. *)
Lemma subscribeSession_appends session params w :
  session ∉ sessions_of params w ->
  sessions_of params (subscribeSession session params w).2
  = sessions_of params w ++ [session].
Proof.
  intros Hin. unfold LocalTopicImpl.sessions_of at 1.
  rewrite (subscribeSession_fresh _ _ _ Hin).
  by rewrite lookup_insert_eq.
Qed.

Lemma subscribeSession_member session params w :
  session ∈ sessions_of params (subscribeSession session params w).2.
Proof.
  destruct (decide (session ∈ sessions_of params w)) as [Hin|Hin].
  - by rewrite subscribeSession_subscribed.
  - rewrite subscribeSession_appends by done. set_solver.
Qed.

Lemma send_data_sessions session params (data : D) w :
  subscribedSessions (send_data session params data w) = subscribedSessions w.
Proof. done. Qed.

Lemma supply_then_send_sessions session params w :
  subscribedSessions (supply_then_send session params w).2
  = subscribedSessions w.
Proof. done. Qed.

Lemma trigger_session_sessions params (suppliedData : Optional D) session w :
  subscribedSessions (trigger_session params suppliedData session w).2
  = subscribedSessions w.
Proof.
  unfold LocalTopicImpl.trigger_session.
  by destruct suppliedData, (LocalTopicImpl.has_supplier w).
Qed.

Lemma forEach_trigger_sessions params (suppliedData : Optional D) l w :
  subscribedSessions
    (forEach (trigger_session params suppliedData) l w).2
  = subscribedSessions w.
Proof.
  revert w. induction l as [|s l IH]; intros w; simpl; [done|].
  destruct (trigger_session params suppliedData s w) as [task w1] eqn:E1.
  destruct (forEach _ l w1) as [tasks w2] eqn:E2. simpl.
  specialize (IH w1). rewrite E2 in IH. simpl in IH. rewrite IH.
  by rewrite <- (trigger_session_sessions params suppliedData s w), E1.
Qed.

Lemma subscribeSession_nodup session params w :
  sessions_nodup w -> sessions_nodup (subscribeSession session params w).2.
Proof.
  intros Hw. destruct (decide (session ∈ sessions_of params w)) as [Hin|Hin].
  - by rewrite subscribeSession_subscribed.
  - intros key l. rewrite subscribeSession_fresh by done.
    destruct (decide (JSON_stringify params = key)) as [<-|Hne].
    + rewrite lookup_insert_eq. intros [= <-].
      apply NoDup_app. split_and!.
      * unfold LocalTopicImpl.sessions_of.
        destruct (subscribedSessions w !! JSON_stringify params) eqn:E;
          simpl; [by eapply Hw|constructor].
      * intros x Hx Hx'. apply list_elem_of_singleton in Hx' as ->. done.
      * apply NoDup_singleton.
    + rewrite lookup_insert_ne by done. apply Hw.
Qed.

Lemma unsubscribeSession_nodup session params w :
  sessions_nodup w -> sessions_nodup (unsubscribeSession session params w).
Proof.
  intros Hw key l. unfold LocalTopicImpl.unsubscribeSession.
  destruct (subscribedSessions w !! JSON_stringify params) as [ss|] eqn:E;
    [|apply Hw].
  case_bool_decide; simpl.
  - intros Hl. apply lookup_delete_Some in Hl as [_ Hl]. by eapply Hw.
  - destruct (decide (JSON_stringify params = key)) as [<-|Hne].
    + rewrite lookup_insert_eq. intros [= <-].
      eapply sublist_NoDup; [by eapply Hw|apply splice_sublist].
    + rewrite lookup_insert_ne by done. apply Hw.
Qed.

Lemma reachable_nodup w : reachable w -> sessions_nodup w.
Proof.
  induction 1 as [n s|w session params _ IH|w session params _ IH
                 |w params suppliedData _ IH|w session params data _ IH].
  - intros key l. simpl. by rewrite lookup_empty.
  - by apply subscribeSession_nodup.
  - by apply unsubscribeSession_nodup.
  - intros key l. unfold LocalTopicImpl.trigger.
    rewrite forEach_trigger_sessions. apply IH.
  - exact IH.
Qed.

(** C8. A session that subscribes to a key it has just subscribed to changes
    nothing: the second call returns at its "no double subscribe" guard,
    leaving the topic (and so the session list of the key) as the first call
    left it, and in every state a topic can reach the session is listed
    exactly once under the key, no list holding a session twice. *)
Theorem subscribeSession_twice_idempotent w session params :
  reachable w ->
  let w1 := (subscribeSession session params w).2 in
  let w2 := (subscribeSession session params w1).2 in
  subscribeSession session params w1 = (Done (Fulfilled tt), w1)
  /\ sessions_of params w2 = sessions_of params w1
  /\ session ∈ sessions_of params w2
  /\ NoDup (sessions_of params w2)
  /\ sessions_nodup w2.
Proof.
  intros Hw w1 w2.
  assert (Hin : session ∈ sessions_of params w1)
    by apply subscribeSession_member.
  assert (E : subscribeSession session params w1 = (Done (Fulfilled tt), w1))
    by by apply subscribeSession_subscribed.
  assert (Hnd : sessions_nodup w1)
    by by apply subscribeSession_nodup, reachable_nodup.
  subst w2. rewrite E. simpl. split_and!; try done.
  unfold LocalTopicImpl.sessions_of.
  destruct (subscribedSessions w1 !! JSON_stringify params) eqn:El; simpl;
    [by eapply Hnd|constructor].
Qed.

(** C9. Unsubscribing a session that is not listed under a key that has
    sessions is not a no-op: [indexOf] answers [-1], [splice(-1, 1)] takes
    the last entry of the list, the most recently subscribed session, away,
    and the key is deleted when that was its only entry. *)
Theorem unsubscribeSession_stranger_removes_latest
    w session params (sessions : list RpcSession) :
  subscribedSessions w !! JSON_stringify params = Some sessions ->
  sessions <> [] ->
  session ∉ sessions ->
  exists earlier latest,
    sessions = earlier ++ [latest]
    /\ sessions_of params (unsubscribeSession session params w) = earlier
    /\ subscribedSessions (unsubscribeSession session params w)
       = (if bool_decide (earlier = [])
          then delete (JSON_stringify params) (subscribedSessions w)
          else <[JSON_stringify params := earlier]> (subscribedSessions w))
    /\ subscribedSessions (unsubscribeSession session params w)
       <> subscribedSessions w.
Proof.
  intros Hl Hne Hin.
  destruct (exists_last Hne) as (earlier & latest & ->).
  exists earlier, latest.
  assert (E : subscribedSessions (unsubscribeSession session params w)
              = (if bool_decide (earlier = [])
                 then delete (JSON_stringify params) (subscribedSessions w)
                 else <[JSON_stringify params := earlier]>
                        (subscribedSessions w))).
  { unfold LocalTopicImpl.unsubscribeSession. rewrite Hl.
    rewrite (indexOf_absent _ _ Hin), splice_minus_one.
    by destruct earlier. }
  split_and!; [done| |done|].
  - unfold LocalTopicImpl.sessions_of. rewrite E.
    case_bool_decide as He.
    + by rewrite lookup_delete_eq, He.
    + by rewrite lookup_insert_eq.
  - rewrite E. intros Heq.
    apply (f_equal (fun m => m !! JSON_stringify params)) in Heq.
    rewrite Hl in Heq. case_bool_decide.
    + by rewrite lookup_delete_eq in Heq.
    + rewrite lookup_insert_eq in Heq. injection Heq as Heq.
      apply (f_equal length) in Heq. rewrite length_app in Heq.
      simpl in Heq. lia.
Qed.

Local Abbreviation log := LocalTopicImpl.log.
Local Abbreviation supplier_calls := LocalTopicImpl.supplier_calls.
Local Abbreviation sent_frames := LocalTopicImpl.sent_frames.

Lemma supplier_calls_app (l k : list (@LocalTopicImpl.Event D P Ctx)) :
  supplier_calls (l ++ k) = supplier_calls l ++ supplier_calls k.
Proof. apply omap_app. Qed.

Lemma sent_frames_app (l k : list (@LocalTopicImpl.Event D P Ctx)) :
  sent_frames (l ++ k) = sent_frames l ++ sent_frames k.
Proof. apply omap_app. Qed.

Lemma supplier_calls_called params (l : list RpcSession) :
  supplier_calls
    ((fun s => LocalTopicImpl.SupplierCalled (D:=D) params (createContext s))
       <$> l)
  = (fun s => (params, createContext s)) <$> l.
Proof. induction l as [|s l IH]; csimpl; [done|]. by f_equal. Qed.

Lemma sent_frames_called params (l : list RpcSession) :
  sent_frames
    ((fun s => LocalTopicImpl.SupplierCalled (D:=D) params (createContext s))
       <$> l)
  = [].
Proof. induction l as [|s l IH]; csimpl; [done|]. done. Qed.

Lemma supplier_calls_sent
    (h : nat -> RpcSession -> @LocalTopicImpl.Frame D P) l :
  supplier_calls (imap (fun i s => LocalTopicImpl.Sent (Ctx:=Ctx) s (h i s)) l)
  = [].
Proof.
  revert h. induction l as [|s l IH]; intros h; simpl; [done|].
  apply (IH (h ∘ S)).
Qed.

Lemma sent_frames_sent
    (h : nat -> RpcSession -> @LocalTopicImpl.Frame D P) l :
  sent_frames (imap (fun i s => LocalTopicImpl.Sent (Ctx:=Ctx) s (h i s)) l)
  = imap (fun i s => (s, h i s)) l.
Proof.
  revert h. induction l as [|s l IH]; intros h; simpl; [done|].
  f_equal. apply (IH (h ∘ S)).
Qed.

(** Without data, [forEach] enters the supplier once per session, in list
    order, and sends nothing yet. *)
Lemma forEach_supply params (l : list RpcSession) w :
  forEach (fun s => supply_then_send s params) l w
  = ((fun s => (supply_then_send s params w).1) <$> l,
     LocalTopicImpl.mk (LocalTopicImpl.name w) (LocalTopicImpl.has_supplier w)
       (subscribedSessions w)
       (log w ++ ((fun s => LocalTopicImpl.SupplierCalled params
                              (createContext s)) <$> l))
       (LocalTopicImpl.messageIds w)).
Proof.
  revert w. induction l as [|s l IH]; intros w; simpl.
  - destruct w; simpl. by rewrite app_nil_r.
  - rewrite IH. simpl. by rewrite <- app_assoc.
Qed.

(** On a topic with a supplier, the callbacks of a trigger without data
    are those supplier calls. *)
Lemma forEach_trigger_supply params (l : list RpcSession) w :
  LocalTopicImpl.has_supplier w = true ->
  forEach (trigger_session params undefined) l w
  = forEach (fun s => supply_then_send s params) l w.
Proof.
  revert w. induction l as [|s l IH]; intros w Hsup; [done|].
  assert (E : trigger_session params (@undefined D) s w
              = supply_then_send s params w).
  { unfold LocalTopicImpl.trigger_session. by rewrite Hsup. }
  cbn [forEach]. rewrite E.
  destruct (supply_then_send s params w) as [task w1] eqn:E1.
  rewrite IH; [done|].
  unfold LocalTopicImpl.supply_then_send in E1. by injection E1 as <- <-.
Qed.

(** On a topic without a supplier, every callback of a trigger without data
    ends with the [TypeError]: no supplier is entered and nothing is sent. *)
Lemma trigger_without_supplier params w :
  LocalTopicImpl.has_supplier w = false ->
  trigger params undefined w
  = (replicate (length (sessions_of params w))
       (Done (Rejected LocalTopicImpl.supplier_is_not_a_function)), w).
Proof.
  intros Hsup. unfold LocalTopicImpl.trigger, LocalTopicImpl.sessions_of.
  induction (default [] (subscribedSessions w !! JSON_stringify params))
    as [|s l IH]; [done|].
  assert (E : trigger_session params (@undefined D) s w
              = (Done (Rejected LocalTopicImpl.supplier_is_not_a_function), w)).
  { unfold LocalTopicImpl.trigger_session. by rewrite Hsup. }
  cbn [forEach length replicate]. rewrite E. by rewrite IH.
Qed.

(** With data, [forEach] sends one frame per session, in list order, each
    with a message id of its own. *)
Lemma forEach_send params (data : D) (l : list RpcSession) w :
  forEach (trigger_session params (defined data)) l w
  = (replicate (length l) (Done (Fulfilled tt)),
     LocalTopicImpl.mk (LocalTopicImpl.name w) (LocalTopicImpl.has_supplier w)
       (subscribedSessions w)
       (log w ++ imap (fun i s =>
                         LocalTopicImpl.Sent s
                           (LocalTopicImpl.mkFrame Data
                              (createMessageId (LocalTopicImpl.messageIds w + i))
                              (LocalTopicImpl.name w) params data)) l)
       (LocalTopicImpl.messageIds w + length l)).
Proof.
  revert w. induction l as [|s l IH]; intros w; simpl.
  - destruct w; simpl. by rewrite app_nil_r, Nat.add_0_r.
  - rewrite IH. simpl. rewrite <- app_assoc. simpl.
    rewrite Nat.add_0_r. f_equal. f_equal; [|lia].
    f_equal. f_equal.
    apply imap_ext. intros i x _. simpl. by rewrite Nat.add_succ_r.
Qed.


(** [null] passed as data is not data: the supplier branch is taken. *)
Lemma trigger_null_is_undefined w params :
  trigger params null w = trigger params undefined w.
Proof. done. Qed.

End TopicFacts.

(** ** The subscription registry *)

Section RegistryFacts.
Context {Value Parameters : Type}.
Variable stringify : Parameters -> string.

Local Abbreviation registry := (RemoteSubscriptions.t Value Parameters).
Local Abbreviation reg_unsubscribe := (RemoteSubscriptions.unsubscribe stringify).
Local Abbreviation reg_subscribe := (RemoteSubscriptions.subscribe stringify).
Local Abbreviation reg_consume := (RemoteSubscriptions.consume stringify).
Local Abbreviation consumers_of := (RemoteSubscriptions.consumers_of stringify).
Local Abbreviation records := RemoteSubscriptions.records.

Implicit Types (reg : registry) (itemName : string) (parameters : Parameters)
  (consumer : Consumer).

Lemma remove_one_head consumer (l : list Consumer) :
  RemoteSubscriptions.remove_one consumer (consumer :: l) = l.
Proof. simpl. by rewrite decide_True. Qed.

Lemma remove_one_absent consumer (l : list Consumer) :
  consumer ∉ l -> RemoteSubscriptions.remove_one consumer l = l.
Proof.
  induction l as [|c l IH]; intros Hin; simpl; [done|].
  apply not_elem_of_cons in Hin as [Hne Hin].
  rewrite decide_False by done. by rewrite IH.
Qed.

Lemma remove_one_length consumer (l : list Consumer) :
  consumer ∈ l ->
  S (length (RemoteSubscriptions.remove_one consumer l)) = length l.
Proof.
  induction l as [|c l IH]; intros Hin; simpl.
  - by apply elem_of_nil in Hin.
  - destruct (decide (c = consumer)) as [->|Hne]; [done|].
    apply elem_of_cons in Hin as [->|Hin]; [done|]. simpl. by rewrite IH.
Qed.

(** What the registry's [unsubscribe] leaves under the key. *)
Lemma unsubscribe_consumers_of itemName parameters consumer reg :
  consumers_of itemName parameters (reg_unsubscribe itemName parameters consumer reg).2
  = RemoteSubscriptions.remove_one consumer (consumers_of itemName parameters reg).
Proof.
  unfold RemoteSubscriptions.unsubscribe, RemoteSubscriptions.consumers_of.
  destruct (records reg !! (itemName, stringify parameters)) as [r|] eqn:E;
    simpl; [|by rewrite E].
  case_bool_decide as Hc; simpl.
  - by rewrite lookup_delete_eq, Hc.
  - by rewrite lookup_insert_eq.
Qed.

(** The registry's [unsubscribe] answers [true] exactly when it leaves no
    consumer under the key. *)
Lemma unsubscribe_true_iff itemName parameters consumer reg :
  (reg_unsubscribe itemName parameters consumer reg).1 = true
  <-> consumers_of itemName parameters
        (reg_unsubscribe itemName parameters consumer reg).2 = [].
Proof.
  unfold RemoteSubscriptions.unsubscribe, RemoteSubscriptions.consumers_of.
  destruct (records reg !! (itemName, stringify parameters)) as [r|] eqn:E;
    simpl; [|by rewrite E].
  case_bool_decide as Hc; simpl.
  - by rewrite lookup_delete_eq.
  - by rewrite lookup_insert_eq.
Qed.

(** ... and then the key has no record at all. *)
Lemma unsubscribe_true_no_record itemName parameters consumer reg :
  (reg_unsubscribe itemName parameters consumer reg).1 = true
  <-> records (reg_unsubscribe itemName parameters consumer reg).2
        !! (itemName, stringify parameters) = None.
Proof.
  unfold RemoteSubscriptions.unsubscribe.
  destruct (records reg !! (itemName, stringify parameters)) as [r|] eqn:E;
    simpl; [|by rewrite E].
  case_bool_decide as Hc; simpl.
  - by rewrite lookup_delete_eq.
  - by rewrite lookup_insert_eq.
Qed.

(** Unsubscribing the consumers listed under a key, one call each, empties
    the key. *)
Lemma unsubscribe_all itemName parameters (cs : list Consumer) reg :
  consumers_of itemName parameters reg = cs ->
  consumers_of itemName parameters
    (foldl (fun reg c => (reg_unsubscribe itemName parameters c reg).2) reg cs)
  = [].
Proof.
  revert reg. induction cs as [|c cs IH]; intros reg Hcs; simpl; [done|].
  apply IH. by rewrite unsubscribe_consumers_of, Hcs, remove_one_head.
Qed.

(** One call of [unsubscribe] per listed consumer takes one registration
    of each away, whatever else is registered under the key. *)
Lemma unsubscribe_each itemName parameters (cs : list Consumer) reg :
  consumers_of itemName parameters
    (foldl (fun reg c => (reg_unsubscribe itemName parameters c reg).2) reg cs)
  = foldl (fun l c => RemoteSubscriptions.remove_one c l)
      (consumers_of itemName parameters reg) cs.
Proof.
  revert reg. induction cs as [|c cs IH]; intros reg; simpl; [done|].
  by rewrite IH, unsubscribe_consumers_of.
Qed.

Lemma remove_one_other consumer other (l : list Consumer) :
  other <> consumer ->
  other ∈ RemoteSubscriptions.remove_one consumer l <-> other ∈ l.
Proof.
  intros Hne. induction l as [|c l IH]; simpl; [done|].
  destruct (decide (c = consumer)) as [->|Hc].
  - rewrite elem_of_cons. split; [by right|]. by intros [?|?].
  - by rewrite !elem_of_cons, IH.
Qed.

Lemma remove_each_other other (cs l : list Consumer) :
  other ∉ cs ->
  other ∈ foldl (fun l c => RemoteSubscriptions.remove_one c l) l cs
  <-> other ∈ l.
Proof.
  revert l. induction cs as [|c cs IH]; intros l Hin; simpl; [done|].
  apply not_elem_of_cons in Hin as [Hne Hin].
  by rewrite IH, remove_one_other.
Qed.

Lemma subscribe_consumers_of data itemName parameters consumer reg :
  consumers_of itemName parameters
    (reg_subscribe data itemName parameters consumer reg).1
  = consumers_of itemName parameters reg ++ [consumer].
Proof.
  unfold RemoteSubscriptions.subscribe, RemoteSubscriptions.consumers_of.
  simpl. rewrite lookup_insert_eq. simpl.
  by destruct (records reg !! (itemName, stringify parameters)).
Qed.

(** Every record of the registry is in the snapshot. *)
Lemma getAllSubscriptions_complete reg key r :
  records reg !! key = Some r ->
  (key.1, RemoteSubscriptions.sub_parameters r, RemoteSubscriptions.consumers r)
  ∈ RemoteSubscriptions.getAllSubscriptions reg.
Proof.
  intros Hr. unfold RemoteSubscriptions.getAllSubscriptions.
  apply list_elem_of_fmap. exists (key, r). split; [done|].
  by apply elem_of_map_to_list'.
Qed.

End RegistryFacts.

(** ** The client core *)

Section ClientFacts.
Context {Value Parameters : Type}.
Variable stringify : Parameters -> string.

Local Abbreviation client := (RpcClientImpl.t Value Parameters).
Local Abbreviation subscribe := (RpcClientImpl.subscribe stringify).
Local Abbreviation unsubscribe := (RpcClientImpl.unsubscribe stringify).
Local Abbreviation resubscribe := (RpcClientImpl.resubscribe stringify).
Local Abbreviation resubscribe_one := (RpcClientImpl.resubscribe_one stringify).
Local Abbreviation on_push := (RpcClientImpl.on_push stringify).
Local Abbreviation detach := (RpcClientImpl.detach stringify).
Local Abbreviation deliver := (RpcClientImpl.deliver stringify).
Local Abbreviation remoteSubscriptions := RpcClientImpl.remoteSubscriptions.
Local Abbreviation connection := RpcClientImpl.connection.
Local Abbreviation trace := RpcClientImpl.trace.
Local Abbreviation consumers_of := (RemoteSubscriptions.consumers_of stringify).
Local Abbreviation Invoked := (@RpcClientImpl.Invoked Value Parameters).
Local Abbreviation Requested := (@RpcClientImpl.Requested Value Parameters).

Implicit Types (w : client) (itemName : string) (parameters : Parameters)
  (consumer : Consumer) (e : JsError) (data : Optional Value).

Lemma with_registry_trace op w :
  trace (RpcClientImpl.with_registry op w)
  = trace w
    ++ ((fun i : Consumer * Optional Value => Invoked i.1 i.2)
          <$> (op (remoteSubscriptions w)).2).
Proof.
  unfold RpcClientImpl.with_registry.
  by destruct (op (remoteSubscriptions w)).
Qed.

Lemma with_registry_registry op w :
  remoteSubscriptions (RpcClientImpl.with_registry op w)
  = (op (remoteSubscriptions w)).1.
Proof.
  unfold RpcClientImpl.with_registry.
  by destruct (op (remoteSubscriptions w)).
Qed.

(** Pushed frames only add to what has been observed. *)
Lemma deliver_trace frames w :
  exists later, trace (deliver frames w) = trace w ++ later.
Proof.
  revert w. induction frames as [|f frames IH]; intros w; simpl.
  - exists []. by rewrite app_nil_r.
  - destruct (IH (on_push f.1.1 f.1.2 f.2 w)) as [later ->].
    unfold RpcClientImpl.on_push. rewrite with_registry_trace.
    eexists. by rewrite <- app_assoc.
Qed.

Lemma foldl_detach_registry itemName parameters (cs : list Consumer) w :
  remoteSubscriptions (foldl (detach itemName parameters) w cs)
  = foldl (fun reg c =>
             (RemoteSubscriptions.unsubscribe stringify itemName parameters c
                reg).2) (remoteSubscriptions w) cs.
Proof.
  revert w. induction cs as [|c cs IH]; intros w; simpl; [done|].
  by rewrite IH.
Qed.

Lemma foldl_detach_trace itemName parameters (cs : list Consumer) w :
  trace (foldl (detach itemName parameters) w cs) = trace w.
Proof.
  revert w. induction cs as [|c cs IH]; intros w; simpl; [done|].
  by rewrite IH.
Qed.

(** The synchronous part of [subscribe]. *)
Lemma subscribe_sync itemName parameters consumer w :
  let cached :=
    RemoteSubscriptions.getCached stringify itemName parameters
      (remoteSubscriptions w) in
  let r := subscribe itemName parameters consumer w in
  remoteSubscriptions r.2 = remoteSubscriptions w
  /\ awaiting r.1 = Some (HttpClient.ReqSubscribe itemName parameters)
  /\ trace r.2
     = trace w
       ++ (if strict_neq_undefined cached then [Invoked consumer cached] else [])
       ++ [Requested (HttpClient.ReqSubscribe itemName parameters)]
  /\ connection r.2
     = (if RpcClientImpl.options_subscribe w
        then WebSocketConnection.connect (connection w) else connection w).
Proof.
  intros cached r. subst r. unfold RpcClientImpl.subscribe. fold cached.
  destruct (strict_neq_undefined cached); simpl;
    destruct (RpcClientImpl.options_subscribe w); simpl;
    rewrite <- ?app_assoc; by split_and!.
Qed.

(** The rest of [subscribe], once the HTTP request has settled. *)
Lemma subscribe_resume itemName parameters consumer w
    (r : Outcome (Optional Value)) w' :
  resume (subscribe itemName parameters consumer w).1 r w'
  = match r with
    | Fulfilled data =>
        (Done (Fulfilled tt),
         RpcClientImpl.with_registry
           (RemoteSubscriptions.subscribe stringify data itemName parameters
              consumer) w')
    | Rejected e => (Done (Rejected e), w')
    end.
Proof. done. Qed.

(** C1. When the HTTP subscribe fails, [subscribe] hands the error to its
    caller and the registry is as it was: the part of [subscribe] that runs
    before the request leaves the registry alone, and the part that runs on
    the failure changes nothing in the state it finds, so no record and no
    consumer is added. *)
Theorem subscribe_failure_leaves_registry
    w w' itemName parameters consumer e :
  let r := subscribe itemName parameters consumer w in
  remoteSubscriptions r.2 = remoteSubscriptions w
  /\ awaiting r.1 = Some (HttpClient.ReqSubscribe itemName parameters)
  /\ resume r.1 (Rejected e) w' = (Done (Rejected e), w')
  /\ settled (resume r.1 (Rejected e) r.2).1 = Some (Rejected e)
  /\ remoteSubscriptions (resume r.1 (Rejected e) r.2).2 = remoteSubscriptions w
  /\ consumers_of itemName parameters
       (remoteSubscriptions (resume r.1 (Rejected e) r.2).2)
     = consumers_of itemName parameters (remoteSubscriptions w).
Proof.
  intros r.
  destruct (subscribe_sync itemName parameters consumer w) as (Hreg & Hq & _).
  subst r. rewrite !subscribe_resume.
  cbn [fst snd settled]. by rewrite Hreg.
Qed.

(** C2. [unsubscribe] issues the HTTP unsubscribe for the key exactly when
    the registry's [unsubscribe] answered [true], and the registry answers
    [true] exactly when no consumer is left under the key (the key then has
    no record). *)
Theorem unsubscribe_request_iff_none_left w itemName parameters consumer :
  let answer :=
    RemoteSubscriptions.unsubscribe stringify itemName parameters consumer
      (remoteSubscriptions w) in
  let r := unsubscribe itemName parameters consumer w in
  remoteSubscriptions r.2 = answer.2
  /\ (awaiting r.1 = Some (HttpClient.ReqUnsubscribe itemName parameters)
      <-> answer.1 = true)
  /\ trace r.2
     = trace w
       ++ (if answer.1
           then [Requested (HttpClient.ReqUnsubscribe itemName parameters)]
           else [])
  /\ (answer.1 = true
      <-> consumers_of itemName parameters (remoteSubscriptions r.2) = [])
  /\ (answer.1 = true
      <-> RemoteSubscriptions.records (remoteSubscriptions r.2)
            !! (itemName, stringify parameters) = None).
Proof.
  intros answer r.
  assert (Hreg : remoteSubscriptions r.2 = answer.2).
  { subst r answer. unfold RpcClientImpl.unsubscribe.
    destruct (RemoteSubscriptions.unsubscribe _ _ _ _ _) as [[] reg]; done. }
  split_and!; [done| | | |].
  - subst r answer. unfold RpcClientImpl.unsubscribe.
    destruct (RemoteSubscriptions.unsubscribe _ _ _ _ _) as [[] reg]; simpl;
      split; congruence.
  - subst r answer. unfold RpcClientImpl.unsubscribe.
    destruct (RemoteSubscriptions.unsubscribe _ _ _ _ _) as [[] reg]; simpl;
      [done|by rewrite app_nil_r].
  - rewrite Hreg. apply unsubscribe_true_iff.
  - rewrite Hreg. apply unsubscribe_true_no_record.
Qed.

Lemma resubscribe_one_task (s : string * Parameters * list Consumer) w w0 :
  (resubscribe_one s w).1 = (resubscribe_one s w0).1.
Proof. by destruct s as [[itemName params] consumers]. Qed.

Lemma resubscribe_one_state (s : string * Parameters * list Consumer) w :
  (resubscribe_one s w).2
  = RpcClientImpl.emit [Requested (HttpClient.ReqSubscribe s.1.1 s.1.2)] w.
Proof. by destruct s as [[itemName params] consumers]. Qed.

(** The loop of [resubscribe] issues one request per snapshot entry, in
    order, and touches nothing else. *)
Lemma forEach_resubscribe (l : list (string * Parameters * list Consumer))
    w w0 :
  let r := forEach resubscribe_one l w in
  r.1 = (fun s => (resubscribe_one s w0).1) <$> l
  /\ remoteSubscriptions r.2 = remoteSubscriptions w
  /\ connection r.2 = connection w
  /\ trace r.2
     = trace w
       ++ ((fun s => Requested (HttpClient.ReqSubscribe s.1.1 s.1.2)) <$> l).
Proof.
  revert w. induction l as [|s l IH]; intros w; simpl.
  - by rewrite app_nil_r.
  - destruct (resubscribe_one s w) as [task w1] eqn:E1.
    destruct (forEach resubscribe_one l w1) as [tasks w2] eqn:E2.
    specialize (IH w1). rewrite E2 in IH. simpl in IH.
    destruct IH as (Ht & Hreg & Hconn & Htr).
    pose proof (resubscribe_one_state s w) as Hs. rewrite E1 in Hs.
    simpl in Hs. subst w1. simpl in *.
    rewrite Ht, Hreg, Hconn, Htr, <- app_assoc.
    split_and!; try done.
    f_equal. by rewrite <- (resubscribe_one_task s w w0), E1.
Qed.


(** C4. With push delivery enabled and the socket disconnected, [subscribe]
    starts a connection attempt and waits for the HTTP subscribe only. If
    the attempt fails, before or after the HTTP answer, no consumer hears of
    it and the registry is untouched; [subscribe] fulfils, and the consumer
    is called with the value the HTTP subscribe returned and is registered
    under the key. *)
Theorem subscribe_ignores_connect_failure
    w itemName parameters consumer e data :
  RpcClientImpl.options_subscribe w = true ->
  WebSocketConnection.state (connection w) = WebSocketConnection.Disconnected ->
  let r := subscribe itemName parameters consumer w in
  WebSocketConnection.state (connection r.2) = WebSocketConnection.Connecting
  /\ awaiting r.1 = Some (HttpClient.ReqSubscribe itemName parameters)
  /\ (let w2 := RpcClientImpl.connect_failed e r.2 in
      let r' := resume r.1 (Fulfilled data) w2 in
      WebSocketConnection.state (connection w2) = WebSocketConnection.Backoff
      /\ trace w2 = trace r.2
      /\ remoteSubscriptions w2 = remoteSubscriptions r.2
      /\ settled r'.1 = Some (Fulfilled tt)
      /\ trace r'.2 = trace r.2 ++ [Invoked consumer data]
      /\ consumer ∈ consumers_of itemName parameters (remoteSubscriptions r'.2))
  /\ (let r' := resume r.1 (Fulfilled data) r.2 in
      let w3 := RpcClientImpl.connect_failed e r'.2 in
      settled r'.1 = Some (Fulfilled tt)
      /\ trace r'.2 = trace r.2 ++ [Invoked consumer data]
      /\ consumer ∈ consumers_of itemName parameters (remoteSubscriptions r'.2)
      /\ trace w3 = trace r'.2
      /\ remoteSubscriptions w3 = remoteSubscriptions r'.2).
Proof.
  intros Hopt Hstate r.
  destruct (subscribe_sync itemName parameters consumer w)
    as (Hreg & Hq & _ & Hconn).
  change (subscribe itemName parameters consumer w) with r in Hreg, Hq, Hconn.
  rewrite Hopt in Hconn.
  assert (Hc : WebSocketConnection.state (connection r.2)
               = WebSocketConnection.Connecting).
  { rewrite Hconn. unfold WebSocketConnection.connect. by rewrite Hstate. }
  assert (Hb : WebSocketConnection.state
                 (connection (RpcClientImpl.connect_failed e r.2))
               = WebSocketConnection.Backoff).
  { unfold RpcClientImpl.connect_failed, RpcClientImpl.connect_catch,
      RpcClientImpl.set_connection.
    cbn [RpcClientImpl.connection]. unfold WebSocketConnection.on_error.
    by rewrite Hc. }
  split_and!; [done|done| |].
  - intros w2 r'. split; [exact Hb|]. clear Hb.
    subst r' r. rewrite subscribe_resume. cbn [fst snd settled].
    rewrite with_registry_trace, with_registry_registry.
    rewrite subscribe_consumers_of.
    split_and!; try done. set_solver.
  - intros r' w3. clear Hb. subst w3 r' r. rewrite subscribe_resume.
    cbn [fst snd settled].
    rewrite with_registry_trace, with_registry_registry.
    rewrite subscribe_consumers_of.
    split_and!; try done. set_solver.
Qed.

(** C5. When [getCached] has a value, [subscribe] calls the consumer with
    it at once, before it has even issued the HTTP subscribe and without
    registering the consumer; whatever frames are pushed and whatever the
    HTTP subscribe answers afterwards comes later in what the consumers
    observe. *)
Theorem subscribe_cached_value_first
    w itemName parameters consumer
    (frames : list (string * Parameters * Optional Value))
    (answer : Outcome (Optional Value)) :
  strict_neq_undefined
    (RemoteSubscriptions.getCached stringify itemName parameters
       (remoteSubscriptions w)) = true ->
  let cached :=
    RemoteSubscriptions.getCached stringify itemName parameters
      (remoteSubscriptions w) in
  let r := subscribe itemName parameters consumer w in
  trace r.2
  = trace w ++ [Invoked consumer cached;
                Requested (HttpClient.ReqSubscribe itemName parameters)]
  /\ remoteSubscriptions r.2 = remoteSubscriptions w
  /\ exists later,
       trace (resume r.1 answer (deliver frames r.2)).2
       = trace w ++ Invoked consumer cached
                 :: Requested (HttpClient.ReqSubscribe itemName parameters)
                 :: later.
Proof.
  intros Hcached cached r. fold cached in Hcached.
  destruct (subscribe_sync itemName parameters consumer w)
    as (Hreg & _ & Htr & _).
  change (subscribe itemName parameters consumer w) with r in Hreg, Htr.
  pose proof (subscribe_resume itemName parameters consumer w answer
                (deliver frames r.2)) as Hres.
  change (subscribe itemName parameters consumer w) with r in Hres.
  clearbody r.
  fold cached in Htr. rewrite Hcached in Htr. simpl in Htr.
  split_and!; [done|done|].
  destruct (deliver_trace frames r.2) as [pushed Hpushed].
  rewrite Hres.
  destruct answer as [data|e]; cbn [snd].
  - rewrite with_registry_trace, Hpushed, Htr.
    eexists. rewrite <- !app_assoc. simpl. reflexivity.
  - rewrite Hpushed, Htr. eexists. rewrite <- !app_assoc. simpl. reflexivity.
Qed.

(** C6, as the code has it. When the registry answers that no consumer is
    left, [unsubscribe] stores the reconciled registry and only then issues
    the HTTP unsubscribe; if that request fails, the error goes to the
    caller of [unsubscribe], with nothing recorded and the state, registry
    included, left as the failure found it. *)
Theorem unsubscribe_failure_reaches_caller
    w w' itemName parameters consumer e :
  (RemoteSubscriptions.unsubscribe stringify itemName parameters consumer
     (remoteSubscriptions w)).1 = true ->
  let r := unsubscribe itemName parameters consumer w in
  remoteSubscriptions r.2
  = (RemoteSubscriptions.unsubscribe stringify itemName parameters consumer
       (remoteSubscriptions w)).2
  /\ awaiting r.1 = Some (HttpClient.ReqUnsubscribe itemName parameters)
  /\ resume r.1 (Rejected e) w' = (Done (Rejected e), w')
  /\ settled (resume r.1 (Rejected e) r.2).1 = Some (Rejected e)
  /\ remoteSubscriptions (resume r.1 (Rejected e) r.2).2
     = remoteSubscriptions r.2.
Proof.
  intros Hleft r. subst r. unfold RpcClientImpl.unsubscribe.
  destruct (RemoteSubscriptions.unsubscribe _ _ _ _ _) as [left reg].
  simpl in Hleft. subst left. by split_and!.
Qed.

(** C7. [close] closes the socket and does not touch the registry: every
    record, with its consumers and last value, is as before, and so is what
    the consumers have observed. *)
Theorem close_leaves_registry w :
  WebSocketConnection.state (connection (RpcClientImpl.close w))
  = WebSocketConnection.Closed
  /\ WebSocketConnection.isConnected (connection (RpcClientImpl.close w))
     = false
  /\ remoteSubscriptions (RpcClientImpl.close w) = remoteSubscriptions w
  /\ (forall key,
        RemoteSubscriptions.records (remoteSubscriptions (RpcClientImpl.close w))
          !! key
        = RemoteSubscriptions.records (remoteSubscriptions w) !! key)
  /\ trace (RpcClientImpl.close w) = trace w.
Proof. by split_and!. Qed.

End ClientFacts.

(** * Concrete runs *)

Example indexOf_found : indexOf [5; 7; 9] 7 = 1%Z.
Proof. reflexivity. Qed.

Example indexOf_missing : indexOf [5; 7; 9] 4 = (-1)%Z.
Proof. reflexivity. Qed.

Example splice_last : splice [5; 7; 9] (-1) 1 = [5; 7].
Proof. reflexivity. Qed.

Example splice_middle : splice [5; 7; 9] 1 1 = [5; 9].
Proof. reflexivity. Qed.

Example todos_sessions :
  LocalTopicImpl.subscribedSessions Examples.todos !! "true" = Some [1; 2].
Proof. vm_compute. reflexivity. Qed.

Example todos_unsubscribe_stranger :
  LocalTopicImpl.subscribedSessions
    (Examples.unsubscribeSession 3 true Examples.todos) !! "true"
  = Some [1].
Proof. vm_compute. reflexivity. Qed.

Example todos_trigger_undefined :
  LocalTopicImpl.log (Examples.trigger true undefined Examples.todos).2
  = LocalTopicImpl.log Examples.todos
    ++ [LocalTopicImpl.SupplierCalled true 1;
        LocalTopicImpl.SupplierCalled true 2].
Proof. vm_compute. reflexivity. Qed.

Example subscribed_trace :
  RpcClientImpl.trace Examples.subscribed
  = [RpcClientImpl.Requested (HttpClient.ReqSubscribe "todo/getTodos" []);
     RpcClientImpl.Invoked 1 (defined "one")].
Proof. vm_compute. reflexivity. Qed.

Example subscribed_cached :
  RemoteSubscriptions.getCached Examples.stringify_flags "todo/getTodos" []
    (RpcClientImpl.remoteSubscriptions Examples.subscribed)
  = defined "one".
Proof. vm_compute. reflexivity. Qed.

(** C6 as the spec words it fails: consumer 1 is the only consumer of its
    key, so [unsubscribe] issues the HTTP unsubscribe; the request times
    out, and [unsubscribe] rejects with that error instead of fulfilling. *)
Lemma unsubscribe_failure_not_swallowed :
  let u := Examples.unsubscribe "todo/getTodos" [] 1 Examples.subscribed in
  awaiting u.1 = Some (HttpClient.ReqUnsubscribe "todo/getTodos" [])
  /\ settled (resume u.1 (Rejected Examples.timeout) u.2).1
     = Some (Rejected Examples.timeout)
  /\ settled (resume u.1 (Rejected Examples.timeout) u.2).1
     <> Some (Fulfilled tt)
  /\ RpcClientImpl.trace (resume u.1 (Rejected Examples.timeout) u.2).2
     = RpcClientImpl.trace u.2.
Proof. vm_compute. by split_and!. Qed.


(** On a topic created without a supplier, a trigger without data sends
    nothing to its subscriber: the callback ends with the [TypeError]. *)
Example trigger_on_topic_without_supplier :
  let w := (Examples.subscribeSession 1 true
              (LocalTopicImpl.create "/todo/plain" false)).2 in
  let r := Examples.trigger true undefined w in
  settled <$> r.1
  = [Some (Rejected LocalTopicImpl.supplier_is_not_a_function)]
  /\ LocalTopicImpl.log r.2 = [].
Proof. vm_compute. by split. Qed.

(** The hypothesis of C8 holds of the todos topic, and session 3, not yet
    subscribed to the filter [false], is listed once after subscribing
    twice. *)
Lemma subscribeSession_twice_idempotent_witness :
  LocalTopicImpl.reachable Examples.stringify_bool Examples.context_of
    Examples.message_id Examples.todos
  /\ (let w1 := (Examples.subscribeSession 3 false Examples.todos).2 in
      let w2 := (Examples.subscribeSession 3 false w1).2 in
      Examples.subscribeSession 3 false w1 = (Done (Fulfilled tt), w1)
      /\ LocalTopicImpl.sessions_of Examples.stringify_bool false w2
         = LocalTopicImpl.sessions_of Examples.stringify_bool false w1
      /\ 3 ∈ LocalTopicImpl.sessions_of Examples.stringify_bool false w2
      /\ NoDup (LocalTopicImpl.sessions_of Examples.stringify_bool false w2)
      /\ LocalTopicImpl.sessions_nodup w2).
Proof.
  assert (H : LocalTopicImpl.reachable Examples.stringify_bool
                Examples.context_of Examples.message_id Examples.todos).
  { unfold Examples.todos, Examples.subscribeSession.
    apply LocalTopicImpl.reach_subscribe, LocalTopicImpl.reach_subscribe,
      LocalTopicImpl.reach_create. }
  split; [exact H|].
  exact (subscribeSession_twice_idempotent Examples.stringify_bool
           Examples.context_of Examples.message_id Examples.todos 3 false H).
Defined.

(** The hypotheses of C9 hold of the todos topic and session 3, which never
    subscribed: unsubscribing it removes session 2. *)
Lemma unsubscribeSession_stranger_removes_latest_witness :
  LocalTopicImpl.subscribedSessions Examples.todos
    !! Examples.stringify_bool true = Some [1; 2]
  /\ (([1; 2] : list RpcSession) <> [])
  /\ (3 ∉ ([1; 2] : list RpcSession))
  /\ exists earlier latest,
       [1; 2] = earlier ++ [latest]
       /\ LocalTopicImpl.sessions_of Examples.stringify_bool true
            (Examples.unsubscribeSession 3 true Examples.todos) = earlier
       /\ LocalTopicImpl.subscribedSessions
            (Examples.unsubscribeSession 3 true Examples.todos)
          = (if bool_decide (earlier = [])
             then delete (Examples.stringify_bool true)
                    (LocalTopicImpl.subscribedSessions Examples.todos)
             else <[Examples.stringify_bool true := earlier]>
                    (LocalTopicImpl.subscribedSessions Examples.todos))
       /\ LocalTopicImpl.subscribedSessions
            (Examples.unsubscribeSession 3 true Examples.todos)
          <> LocalTopicImpl.subscribedSessions Examples.todos.
Proof.
  assert (H1 : LocalTopicImpl.subscribedSessions Examples.todos
                 !! Examples.stringify_bool true = Some [1; 2])
    by (vm_compute; reflexivity).
  assert (H2 : ([1; 2] : list RpcSession) <> []) by discriminate.
  assert (H3 : 3 ∉ ([1; 2] : list RpcSession))
    by (refine (bool_decide_unpack _ _); vm_compute; exact I).
  split; [exact H1|]. split; [exact H2|]. split; [exact H3|].
  exact (unsubscribeSession_stranger_removes_latest Examples.stringify_bool
           Examples.todos 3 true [1; 2] H1 H2 H3).
Defined.

(** The hypotheses of C4 hold of a new client with push delivery enabled. *)
Lemma subscribe_ignores_connect_failure_witness :
  RpcClientImpl.options_subscribe (RpcClientImpl.create true : Examples.client)
  = true
  /\ WebSocketConnection.state
       (RpcClientImpl.connection (RpcClientImpl.create true : Examples.client))
     = WebSocketConnection.Disconnected
  /\ (let r := Examples.subscribe "todo/getTodos" [] 1 (RpcClientImpl.create true) in
      let w2 := RpcClientImpl.connect_failed Examples.timeout r.2 in
      settled (resume r.1 (Fulfilled (defined "one")) w2).1 = Some (Fulfilled tt)
      /\ RpcClientImpl.trace (resume r.1 (Fulfilled (defined "one")) w2).2
         = RpcClientImpl.trace r.2 ++ [RpcClientImpl.Invoked 1 (defined "one")]).
Proof.
  split; [reflexivity|]. split; [reflexivity|].
  pose proof (subscribe_ignores_connect_failure Examples.stringify_flags
                (RpcClientImpl.create true) "todo/getTodos" [] 1
                Examples.timeout (defined "one") eq_refl eq_refl) as H.
  destruct H as (_ & _ & (_ & _ & _ & Hs & Ht & _) & _).
  exact (conj Hs Ht).
Defined.

(** The hypothesis of C5 holds of the client on which consumer 1 has
    subscribed: consumer 2, subscribing to the same key, is called with the
    cached value first. *)
Lemma subscribe_cached_value_first_witness :
  strict_neq_undefined
    (RemoteSubscriptions.getCached Examples.stringify_flags "todo/getTodos" []
       (RpcClientImpl.remoteSubscriptions Examples.subscribed)) = true
  /\ (let r := Examples.subscribe "todo/getTodos" [] 2 Examples.subscribed in
      RpcClientImpl.trace r.2
      = RpcClientImpl.trace Examples.subscribed
        ++ [RpcClientImpl.Invoked 2
              (RemoteSubscriptions.getCached Examples.stringify_flags
                 "todo/getTodos" []
                 (RpcClientImpl.remoteSubscriptions Examples.subscribed));
            RpcClientImpl.Requested
              (HttpClient.ReqSubscribe "todo/getTodos" [])]).
Proof.
  assert (H : strict_neq_undefined
                (RemoteSubscriptions.getCached Examples.stringify_flags
                   "todo/getTodos" []
                   (RpcClientImpl.remoteSubscriptions Examples.subscribed))
              = true) by (vm_compute; reflexivity).
  split; [exact H|].
  exact (proj1 (subscribe_cached_value_first Examples.stringify_flags
                  Examples.subscribed "todo/getTodos" [] 2
                  [("todo/getTodos", [], defined "two")]
                  (Fulfilled (defined "two")) H)).
Defined.

(** The hypothesis of the amended C6 holds of the client on which consumer
    1 is the only subscriber. *)
Lemma unsubscribe_failure_reaches_caller_witness :
  (RemoteSubscriptions.unsubscribe Examples.stringify_flags "todo/getTodos" []
     1 (RpcClientImpl.remoteSubscriptions Examples.subscribed)).1 = true
  /\ (let r := Examples.unsubscribe "todo/getTodos" [] 1 Examples.subscribed in
      resume r.1 (Rejected Examples.timeout) r.2
      = (Done (Rejected Examples.timeout), r.2)).
Proof.
  assert (H : (RemoteSubscriptions.unsubscribe Examples.stringify_flags
                 "todo/getTodos" [] 1
                 (RpcClientImpl.remoteSubscriptions Examples.subscribed)).1
              = true) by (vm_compute; reflexivity).
  split; [exact H|].
  pose proof (unsubscribe_failure_reaches_caller Examples.stringify_flags
                Examples.subscribed
                (Examples.unsubscribe "todo/getTodos" [] 1 Examples.subscribed).2
                "todo/getTodos" [] 1 Examples.timeout H) as Hc.
  exact (proj1 (proj2 (proj2 Hc))).
Defined.

(** [resubscribe] on the client with one subscription issues one request;
    if it fails, consumer 1 is detached and the key is gone. *)
Example resubscribe_failure_detaches :
  let r := Examples.resubscribe Examples.subscribed in
  awaiting <$> r.1 = [Some (HttpClient.ReqSubscribe "todo/getTodos" [])]
  /\ (fun task =>
        RemoteSubscriptions.records
          (RpcClientImpl.remoteSubscriptions
             (resume task (Rejected Examples.timeout) r.2).2)) <$> r.1
     = [∅].
Proof. vm_compute. by split. Qed.

(** If it succeeds, the new value reaches consumer 1 and becomes the cached
    value. *)
Example resubscribe_success_consumes :
  let r := Examples.resubscribe Examples.subscribed in
  (fun task =>
     let w := (resume task (Fulfilled (defined "two")) r.2).2 in
     (drop (length (RpcClientImpl.trace r.2)) (RpcClientImpl.trace w),
      RemoteSubscriptions.getCached Examples.stringify_flags "todo/getTodos"
        [] (RpcClientImpl.remoteSubscriptions w))) <$> r.1
  = [([RpcClientImpl.Invoked 1 (defined "two")], defined "two")].
Proof. vm_compute. reflexivity. Qed.


(** A trigger with data sends it to both sessions, each frame with a
    message id of its own (the first two ids: no supplier has answered the
    two subscribes yet, so no frame was sent before). *)
Example todos_trigger_data :
  LocalTopicImpl.sent_frames
    (LocalTopicImpl.log (Examples.trigger true (defined "all") Examples.todos).2)
  = [(1, LocalTopicImpl.mkFrame Data "m0" "/todo/todos" true "all");
     (2, LocalTopicImpl.mkFrame Data "m1" "/todo/todos" true "all")].
Proof. vm_compute. reflexivity. Qed.

(** A failed first subscribe leaves a new client without any record. *)
Example subscribe_failure_on_new_client :
  let s := Examples.subscribe "todo/getTodos" [] 1 (RpcClientImpl.create true) in
  let r := resume s.1 (Rejected Examples.timeout) s.2 in
  settled r.1 = Some (Rejected Examples.timeout)
  /\ RemoteSubscriptions.records (RpcClientImpl.remoteSubscriptions r.2) = ∅.
Proof. vm_compute. by split. Qed.

(** * Further properties *)

(** ** Arrays *)

Section JsArrayMoreFacts.
Context {A : Type} `{EqDecision A}.
Implicit Types (l : list A) (x : A) (k : Z).

Lemma indexOf_from_first k l1 l2 x :
  x ∉ l1 ->
  indexOf_from k (l1 ++ x :: l2) x = (k + Z.of_nat (length l1))%Z.
Proof.
  revert k. induction l1 as [|y l1 IH]; intros k Hx; simpl.
  - rewrite decide_True by done. lia.
  - apply not_elem_of_cons in Hx as [Hne Hx].
    rewrite decide_False by done. rewrite IH by done. lia.
Qed.

(** [indexOf] finds the first occurrence. *)
Lemma indexOf_first l1 l2 x :
  x ∉ l1 -> indexOf (l1 ++ x :: l2) x = Z.of_nat (length l1).
Proof. intros Hx. unfold indexOf. by rewrite indexOf_from_first. Qed.

(** [splice(indexOf(x), 1)] on an array holding [x] takes its first
    occurrence out and keeps the rest in order. *)
Lemma splice_indexOf_first l1 l2 x :
  x ∉ l1 ->
  splice (l1 ++ x :: l2) (indexOf (l1 ++ x :: l2) x) 1 = l1 ++ l2.
Proof.
  intros Hx. rewrite indexOf_first by done.
  rewrite splice_one_delete by (rewrite length_app; simpl; lia).
  apply delete_middle.
Qed.

End JsArrayMoreFacts.

(** ** Topics *)

Section TopicMoreFacts.
Context {D P Ctx : Type}.
Variable JSON_stringify : P -> string.
Variable createContext : RpcSession -> Ctx.
Variable createMessageId : nat -> string.

Local Abbreviation topic := (@LocalTopicImpl.t D P Ctx).
Local Abbreviation subscribeSession :=
  (LocalTopicImpl.subscribeSession JSON_stringify createContext createMessageId).
Local Abbreviation unsubscribeSession :=
  (LocalTopicImpl.unsubscribeSession JSON_stringify).
Local Abbreviation trigger :=
  (LocalTopicImpl.trigger JSON_stringify createContext createMessageId).
Local Abbreviation send_data := (LocalTopicImpl.send_data createMessageId).
Local Abbreviation trigger_session :=
  (LocalTopicImpl.trigger_session createContext createMessageId).
Local Abbreviation sessions_of := (LocalTopicImpl.sessions_of JSON_stringify).
Local Abbreviation reachable :=
  (LocalTopicImpl.reachable JSON_stringify createContext createMessageId).
Local Abbreviation subscribedSessions := LocalTopicImpl.subscribedSessions.
Local Abbreviation log := LocalTopicImpl.log.

Implicit Types (w : topic) (session : RpcSession) (params : P).

(** What [unsubscribeSession] does to the list of a key that lists the
    session. *)
Lemma unsubscribeSession_listed session params w (l1 l2 : list RpcSession) :
  subscribedSessions w !! JSON_stringify params = Some (l1 ++ session :: l2) ->
  session ∉ l1 ->
  subscribedSessions (unsubscribeSession session params w)
  = (if bool_decide (l1 ++ l2 = [])
     then delete (JSON_stringify params) (subscribedSessions w)
     else <[JSON_stringify params := l1 ++ l2]> (subscribedSessions w)).
Proof.
  intros Hl Hin. unfold LocalTopicImpl.unsubscribeSession. rewrite Hl.
  rewrite splice_indexOf_first by done.
  by destruct (l1 ++ l2).
Qed.

(** [trigger] leaves the subscriptions alone. *)
Lemma trigger_sessions params (suppliedData : Optional D) w :
  subscribedSessions (trigger params suppliedData w).2 = subscribedSessions w.
Proof. apply forEach_trigger_sessions. Qed.

(** No key of a reachable topic holds an empty list. *)
Lemma reachable_nonempty w key (l : list RpcSession) :
  reachable w -> subscribedSessions w !! key = Some l -> l <> [].
Proof.
  intros Hw. revert key l.
  induction Hw as [n s|w session params _ IH|w session params _ IH
                  |w params suppliedData _ IH|w session params data _ IH];
    intros key l.
  - simpl. by rewrite lookup_empty.
  - destruct (decide (session ∈ sessions_of params w)) as [Hin|Hin].
    + rewrite subscribeSession_subscribed by done. apply IH.
    + rewrite subscribeSession_fresh by done.
      destruct (decide (JSON_stringify params = key)) as [<-|Hne].
      * rewrite lookup_insert_eq. intros [= <-]. by destruct (sessions_of _ _).
      * rewrite lookup_insert_ne by done. apply IH.
  - unfold LocalTopicImpl.unsubscribeSession.
    destruct (subscribedSessions w !! JSON_stringify params) as [ss|] eqn:E;
      [|apply IH].
    case_bool_decide as Hlen; simpl.
    + intros Hl. apply lookup_delete_Some in Hl as [_ Hl]. by eapply IH.
    + destruct (decide (JSON_stringify params = key)) as [<-|Hne].
      * rewrite lookup_insert_eq. intros [= <-] Hnil. apply Hlen.
        by rewrite Hnil.
      * rewrite lookup_insert_ne by done. apply IH.
  - rewrite trigger_sessions. apply IH.
  - apply IH.
Qed.

(** X1. Unsubscribing a session that is listed under the key takes its
    first entry out of the list and keeps the other sessions in their order;
    the key is deleted exactly when no session is left. *)
Theorem unsubscribeSession_removes_session
    session params w (before after : list RpcSession) :
  subscribedSessions w !! JSON_stringify params
  = Some (before ++ session :: after) ->
  session ∉ before ->
  sessions_of params (unsubscribeSession session params w) = before ++ after
  /\ (subscribedSessions (unsubscribeSession session params w)
        !! JSON_stringify params = None
      <-> before ++ after = []).
Proof.
  intros Hl Hin. unfold LocalTopicImpl.sessions_of.
  rewrite (unsubscribeSession_listed _ _ _ _ _ Hl Hin).
  case_bool_decide as He.
  - rewrite lookup_delete_eq. by rewrite He.
  - rewrite lookup_insert_eq. split; [done|]. split; [done|]. congruence.
Qed.

(** X2. In every state a topic can reach, the list stored under a key is
    never empty and never holds a session twice. *)
Theorem reachable_lists_nonempty_nodup w key (l : list RpcSession) :
  reachable w ->
  subscribedSessions w !! key = Some l ->
  l <> [] /\ NoDup l.
Proof.
  intros Hw Hl. split.
  - by eapply reachable_nonempty.
  - by eapply reachable_nodup.
Qed.

(** X3. Subscribing a session that was not subscribed and unsubscribing it
    again gives back the subscriptions of before, for every key. *)
Theorem subscribe_unsubscribe_round_trip w session params :
  reachable w ->
  session ∉ sessions_of params w ->
  subscribedSessions
    (unsubscribeSession session params (subscribeSession session params w).2)
  = subscribedSessions w.
Proof.
  intros Hw Hin.
  pose proof (subscribeSession_fresh JSON_stringify createContext
                createMessageId session params w Hin) as Hsub.
  assert (Hl : subscribedSessions (subscribeSession session params w).2
               !! JSON_stringify params
               = Some (sessions_of params w ++ session :: [])).
  { by rewrite Hsub, lookup_insert_eq. }
  rewrite (unsubscribeSession_listed _ _ _ _ _ Hl Hin), Hsub, app_nil_r.
  unfold LocalTopicImpl.sessions_of in *.
  destruct (subscribedSessions w !! JSON_stringify params) as [l|] eqn:E;
    simpl.
  - assert (l <> []) by by eapply reachable_nonempty.
    destruct l as [|x l]; [done|]. simpl.
    rewrite insert_insert_eq. by apply insert_id.
  - simpl. rewrite delete_insert_eq. by apply delete_id.
Qed.

(** The callbacks [trigger] leaves behind. *)
Lemma forEach_tasks {W Q R A X} (f : X -> W -> Task W Q R A * W)
    (good : Task W Q R A -> Prop) (l : list X) (st : W) :
  (forall x (st0 : W), good (f x st0).1) -> Forall good (forEach f l st).1.
Proof.
  intros Hf. revert st. induction l as [|x l IH]; intros st; simpl;
    [constructor|].
  pose proof (Hf x st) as Hx. destruct (f x st) as [task st1].
  pose proof (IH st1) as Hl. destruct (forEach f l st1) as [tasks st2].
  by constructor.
Qed.

(** X4. [subscribeSession] and [unsubscribeSession] for one key leave the
    lists of all other keys as they are, and [trigger] changes no list at
    all, neither when it is called nor when one of its callbacks goes on
    after its supplier has answered or failed. *)
Theorem topic_methods_keep_other_keys
    w session params (suppliedData : Optional D) key :
  (key <> JSON_stringify params ->
   subscribedSessions (subscribeSession session params w).2 !! key
   = subscribedSessions w !! key
   /\ subscribedSessions (unsubscribeSession session params w) !! key
      = subscribedSessions w !! key)
  /\ subscribedSessions (trigger params suppliedData w).2
     = subscribedSessions w
  /\ Forall (fun task =>
               forall (answer : Outcome D) w',
                 subscribedSessions (resume task answer w').2
                 = subscribedSessions w')
       (trigger params suppliedData w).1.
Proof.
  split_and!.
  - intros Hne. split.
    + destruct (decide (session ∈ sessions_of params w)) as [Hin|Hin].
      * by rewrite subscribeSession_subscribed.
      * rewrite subscribeSession_fresh by done. by rewrite lookup_insert_ne.
    + unfold LocalTopicImpl.unsubscribeSession.
      destruct (subscribedSessions w !! JSON_stringify params); [|done].
      case_bool_decide; simpl.
      * by rewrite lookup_delete_ne.
      * by rewrite lookup_insert_ne.
  - apply trigger_sessions.
  - unfold LocalTopicImpl.trigger. apply forEach_tasks.
    intros s w0 answer w'. unfold LocalTopicImpl.trigger_session.
    destruct suppliedData, (LocalTopicImpl.has_supplier w0); try done;
      by destruct answer.
Qed.

(** X5. A session new to a key of a topic with a supplier is listed under
    the key before the supplier answers. If the supplier fails, the error
    ends [subscribeSession], no frame is sent, and the session stays
    listed; if it answers, its data goes to that session in one Data
    frame. *)
Theorem subscribeSession_registers_before_supply
    w session params (e : JsError) (data : D) :
  session ∉ sessions_of params w ->
  LocalTopicImpl.has_supplier w = true ->
  let r := subscribeSession session params w in
  awaiting r.1 = Some (LocalTopicImpl.Supply params (createContext session))
  /\ sessions_of params r.2 = sessions_of params w ++ [session]
  /\ log r.2
     = log w ++ [LocalTopicImpl.SupplierCalled params (createContext session)]
  /\ resume r.1 (Rejected e) r.2 = (Done (Rejected e), r.2)
  /\ settled (resume r.1 (Fulfilled data) r.2).1 = Some (Fulfilled tt)
  /\ log (resume r.1 (Fulfilled data) r.2).2
     = log r.2
       ++ [LocalTopicImpl.Sent session
             (LocalTopicImpl.mkFrame Data
                (createMessageId (LocalTopicImpl.messageIds w))
                (LocalTopicImpl.name w) params data)].
Proof.
  intros Hin Hsup r.
  assert (Hs : sessions_of params r.2 = sessions_of params w ++ [session])
    by by apply subscribeSession_appends.
  subst r. revert Hs. unfold LocalTopicImpl.subscribeSession.
  unfold LocalTopicImpl.sessions_of in Hin.
  rewrite bool_decide_eq_false_2
    by (rewrite (indexOf_absent _ _ Hin); lia).
  cbn [LocalTopicImpl.has_supplier LocalTopicImpl.set_subscribedSessions].
  rewrite Hsup. intros Hs. by split_and!.
Qed.

(** X6. On a topic without a supplier, or for a session that is already
    listed under the key, [subscribeSession] completes at once: the
    supplier is not called and no frame is sent. *)
Theorem subscribeSession_silent w session params :
  LocalTopicImpl.has_supplier w = false
  \/ session ∈ sessions_of params w ->
  let r := subscribeSession session params w in
  settled r.1 = Some (Fulfilled tt) /\ log r.2 = log w.
Proof.
  intros Hcase r. subst r.
  destruct (decide (session ∈ sessions_of params w)) as [Hin|Hin].
  - by rewrite subscribeSession_subscribed.
  - destruct Hcase as [Hsup|?]; [|done].
    unfold LocalTopicImpl.subscribeSession.
    unfold LocalTopicImpl.sessions_of in Hin.
    rewrite bool_decide_eq_false_2
      by (rewrite (indexOf_absent _ _ Hin); lia).
    cbn [LocalTopicImpl.has_supplier LocalTopicImpl.set_subscribedSessions].
    by rewrite Hsup.
Qed.

End TopicMoreFacts.

(** ** Sessions *)

Section ServerFacts.
Context {D P Ctx : Type}.
Variable JSON_stringify : P -> string.
Variable createContext : RpcSession -> Ctx.
Variable createMessageId : nat -> string.

Local Abbreviation server := (RpcServer.t D P Ctx).
Local Abbreviation subscribe :=
  (RpcServer.subscribe JSON_stringify createContext createMessageId).
Local Abbreviation unsubscribe := (RpcServer.unsubscribe JSON_stringify).
Local Abbreviation unsubscribeAll := (RpcServer.unsubscribeAll JSON_stringify).
Local Abbreviation remove := (RpcServer.remove JSON_stringify).
Local Abbreviation topic_subscribe :=
  (RpcServer.topic_subscribe JSON_stringify createContext createMessageId).
Local Abbreviation topic_unsubscribe :=
  (RpcServer.topic_unsubscribe JSON_stringify).
Local Abbreviation sessions_of := (RpcServer.sessions_of JSON_stringify).
Local Abbreviation other_subscription :=
  (RpcServer.other_subscription JSON_stringify).
Local Abbreviation subscriptions_of :=
  (fun (w : server) session =>
     RpcServer.subscriptions (RpcServer.session_objs w session)).
Local Abbreviation answered := (@RpcServer.answered D P Ctx).

Implicit Types (w : server) (session : RpcSession)
  (topic : RpcServer.TopicRef) (params : P).

#[local] Arguments RpcServer.update : simpl never.

Lemma update_eq {O} (objs : nat -> O) ref o :
  RpcServer.update objs ref o ref = o.
Proof. unfold RpcServer.update. by rewrite decide_True. Qed.

Lemma update_ne {O} (objs : nat -> O) ref ref' o :
  ref' <> ref -> RpcServer.update objs ref o ref' = objs ref'.
Proof. intros. unfold RpcServer.update. by rewrite decide_False. Qed.

(** The list a topic keeps under a key, seen from the topic object. *)
Lemma sessions_of_focus topic params w :
  LocalTopicImpl.sessions_of JSON_stringify params (RpcServer.focus topic w)
  = sessions_of topic params w.
Proof. done. Qed.

Lemma sessions_of_unfocus topic topic' params s w :
  sessions_of topic' params (RpcServer.unfocus topic s w)
  = if decide (topic' = topic :> nat)
    then LocalTopicImpl.sessions_of JSON_stringify params s
    else sessions_of topic' params w.
Proof.
  unfold RpcServer.sessions_of, RpcServer.unfocus. simpl.
  unfold RpcServer.update. by destruct (decide (topic' = topic :> nat)).
Qed.

Lemma unsubscribeSession_other_key (t0 : @LocalTopicImpl.t D P Ctx)
    session params key :
  key <> JSON_stringify params ->
  LocalTopicImpl.subscribedSessions
    (LocalTopicImpl.unsubscribeSession JSON_stringify session params t0) !! key
  = LocalTopicImpl.subscribedSessions t0 !! key.
Proof.
  intros Hne. unfold LocalTopicImpl.unsubscribeSession.
  destruct (LocalTopicImpl.subscribedSessions t0 !! JSON_stringify params);
    [|done].
  case_bool_decide; simpl.
  - by rewrite lookup_delete_ne.
  - by rewrite lookup_insert_ne.
Qed.

(** [topic.unsubscribe] for one topic and key leaves every other list as
    it is. *)
Lemma topic_unsubscribe_other topic params session topic' params' w :
  topic' <> topic \/ JSON_stringify params' <> JSON_stringify params ->
  sessions_of topic' params' (topic_unsubscribe topic params session w)
  = sessions_of topic' params' w.
Proof.
  intros Hne. unfold RpcServer.topic_unsubscribe.
  rewrite sessions_of_unfocus.
  destruct (decide (topic' = topic :> nat)) as [->|]; [|done].
  destruct Hne as [|Hne]; [done|].
  unfold LocalTopicImpl.sessions_of.
  by rewrite unsubscribeSession_other_key.
Qed.

(** [topic.unsubscribe] for a listed session takes its first entry out. *)
Lemma topic_unsubscribe_listed topic params session w
    (l1 l2 : list RpcSession) :
  sessions_of topic params w = l1 ++ session :: l2 ->
  session ∉ l1 ->
  sessions_of topic params (topic_unsubscribe topic params session w)
  = l1 ++ l2.
Proof.
  intros Hl Hin. unfold RpcServer.topic_unsubscribe.
  rewrite sessions_of_unfocus, decide_True by done.
  unfold RpcServer.sessions_of in Hl.
  assert (Hlook : LocalTopicImpl.subscribedSessions (RpcServer.focus topic w)
                    !! JSON_stringify params = Some (l1 ++ session :: l2)).
  { simpl.
    destruct (RpcServer.topic_subscribedSessions (RpcServer.topics w topic)
                !! JSON_stringify params) as [l|]; simpl in Hl.
    - by rewrite Hl.
    - by destruct l1. }
  unfold LocalTopicImpl.sessions_of.
  rewrite (unsubscribeSession_listed _ _ _ _ _ _ Hlook Hin).
  case_bool_decide as He.
  - by rewrite lookup_delete_eq, He.
  - by rewrite lookup_insert_eq.
Qed.

(** [topic.unsubscribe] for a session that is not listed takes the last
    entry out. *)
Lemma topic_unsubscribe_absent topic params session w
    (l : list RpcSession) x :
  sessions_of topic params w = l ++ [x] ->
  session ∉ l ++ [x] ->
  sessions_of topic params (topic_unsubscribe topic params session w) = l.
Proof.
  intros Hl Hin. unfold RpcServer.topic_unsubscribe.
  rewrite sessions_of_unfocus, decide_True by done.
  unfold RpcServer.sessions_of in Hl.
  assert (Hlook : LocalTopicImpl.subscribedSessions (RpcServer.focus topic w)
                    !! JSON_stringify params = Some (l ++ [x])).
  { simpl.
    destruct (RpcServer.topic_subscribedSessions (RpcServer.topics w topic)
                !! JSON_stringify params) as [l'|]; simpl in Hl.
    - by rewrite Hl.
    - by destruct l. }
  unfold LocalTopicImpl.sessions_of, LocalTopicImpl.unsubscribeSession.
  rewrite Hlook, (indexOf_absent _ _ Hin), splice_minus_one.
  destruct l; simpl.
  - by rewrite lookup_delete_eq.
  - by rewrite lookup_insert_eq.
Qed.

Lemma topic_unsubscribe_session_objs topic params session w :
  RpcServer.session_objs (topic_unsubscribe topic params session w)
  = RpcServer.session_objs w.
Proof. done. Qed.

Lemma foldl_topic_unsubscribe_session_objs session
    (subs : list (RpcServer.TopicRef * P)) w :
  RpcServer.session_objs
    (foldl (fun w s => topic_unsubscribe s.1 s.2 session w) w subs)
  = RpcServer.session_objs w.
Proof.
  revert w. induction subs as [|s subs IH]; intros w; simpl; [done|].
  by rewrite IH.
Qed.

(** Unsubscribing from entries that are all for other topics or keys
    leaves the list of this topic and key as it is. *)
Lemma foldl_topic_unsubscribe_other session topic params
    (subs : list (RpcServer.TopicRef * P)) w :
  Forall (fun s => other_subscription topic (JSON_stringify params) s = true)
    subs ->
  sessions_of topic params
    (foldl (fun w s => topic_unsubscribe s.1 s.2 session w) w subs)
  = sessions_of topic params w.
Proof.
  revert w. induction subs as [|s subs IH]; intros w Hsubs; simpl; [done|].
  apply Forall_cons in Hsubs as [Hs Hsubs]. rewrite IH by done.
  apply topic_unsubscribe_other.
  unfold RpcServer.other_subscription in Hs.
  apply orb_true_iff in Hs as [Hs|Hs]; apply negb_true_iff in Hs;
    apply bool_decide_eq_false in Hs; [left|right]; congruence.
Qed.

(** What [subscribe] of a session has done once it has returned and a
    supplier it waited for has answered with data. *)
Lemma subscribe_answered session topic params (data : D) w :
  let fin := answered (Fulfilled data) (subscribe session topic params w) in
  settled fin.1 = Some (Fulfilled tt)
  /\ subscriptions_of fin.2 session
     = subscriptions_of w session ++ [(topic, params)]
  /\ (forall session', session' <> session ->
        RpcServer.session_objs fin.2 session'
        = RpcServer.session_objs w session')
  /\ RpcServer.sessions fin.2 = RpcServer.sessions w
  /\ (forall topic' params',
        sessions_of topic' params' fin.2
        = if decide (topic' = topic :> nat)
          then LocalTopicImpl.sessions_of JSON_stringify params'
                 (LocalTopicImpl.subscribeSession JSON_stringify createContext
                    createMessageId session params
                    (RpcServer.focus topic w)).2
          else sessions_of topic' params' w).
Proof.
  unfold RpcServer.answered, RpcServer.subscribe, RpcServer.topic_subscribe.
  unfold LocalTopicImpl.subscribeSession.
  case_bool_decide as Hidx; simpl.
  - split_and!; try done.
    + by rewrite update_eq.
    + intros. by rewrite update_ne.
    + intros. unfold RpcServer.sessions_of. simpl.
      destruct (decide (topic' = topic :> nat)) as [->|Hne];
        [by rewrite !update_eq|by rewrite !update_ne].
  - destruct (RpcServer.topic_has_supplier (RpcServer.topics w topic)); simpl.
    + split_and!; try done.
      * by rewrite update_eq.
      * intros. by rewrite update_ne.
      * intros. unfold RpcServer.sessions_of. simpl.
        destruct (decide (topic' = topic :> nat)) as [->|Hne];
          [by rewrite !update_eq|by rewrite !update_ne].
    + split_and!; try done.
      * by rewrite update_eq.
      * intros. by rewrite update_ne.
      * intros. unfold RpcServer.sessions_of. simpl.
        destruct (decide (topic' = topic :> nat)) as [->|Hne];
          [by rewrite !update_eq|by rewrite !update_ne].
Qed.

Lemma subscribeSession_sessions_of
    (t0 : @LocalTopicImpl.t D P Ctx) session params :
  LocalTopicImpl.sessions_of JSON_stringify params
    (LocalTopicImpl.subscribeSession JSON_stringify createContext
       createMessageId session params t0).2
  = if bool_decide
         (session ∈ LocalTopicImpl.sessions_of JSON_stringify params t0)
    then LocalTopicImpl.sessions_of JSON_stringify params t0
    else LocalTopicImpl.sessions_of JSON_stringify params t0 ++ [session].
Proof.
  case_bool_decide as Hin.
  - by rewrite subscribeSession_subscribed.
  - by apply subscribeSession_appends.
Qed.

(** The list of the topic and key once a [subscribe] has completed. *)
Lemma subscribe_answered_sessions_of session topic params (data : D) w :
  sessions_of topic params
    (answered (Fulfilled data) (subscribe session topic params w)).2
  = if bool_decide (session ∈ sessions_of topic params w)
    then sessions_of topic params w
    else sessions_of topic params w ++ [session].
Proof.
  destruct (subscribe_answered session topic params data w)
    as (_ & _ & _ & _ & Hl).
  rewrite Hl, decide_True by done.
  by rewrite subscribeSession_sessions_of.
Qed.

Lemma filter_other_all topic key (subs : list (RpcServer.TopicRef * P)) :
  Forall (fun s => other_subscription topic key s = true) subs ->
  List.filter (other_subscription topic key) subs = subs.
Proof.
  induction 1 as [|s subs Hs _ IH]; simpl; [done|]. by rewrite Hs, IH.
Qed.

Lemma other_subscription_same topic params :
  other_subscription topic (JSON_stringify params) (topic, params) = false.
Proof.
  unfold RpcServer.other_subscription. simpl.
  by rewrite !bool_decide_eq_true_2.
Qed.

(** X7. When a session's [subscribe] has completed, the session is listed
    by the topic under the key, once, whether or not it was listed before,
    and one more entry for the topic and parameters stands in the session's
    own [subscriptions]: a repeated subscribe is recorded again on the
    session's side only. *)
Theorem session_subscribe_records_each_call
    session topic params (data : D) w :
  let fin := answered (Fulfilled data) (subscribe session topic params w) in
  settled fin.1 = Some (Fulfilled tt)
  /\ subscriptions_of fin.2 session
     = subscriptions_of w session ++ [(topic, params)]
  /\ sessions_of topic params fin.2
     = (if bool_decide (session ∈ sessions_of topic params w)
        then sessions_of topic params w
        else sessions_of topic params w ++ [session])
  /\ session ∈ sessions_of topic params fin.2.
Proof.
  intros fin.
  destruct (subscribe_answered session topic params data w)
    as (Hs & Hsubs & _).
  pose proof (subscribe_answered_sessions_of session topic params data w)
    as Hl.
  fold fin in Hs, Hsubs, Hl. clearbody fin. split_and!; try done.
  rewrite Hl. case_bool_decide; [done|].
  apply elem_of_app; right. by apply list_elem_of_singleton.
Qed.

(** X8. If the supplier fails while a session subscribes to a key it was
    not listed under, [subscribe] of the session ends with that error
    before it records the subscription: the topic lists the session, the
    session's [subscriptions] does not, and [unsubscribeAll] of the session
    therefore leaves the session in the topic's list. *)
Theorem session_subscribe_failure_leaves_topic_entry
    session topic params (e : JsError) w :
  session ∉ sessions_of topic params w ->
  RpcServer.topic_has_supplier (RpcServer.topics w topic) = true ->
  Forall (fun s => other_subscription topic (JSON_stringify params) s = true)
    (subscriptions_of w session) ->
  let fin := answered (Rejected e) (subscribe session topic params w) in
  settled fin.1 = Some (Rejected e)
  /\ subscriptions_of fin.2 session = subscriptions_of w session
  /\ sessions_of topic params fin.2 = sessions_of topic params w ++ [session]
  /\ sessions_of topic params (unsubscribeAll session fin.2).2
     = sessions_of topic params w ++ [session].
Proof.
  intros Hin Hsup Hother fin.
  assert (Hfin : settled fin.1 = Some (Rejected e)
                 /\ subscriptions_of fin.2 session = subscriptions_of w session
                 /\ sessions_of topic params fin.2
                    = sessions_of topic params w ++ [session]).
  { subst fin.
    unfold RpcServer.answered, RpcServer.subscribe, RpcServer.topic_subscribe.
    unfold LocalTopicImpl.subscribeSession.
    rewrite bool_decide_eq_false_2
      by (rewrite (indexOf_absent _ _ Hin); lia).
    cbn [LocalTopicImpl.has_supplier LocalTopicImpl.set_subscribedSessions
         RpcServer.focus].
    rewrite Hsup. simpl. split_and!; try done.
    unfold RpcServer.sessions_of. simpl.
    repeat (rewrite update_eq; simpl). by rewrite lookup_insert_eq. }
  destruct Hfin as (Hs & Hsubs & Hl). split_and!; try done.
  unfold RpcServer.unsubscribeAll. cbn [snd].
  change (sessions_of topic params
            (foldl (fun w s => topic_unsubscribe s.1 s.2 session w) fin.2
               (subscriptions_of fin.2 session))
          = sessions_of topic params w ++ [session]).
  rewrite foldl_topic_unsubscribe_other by by rewrite Hsubs.
  done.
Qed.

(** X9. Two completed subscribes of a session to a topic and key, followed
    by one [unsubscribe], leave both sides as they were: the session's
    [subscriptions] loses both entries and the topic's list loses the
    session. *)
Theorem session_unsubscribe_undoes_repeated_subscribe
    session topic params (d1 d2 : D) w :
  session ∉ sessions_of topic params w ->
  Forall (fun s => other_subscription topic (JSON_stringify params) s = true)
    (subscriptions_of w session) ->
  let w1 := (answered (Fulfilled d1) (subscribe session topic params w)).2 in
  let w2 := (answered (Fulfilled d2) (subscribe session topic params w1)).2 in
  let w3 := (unsubscribe session topic params w2).2 in
  subscriptions_of w2 session
  = subscriptions_of w session ++ [(topic, params); (topic, params)]
  /\ sessions_of topic params w2 = sessions_of topic params w ++ [session]
  /\ subscriptions_of w3 session = subscriptions_of w session
  /\ sessions_of topic params w3 = sessions_of topic params w.
Proof.
  intros Hin Hother w1 w2 w3.
  destruct (subscribe_answered session topic params d1 w)
    as (_ & Hsubs1 & _).
  pose proof (subscribe_answered_sessions_of session topic params d1 w) as Hl1.
  fold w1 in Hsubs1, Hl1. rewrite bool_decide_eq_false_2 in Hl1 by done.
  clearbody w1.
  destruct (subscribe_answered session topic params d2 w1)
    as (_ & Hsubs2 & _).
  pose proof (subscribe_answered_sessions_of session topic params d2 w1)
    as Hl2.
  fold w2 in Hsubs2, Hl2. clearbody w2.
  rewrite bool_decide_eq_true_2 in Hl2
    by (rewrite Hl1; apply elem_of_app; right; apply list_elem_of_singleton;
        done).
  rewrite Hl1 in Hl2. rewrite Hsubs1, <- app_assoc in Hsubs2.
  split_and!; [done|done| |].
  - subst w3. unfold RpcServer.unsubscribe. cbn [snd].
    cbn [RpcServer.set_session RpcServer.session_objs].
    rewrite update_eq. cbn [RpcServer.subscriptions].
    rewrite topic_unsubscribe_session_objs, Hsubs2.
    rewrite List.filter_app, filter_other_all by done. simpl.
    by rewrite !other_subscription_same, app_nil_r.
  - subst w3. unfold RpcServer.unsubscribe. cbn [snd].
    change (sessions_of topic params
              (topic_unsubscribe topic params session w2)
            = sessions_of topic params w).
    rewrite (topic_unsubscribe_listed topic params session w2
               (sessions_of topic params w) []) by done.
    by rewrite app_nil_r.
Qed.

(** X10. Two completed subscribes of a session to a topic and key, followed
    by [unsubscribeAll] (the session's socket closing), take the most
    recently subscribed other session out of the topic's list as well: the
    second of the two entries makes [topic.unsubscribe] run for a session
    that is no longer listed. *)
Theorem unsubscribeAll_after_repeated_subscribe_drops_other_session
    session topic params (d1 d2 : D) w
    (earlier : list RpcSession) (latest : RpcSession) :
  sessions_of topic params w = earlier ++ [latest] ->
  session ∉ earlier ++ [latest] ->
  Forall (fun s => other_subscription topic (JSON_stringify params) s = true)
    (subscriptions_of w session) ->
  let w1 := (answered (Fulfilled d1) (subscribe session topic params w)).2 in
  let w2 := (answered (Fulfilled d2) (subscribe session topic params w1)).2 in
  let w3 := (unsubscribeAll session w2).2 in
  sessions_of topic params w2 = earlier ++ [latest; session]
  /\ sessions_of topic params w3 = earlier
  /\ subscriptions_of w3 session = [].
Proof.
  intros Hl Hin Hother w1 w2 w3.
  destruct (subscribe_answered session topic params d1 w)
    as (_ & Hsubs1 & _).
  pose proof (subscribe_answered_sessions_of session topic params d1 w) as Hl1.
  fold w1 in Hsubs1, Hl1.
  rewrite bool_decide_eq_false_2 in Hl1 by by rewrite Hl.
  clearbody w1.
  destruct (subscribe_answered session topic params d2 w1)
    as (_ & Hsubs2 & _).
  pose proof (subscribe_answered_sessions_of session topic params d2 w1)
    as Hl2.
  fold w2 in Hsubs2, Hl2. clearbody w2.
  rewrite bool_decide_eq_true_2 in Hl2
    by (rewrite Hl1; apply elem_of_app; right; apply list_elem_of_singleton;
        done).
  rewrite Hl1, Hl in Hl2. rewrite Hsubs1, <- app_assoc in Hsubs2.
  split_and!.
  - by rewrite Hl2, <- app_assoc.
  - subst w3. unfold RpcServer.unsubscribeAll. cbn [snd].
    change (sessions_of topic params
              (foldl (fun w s => topic_unsubscribe s.1 s.2 session w) w2
                 (subscriptions_of w2 session)) = earlier).
    cbn beta. rewrite Hsubs2, foldl_app. simpl.
    set (w2' := foldl _ w2 _).
    assert (Hl2' : sessions_of topic params w2'
                   = (earlier ++ [latest]) ++ session :: []).
    { subst w2'. by rewrite foldl_topic_unsubscribe_other. }
    clearbody w2'.
    apply (topic_unsubscribe_absent topic params session _ earlier latest);
      [|done].
    rewrite (topic_unsubscribe_listed topic params session w2'
               (earlier ++ [latest]) []) by done.
    by rewrite app_nil_r.
  - subst w3. unfold RpcServer.unsubscribeAll. cbn [snd].
    cbn [RpcServer.set_session RpcServer.session_objs].
    by rewrite update_eq.
Qed.

Lemma filter_ne_absent session (l : list RpcSession) :
  session ∉ l -> filter (fun x => x <> session) l = l.
Proof.
  induction l as [|x l IH]; intros Hin; [done|].
  apply not_elem_of_cons in Hin as [Hne Hin].
  rewrite filter_cons_True by done. by rewrite IH.
Qed.

(** In a list without duplicates, taking the first entry of a session out
    takes the session out. *)
Lemma topic_unsubscribe_nodup topic params session w :
  NoDup (sessions_of topic params w) ->
  session ∈ sessions_of topic params w ->
  sessions_of topic params (topic_unsubscribe topic params session w)
  = filter (fun x => x <> session) (sessions_of topic params w).
Proof.
  intros Hnd Hin.
  destruct (list_elem_of_split_l _ _ Hin) as (l1 & l2 & Hl & Hl1).
  rewrite (topic_unsubscribe_listed topic params session w l1 l2) by done.
  rewrite Hl in Hnd |- *.
  apply NoDup_app in Hnd as (_ & _ & Hnd). apply NoDup_cons in Hnd as [Hl2 _].
  rewrite filter_app, filter_cons_False by (intros Hx; by apply Hx).
  by rewrite !filter_ne_absent.
Qed.

Lemma sessions_of_same_key topic params params' w :
  JSON_stringify params' = JSON_stringify params ->
  sessions_of topic params' w = sessions_of topic params w.
Proof. intros Hk. unfold RpcServer.sessions_of. by rewrite Hk. Qed.

(** The subscriptions of a session, by topic and key. *)
Local Abbreviation key_of :=
  (fun s : RpcServer.TopicRef * P => (s.1 : nat, JSON_stringify s.2)).

Lemma foldl_topic_unsubscribe_cleans session
    (subs : list (RpcServer.TopicRef * P)) w :
  NoDup (key_of <$> subs) ->
  Forall (fun s => session ∈ sessions_of s.1 s.2 w) subs ->
  (forall topic params, NoDup (sessions_of topic params w)) ->
  forall topic params,
    sessions_of topic params
      (foldl (fun w s => topic_unsubscribe s.1 s.2 session w) w subs)
    = if bool_decide ((topic : nat, JSON_stringify params) ∈ key_of <$> subs)
      then filter (fun x => x <> session) (sessions_of topic params w)
      else sessions_of topic params w.
Proof.
  revert w. induction subs as [|s subs IH]; intros w Hkeys Hin Hnd topic params.
  - cbn [foldl]. rewrite fmap_nil.
    case_bool_decide as Hk; [by apply elem_of_nil in Hk|done].
  - rewrite fmap_cons in Hkeys. apply NoDup_cons in Hkeys as [Hs Hkeys].
    apply Forall_cons in Hin as [Hins Hin].
    set (w1 := topic_unsubscribe s.1 s.2 session w).
    assert (Hw1 : forall topic params,
               sessions_of topic params w1
               = if bool_decide ((topic : nat, JSON_stringify params) = key_of s)
                 then filter (fun x => x <> session)
                        (sessions_of topic params w)
                 else sessions_of topic params w).
    { intros topic0 params0. case_bool_decide as Hk.
      - injection Hk as -> Hk.
        rewrite !(sessions_of_same_key _ _ _ _ Hk).
        by apply topic_unsubscribe_nodup.
      - apply topic_unsubscribe_other.
        destruct (decide (topic0 = s.1 :> nat)) as [->|]; [right|by left].
        intros Hk'. apply Hk. by rewrite Hk'. }
    cbn [foldl]. fold w1. rewrite IH; [|done| |].
    + rewrite !Hw1. rewrite fmap_cons.
      destruct (decide ((topic : nat, JSON_stringify params) = key_of s))
        as [Hk|Hk].
      * rewrite (bool_decide_eq_true_2 _ Hk).
        rewrite bool_decide_eq_false_2 by by rewrite Hk.
        rewrite bool_decide_eq_true_2; [done|]. rewrite Hk. apply list_elem_of_here.
      * rewrite (bool_decide_eq_false_2 _ Hk).
        case_bool_decide as Hin'.
        -- rewrite bool_decide_eq_true_2; [done|]. by apply list_elem_of_further.
        -- rewrite bool_decide_eq_false_2; [done|].
           intros [?|?]%elem_of_cons; done.
    + apply Forall_forall. intros s' Hs'.
      rewrite Forall_forall in Hin. specialize (Hin s' Hs').
      rewrite Hw1. rewrite bool_decide_eq_false_2; [done|].
      intros Hk. apply Hs. rewrite <- Hk.
      by apply (list_elem_of_fmap_2 key_of).
    + intros topic0 params0. rewrite Hw1. case_bool_decide; [|done].
      by apply NoDup_filter.
Qed.

(** X11. When the entries of a session's [subscriptions] are for distinct
    topics and keys, the session is listed under each of them and no list
    holds a session twice, [unsubscribeAll] takes exactly that session out
    of exactly those lists, leaves every other session and list as it is,
    and empties [subscriptions]. *)
Theorem unsubscribeAll_removes_only_the_session session w :
  NoDup (key_of <$> subscriptions_of w session) ->
  Forall (fun s => session ∈ sessions_of s.1 s.2 w)
    (subscriptions_of w session) ->
  (forall topic params, NoDup (sessions_of topic params w)) ->
  let w' := (unsubscribeAll session w).2 in
  subscriptions_of w' session = []
  /\ forall topic params,
       sessions_of topic params w'
       = if bool_decide ((topic : nat, JSON_stringify params)
                         ∈ key_of <$> subscriptions_of w session)
         then filter (fun x => x <> session) (sessions_of topic params w)
         else sessions_of topic params w.
Proof.
  intros Hkeys Hin Hnd w'. subst w'. unfold RpcServer.unsubscribeAll.
  cbn [snd]. split.
  - cbn [RpcServer.set_session RpcServer.session_objs].
    by rewrite update_eq.
  - intros topic params.
    by apply (foldl_topic_unsubscribe_cleans session _ w).
Qed.

Local Abbreviation alive_of :=
  (fun (w : server) session =>
     RpcServer.alive (RpcServer.session_objs w session)).

Lemma checkAlive_socket_grows session w (e : RpcServer.SocketEvent) :
  e ∈ RpcServer.socket w -> e ∈ RpcServer.socket (RpcServer.checkAlive session w).
Proof.
  intros He. unfold RpcServer.checkAlive.
  destruct (negb _); simpl; apply elem_of_app; by left.
Qed.

Lemma checkAlive_not_alive session session' w :
  alive_of w session = false ->
  alive_of (RpcServer.checkAlive session' w) session = false.
Proof.
  intros Ha. unfold RpcServer.checkAlive.
  destruct (negb _) eqn:E; simpl; [done|].
  destruct (decide (session = session')) as [->|Hne].
  - by rewrite update_eq.
  - by rewrite update_ne.
Qed.

Lemma checkAlive_self_not_alive session w :
  alive_of (RpcServer.checkAlive session w) session = false.
Proof.
  unfold RpcServer.checkAlive.
  destruct (RpcServer.alive (RpcServer.session_objs w session)) eqn:E; simpl.
  - by rewrite update_eq.
  - done.
Qed.

Lemma foldl_checkAlive_socket_grows (l : list RpcSession) w
    (e : RpcServer.SocketEvent) :
  e ∈ RpcServer.socket w ->
  e ∈ RpcServer.socket (foldl (fun w s => RpcServer.checkAlive s w) w l).
Proof.
  revert w. induction l as [|s l IH]; intros w He; simpl; [done|].
  by apply IH, checkAlive_socket_grows.
Qed.

Lemma foldl_checkAlive_not_alive (l : list RpcSession) session w :
  alive_of w session = false ->
  alive_of (foldl (fun w s => RpcServer.checkAlive s w) w l) session = false.
Proof.
  revert w. induction l as [|s l IH]; intros w Ha; simpl; [done|].
  by apply IH, checkAlive_not_alive.
Qed.

(** One round of the timer leaves every listed session marked as not
    alive. *)
Lemma foldl_checkAlive_marks (l : list RpcSession) session w :
  session ∈ l ->
  alive_of (foldl (fun w s => RpcServer.checkAlive s w) w l) session = false.
Proof.
  revert w. induction l as [|s l IH]; intros w Hin; simpl.
  - by apply elem_of_nil in Hin.
  - apply elem_of_cons in Hin as [->|Hin]; [|by apply IH].
    apply foldl_checkAlive_not_alive, checkAlive_self_not_alive.
Qed.

(** A round of the timer terminates every listed session that is marked as
    not alive. *)
Lemma foldl_checkAlive_terminates (l : list RpcSession) session w :
  session ∈ l ->
  alive_of w session = false ->
  RpcServer.Terminate session
  ∈ RpcServer.socket (foldl (fun w s => RpcServer.checkAlive s w) w l).
Proof.
  revert w. induction l as [|s l IH]; intros w Hin Ha; simpl.
  - by apply elem_of_nil in Hin.
  - destruct (decide (session = s)) as [<-|Hne].
    + apply foldl_checkAlive_socket_grows. unfold RpcServer.checkAlive.
      rewrite Ha. simpl. apply elem_of_app. right. apply list_elem_of_here.
    + apply elem_of_cons in Hin as [?|Hin]; [done|].
      apply IH; [done|]. by apply checkAlive_not_alive.
Qed.

Lemma foldl_checkAlive_sessions (l : list RpcSession) w :
  RpcServer.sessions (foldl (fun w s => RpcServer.checkAlive s w) w l)
  = RpcServer.sessions w.
Proof.
  revert w. induction l as [|s l IH]; intros w; simpl; [done|].
  rewrite IH. unfold RpcServer.checkAlive. by destruct (negb _).
Qed.

(** X12. Two rounds of the keep-alive timer with no pong in between
    terminate the socket of every session in [sessions], whatever state the
    sessions were in. *)
Theorem keep_alive_terminates_silent_sessions session w :
  session ∈ RpcServer.sessions w ->
  RpcServer.Terminate session
  ∈ RpcServer.socket (RpcServer.checkAll (RpcServer.checkAll w)).
Proof.
  intros Hin. unfold RpcServer.checkAll at 1.
  apply foldl_checkAlive_terminates.
  - unfold RpcServer.checkAll. by rewrite foldl_checkAlive_sessions.
  - unfold RpcServer.checkAll. by apply foldl_checkAlive_marks.
Qed.

(** X13. A session whose pong arrived after a check is pinged, not
    terminated, by the next check, and is then marked as not alive again
    until its next pong; its subscriptions are not touched. *)
Theorem checkAlive_after_pong_pings session w :
  let w1 := RpcServer.pong session (RpcServer.checkAlive session w) in
  let w2 := RpcServer.checkAlive session w1 in
  RpcServer.socket w2 = RpcServer.socket w1 ++ [RpcServer.Ping session]
  /\ alive_of w1 session = true
  /\ alive_of w2 session = false
  /\ subscriptions_of w2 session = subscriptions_of w session
  /\ RpcServer.socket (RpcServer.checkAlive session w2)
     = RpcServer.socket w2 ++ [RpcServer.Terminate session].
Proof.
  intros w1 w2.
  assert (H1 : alive_of w1 session = true /\
               subscriptions_of w1 session = subscriptions_of w session).
  { subst w1. unfold RpcServer.pong, RpcServer.checkAlive. simpl.
    rewrite update_eq. simpl. split; [done|].
    destruct (negb _); simpl; [done|]. by rewrite update_eq. }
  destruct H1 as [Ha1 Hs1]. clearbody w1.
  assert (H2 : RpcServer.socket w2
               = RpcServer.socket w1 ++ [RpcServer.Ping session]
               /\ alive_of w2 session = false
               /\ subscriptions_of w2 session = subscriptions_of w1 session).
  { subst w2. unfold RpcServer.checkAlive. rewrite Ha1. simpl.
    by rewrite update_eq. }
  destruct H2 as (Hsock & Ha2 & Hs2). clearbody w2.
  split_and!; try done; [congruence|].
  unfold RpcServer.checkAlive. by rewrite Ha2.
Qed.

Lemma foldl_topic_unsubscribe_sessions session
    (subs : list (RpcServer.TopicRef * P)) w :
  RpcServer.sessions
    (foldl (fun w s => topic_unsubscribe s.1 s.2 session w) w subs)
  = RpcServer.sessions w.
Proof.
  revert w. induction subs as [|s subs IH]; intros w; simpl; [done|].
  by rewrite IH.
Qed.

(** X14. [remove] takes the first entry of the session out of [sessions],
    keeping the other sessions in order, and empties the session's
    [subscriptions]; for a session that is not in [sessions] (one that was
    removed already) the array is left as it is. *)
Theorem remove_drops_session_once session w :
  let r := remove session w in
  settled r.1 = Some (Fulfilled tt)
  /\ subscriptions_of r.2 session = []
  /\ (session ∉ RpcServer.sessions w ->
      RpcServer.sessions r.2 = RpcServer.sessions w)
  /\ (forall before after,
        RpcServer.sessions w = before ++ session :: after ->
        session ∉ before ->
        RpcServer.sessions r.2 = before ++ after).
Proof.
  intros r.
  set (w1 := (unsubscribeAll session w).2).
  assert (Hsubs : subscriptions_of w1 session = []).
  { subst w1. unfold RpcServer.unsubscribeAll. cbn [snd].
    cbn [RpcServer.set_session RpcServer.session_objs]. by rewrite update_eq. }
  assert (Hsess : RpcServer.sessions w1 = RpcServer.sessions w).
  { subst w1. unfold RpcServer.unsubscribeAll. cbn [snd].
    cbn [RpcServer.set_session RpcServer.sessions].
    apply foldl_topic_unsubscribe_sessions. }
  assert (Hr : r = if bool_decide (0 <= indexOf (RpcServer.sessions w1) session)%Z
                   then (Done (Fulfilled tt),
                         RpcServer.set_sessions
                           (splice (RpcServer.sessions w1)
                              (indexOf (RpcServer.sessions w1) session) 1) w1)
                   else (Done (Fulfilled tt), w1)) by done.
  clearbody w1 r. subst r. rewrite Hsess.
  case_bool_decide as Hidx; cbn [fst snd settled].
  - split_and!; try done.
    + intros Hin. rewrite (indexOf_absent _ _ Hin) in Hidx. lia.
    + intros before after Hl Hin.
      cbn [RpcServer.set_sessions RpcServer.sessions].
      rewrite Hl. by apply splice_indexOf_first.
  - split_and!; try done.
    intros before after Hl Hin. exfalso. apply Hidx.
    apply indexOf_present. rewrite Hl. apply elem_of_app. right.
    apply list_elem_of_here.
Qed.

End ServerFacts.

(** ** The service tree *)

Section ServicesFacts.
Import Services.

Implicit Types (members : list (string * JsValue)) (key name rest : string).

Lemma split_nonempty sep s : split sep s <> [].
Proof.
  destruct s as [|c s]; simpl; [done|].
  destruct (decide (c = sep)); [done|]. by destruct (split sep s).
Qed.

(** Joining the pieces of a split gives the string back. *)
Lemma join_split s : join "/" (split slash s) = s.
Proof.
  induction s as [|c s IH]; [done|]. simpl.
  destruct (decide (c = slash)) as [->|Hne].
  - unfold join in *. simpl.
    pose proof (split_nonempty slash s).
    destruct (split slash s) as [|piece pieces]; [done|].
    simpl in *. by rewrite IH.
  - unfold join in *.
    destruct (split slash s) as [|piece pieces] eqn:E.
    + by destruct (split_nonempty slash s).
    + simpl in *. destruct pieces; simpl in *; by rewrite <- IH.
Qed.

Lemma split_member key rest :
  slash_free key = true ->
  split slash (key ++ String slash rest) = key :: split slash rest.
Proof.
  induction key as [|c key IH]; intros Hfree; simpl; [done|].
  simpl in Hfree. destruct (decide (c = slash)); [done|].
  by rewrite IH.
Qed.

Lemma split_slash_free key : slash_free key = true -> split slash key = [key].
Proof.
  induction key as [|c key IH]; intros Hfree; simpl; [done|].
  simpl in Hfree. destruct (decide (c = slash)); [done|]. by rewrite IH.
Qed.

(** [getServiceItem] on an object, as the source has it. *)
Lemma getServiceItem_eq members name :
  getServiceItem (JsObject members) name
  = if decide (name = EmptyString) then Return JsNull JsNull
    else
      let names := split slash name in
      let item := get members (hd EmptyString names) in
      match item with
      | JsNull => ThrowTypeError
      | JsObject item_members =>
          if has item_members "getTopicName"
          then Return item (JsObject members)
          else getServiceItem item (join "/" (tl names))
      | _ => Return item (JsObject members)
      end.
Proof.
  cbn [getServiceItem]. destruct (decide (name = EmptyString)); [done|].
  cbv zeta. generalize (JsObject members) as services.
  intros services. induction members as [|[k item] members IH]; [done|].
  cbn [get]. destruct (decide (k = hd EmptyString (split slash name))); [|done].
  by destruct item.
Qed.

Lemma append_not_empty key rest : key <> EmptyString -> (key ++ rest)%string <> EmptyString.
Proof. by destruct key. Qed.

(** One step down a path. *)
Lemma getServiceItem_step members key inner rest :
  member_name key ->
  get members key = JsObject inner ->
  has inner "getTopicName" = false ->
  getServiceItem (JsObject members) (key ++ String slash rest)
  = getServiceItem (JsObject inner) rest.
Proof.
  intros [Hne Hfree] Hget Hhas. rewrite getServiceItem_eq.
  rewrite decide_False by by apply append_not_empty.
  cbv zeta. rewrite split_member by done. cbn [hd tl].
  by rewrite Hget, Hhas, join_split.
Qed.

(** The end of a path, whatever follows. *)
Lemma getServiceItem_found members key item rest :
  member_name key ->
  get members key = item ->
  is_item item = true ->
  getServiceItem (JsObject members) key = Return item (JsObject members)
  /\ getServiceItem (JsObject members) (key ++ String slash rest)
     = Return item (JsObject members).
Proof.
  intros [Hne Hfree] Hget Hitem. rewrite !getServiceItem_eq.
  rewrite !decide_False by (done || by apply append_not_empty).
  cbv zeta. rewrite split_member, split_slash_free by done. cbn [hd tl].
  rewrite Hget. destruct item as [| | | |ms]; try done.
  simpl in Hitem. by rewrite Hitem.
Qed.

(** X15. A name made of member names joined by ["/"] that lead through
    plain objects to a function, a topic or any other non-object member is
    resolved to that member, with the object it was read from. *)
Theorem getServiceItem_resolves services path item object :
  resolves services path item object ->
  Forall member_name path ->
  getServiceItem services (join "/" path) = Return item object.
Proof.
  induction 1 as [members key item Hget Hitem
                 |members key inner path item object Hget Hhas Hres IH];
    intros Hpath.
  - apply Forall_cons in Hpath as [Hkey _].
    change (join "/" [key]) with key.
    by destruct (getServiceItem_found members key item EmptyString Hkey Hget
                   Hitem) as [-> _].
  - apply Forall_cons in Hpath as [Hkey Hpath].
    assert (Hj : join "/" (key :: path)
                 = (key ++ String slash (join "/" path))%string).
    { unfold join. simpl. destruct path; [inversion Hres|done]. }
    rewrite Hj, (getServiceItem_step members key inner) by done.
    by apply IH.
Qed.

(** X16. Once a piece of the name has led to a function, a topic or a
    missing member, the pieces after it are not looked at: the result is
    the same as for the name up to that piece. A missing member gives
    [undefined] together with the object that lacks it. *)
Theorem getServiceItem_ignores_rest members key rest :
  member_name key ->
  is_item (get members key) = true ->
  getServiceItem (JsObject members) (key ++ String slash rest)
  = getServiceItem (JsObject members) key
  /\ getServiceItem (JsObject members) key
     = Return (get members key) (JsObject members).
Proof.
  intros Hkey Hitem.
  destruct (getServiceItem_found members key (get members key) rest Hkey
              eq_refl Hitem) as [H1 H2].
  by rewrite H1, H2.
Qed.

(** X17. A name that stops at a plain object gives [{null, null}], and a
    name whose first piece is a [null] member makes [getServiceItem] throw:
    the test [!item] after the [in] test is never reached with [null]. *)
Theorem getServiceItem_object_or_null members key inner rest :
  member_name key ->
  (get members key = JsObject inner ->
   has inner "getTopicName" = false ->
   getServiceItem (JsObject members) key = Return JsNull JsNull)
  /\ (get members key = JsNull ->
      getServiceItem (JsObject members) key = ThrowTypeError
      /\ getServiceItem (JsObject members) (key ++ String slash rest)
         = ThrowTypeError).
Proof.
  intros [Hne Hfree]. rewrite !getServiceItem_eq.
  rewrite !decide_False by (done || by apply append_not_empty).
  cbv zeta. rewrite split_member, split_slash_free by done. cbn [hd tl].
  split.
  - intros -> ->. unfold join. simpl. by destruct inner.
  - by intros ->.
Qed.

End ServicesFacts.

(** ** Connected clients *)

Section LocalServerFacts.
Implicit Types (w : LocalServer.t) (remoteId : string) (session : RpcSession).

(** Reading an id that is stored, and one that is neither stored nor
    inherited. *)
Lemma read_stored remoteId session w :
  LocalServer.sessions w !! remoteId = Some session ->
  LocalServer.read remoteId w = Some (LocalServer.Session session).
Proof. intros H. unfold LocalServer.read. by rewrite H. Qed.

Lemma read_absent remoteId w :
  remoteId ∉ LocalServer.Object_prototype ->
  LocalServer.sessions w !! remoteId = None ->
  LocalServer.read remoteId w = None.
Proof.
  intros Hid H. unfold LocalServer.read. rewrite H.
  by rewrite bool_decide_eq_false_2.
Qed.

Lemma read_inherited remoteId w :
  remoteId ∈ LocalServer.Object_prototype ->
  LocalServer.sessions w !! remoteId = None ->
  LocalServer.read remoteId w = Some LocalServer.Inherited.
Proof.
  intros Hid H. unfold LocalServer.read. rewrite H.
  by rewrite bool_decide_eq_true_2.
Qed.

(** A connection under an id that is not inherited stores the session. *)
Lemma connection_sessions remoteId session w :
  remoteId ∉ LocalServer.Object_prototype ->
  LocalServer.sessions (LocalServer.connection remoteId session w)
  = <[remoteId := session]> (LocalServer.sessions w).
Proof.
  intros Hid. unfold LocalServer.connection, LocalServer.read.
  destruct (LocalServer.sessions w !! remoteId); [done|].
  by rewrite bool_decide_eq_false_2.
Qed.

(** X18. When a client connects again under the id of a session that is
    still registered, the earlier session is terminated and replaced; its
    [close] handler, running afterwards, leaves the new session registered
    (the client stays connected and [getRemote] gives the new session) but
    still reports the client as disconnected. Only the [close] of the new
    session removes the client. The id is any string that is not the name
    of a member of [Object.prototype]. *)
Theorem reconnect_keeps_new_session remoteId (old new : RpcSession) w :
  remoteId ∉ LocalServer.Object_prototype ->
  old <> new ->
  let w1 := LocalServer.connection remoteId old w in
  let w2 := LocalServer.connection remoteId new w1 in
  let w3 := LocalServer.close remoteId old w2 in
  let w4 := LocalServer.close remoteId new w3 in
  LocalServer.events w2
  = LocalServer.events w1
    ++ [LocalServer.Opened new; LocalServer.OnConnected remoteId;
        LocalServer.Terminated old]
  /\ LocalServer.sessions w3 = LocalServer.sessions w2
  /\ LocalServer.isConnected remoteId w3 = true
  /\ LocalServer.getRemote remoteId w3 = Fulfilled (LocalServer.Session new)
  /\ LocalServer.events w3
     = LocalServer.events w2
       ++ [LocalServer.Removed old; LocalServer.OnDisconnected remoteId]
  /\ LocalServer.isConnected remoteId w4 = false
  /\ LocalServer.sessions w4 = delete remoteId (LocalServer.sessions w).
Proof.
  intros Hid Hne w1 w2 w3 w4.
  assert (H1 : LocalServer.sessions w1
               = <[remoteId := old]> (LocalServer.sessions w))
    by by apply connection_sessions.
  assert (H2 : LocalServer.sessions w2
               = <[remoteId := new]> (LocalServer.sessions w)).
  { subst w2. rewrite connection_sessions, H1 by done.
    apply insert_insert_eq. }
  assert (E2 : LocalServer.events w2
               = LocalServer.events w1
                 ++ [LocalServer.Opened new; LocalServer.OnConnected remoteId;
                     LocalServer.Terminated old]).
  { subst w2. unfold LocalServer.connection at 1.
    rewrite (read_stored remoteId old w1)
      by by rewrite H1, lookup_insert_eq.
    cbn [LocalServer.events]. by rewrite <- app_assoc. }
  assert (R2 : LocalServer.read remoteId w2
               = Some (LocalServer.Session new)).
  { apply read_stored. by rewrite H2, lookup_insert_eq. }
  assert (H3 : LocalServer.sessions w3 = LocalServer.sessions w2
               /\ LocalServer.events w3
                  = LocalServer.events w2
                    ++ [LocalServer.Removed old;
                        LocalServer.OnDisconnected remoteId]).
  { subst w3. unfold LocalServer.close, LocalServer.close_end.
    cbn [LocalServer.sessions LocalServer.events].
    assert (R : LocalServer.read remoteId (LocalServer.close_begin old w2)
                = Some (LocalServer.Session new)) by exact R2.
    rewrite R, bool_decide_eq_false_2 by congruence.
    unfold LocalServer.close_begin. cbn [LocalServer.sessions LocalServer.events].
    by rewrite <- app_assoc. }
  destruct H3 as [H3 E3].
  assert (R3 : LocalServer.read remoteId w3
               = Some (LocalServer.Session new)).
  { apply read_stored. by rewrite H3, H2, lookup_insert_eq. }
  assert (H4 : LocalServer.sessions w4
               = delete remoteId (LocalServer.sessions w)).
  { subst w4. unfold LocalServer.close, LocalServer.close_end.
    cbn [LocalServer.sessions].
    assert (R : LocalServer.read remoteId (LocalServer.close_begin new w3)
                = Some (LocalServer.Session new)) by exact R3.
    rewrite R, bool_decide_eq_true_2 by done.
    unfold LocalServer.close_begin. cbn [LocalServer.sessions].
    rewrite H3, H2. apply delete_insert_eq. }
  clearbody w4 w3 w2 w1.
  split_and!; try done.
  - unfold LocalServer.isConnected. rewrite R3.
    by apply bool_decide_eq_true_2.
  - unfold LocalServer.getRemote. by rewrite R3.
  - unfold LocalServer.isConnected.
    rewrite read_absent by (by rewrite ?H4, ?lookup_delete_eq).
    apply bool_decide_eq_false_2. by intros [? ?].
Qed.

(** What is read under an id depends on the sessions only. *)
Lemma read_other_insert remoteId other session w w' :
  other <> remoteId ->
  LocalServer.sessions w' = <[remoteId := session]> (LocalServer.sessions w) ->
  LocalServer.read other w' = LocalServer.read other w.
Proof.
  intros Hne H. unfold LocalServer.read. by rewrite H, lookup_insert_ne.
Qed.

Lemma read_same_sessions other w w' :
  LocalServer.sessions w' = LocalServer.sessions w ->
  LocalServer.read other w' = LocalServer.read other w.
Proof. intros H. unfold LocalServer.read. by rewrite H. Qed.

Lemma connection_read_other remoteId other session w :
  other <> remoteId ->
  LocalServer.read other (LocalServer.connection remoteId session w)
  = LocalServer.read other w.
Proof.
  intros Hne. unfold LocalServer.connection.
  destruct (LocalServer.read remoteId w) as [[previous|]|].
  - by apply (read_other_insert remoteId other session).
  - by apply read_same_sessions.
  - by apply (read_other_insert remoteId other session).
Qed.

Lemma close_read_other remoteId other session w :
  other <> remoteId ->
  LocalServer.read other (LocalServer.close remoteId session w)
  = LocalServer.read other w.
Proof.
  intros Hne. unfold LocalServer.close, LocalServer.close_end.
  case_bool_decide.
  - unfold LocalServer.read. cbn [LocalServer.sessions].
    by rewrite lookup_delete_ne.
  - by apply read_same_sessions.
Qed.

(** X19. The [connection] and [close] handlers for one client id leave
    what [sessions[other]] reads for every other id as it is, and with it
    what [isConnected(other)] and [getRemote(other)] give. *)
Theorem handlers_keep_other_clients remoteId other session w :
  other <> remoteId ->
  let opened := LocalServer.connection remoteId session w in
  let closed := LocalServer.close remoteId session w in
  (LocalServer.read other opened = LocalServer.read other w
   /\ LocalServer.isConnected other opened = LocalServer.isConnected other w
   /\ LocalServer.getRemote other opened = LocalServer.getRemote other w)
  /\ (LocalServer.read other closed = LocalServer.read other w
      /\ LocalServer.isConnected other closed = LocalServer.isConnected other w
      /\ LocalServer.getRemote other closed = LocalServer.getRemote other w).
Proof.
  intros Hne opened closed.
  pose proof (connection_read_other remoteId other session w Hne) as Ho.
  pose proof (close_read_other remoteId other session w Hne) as Hc.
  fold opened in Ho. fold closed in Hc. clearbody opened closed.
  unfold LocalServer.isConnected, LocalServer.getRemote.
  by rewrite Ho, Hc.
Qed.

(** No handler ever stores a session under the name of a member of
    [Object.prototype]. *)
Lemma reachable_no_inherited_key remoteId w :
  LocalServer.reachable w ->
  remoteId ∈ LocalServer.Object_prototype ->
  LocalServer.sessions w !! remoteId = None.
Proof.
  intros Hw Hid.
  induction Hw as [|id session w _ IH|session w _ IH|id session w _ IH].
  - apply lookup_empty.
  - unfold LocalServer.connection.
    destruct (LocalServer.read id w) as [[previous|]|] eqn:E;
      cbn [LocalServer.sessions]; [| done |].
    + destruct (decide (id = remoteId)) as [->|Hne];
        [|by rewrite lookup_insert_ne].
      by rewrite (read_inherited remoteId w) in E.
    + destruct (decide (id = remoteId)) as [->|Hne];
        [|by rewrite lookup_insert_ne].
      by rewrite (read_inherited remoteId w) in E.
  - exact IH.
  - unfold LocalServer.close_end. cbn [LocalServer.sessions].
    case_bool_decide; [|done].
    destruct (decide (id = remoteId)) as [->|Hne];
      [by rewrite lookup_delete_eq|by rewrite lookup_delete_ne].
Qed.

(** X26. A client whose id is the name of a member of [Object.prototype]
    (["constructor"], ["toString"], ["__proto__"], ...) can never connect:
    in every state the server reaches, no session is stored under such an
    id and the [connection] handler throws after [onConnected], storing
    nothing, while [isConnected] answers [true] for the id and [getRemote]
    does not fail with "not connected". *)
Theorem inherited_id_never_connects remoteId session w :
  LocalServer.reachable w ->
  remoteId ∈ LocalServer.Object_prototype ->
  let w1 := LocalServer.connection remoteId session w in
  LocalServer.sessions w !! remoteId = None
  /\ LocalServer.sessions w1 = LocalServer.sessions w
  /\ LocalServer.events w1
     = LocalServer.events w
       ++ [LocalServer.Opened session; LocalServer.OnConnected remoteId;
           LocalServer.Thrown remoteId]
  /\ LocalServer.isConnected remoteId w = true
  /\ LocalServer.getRemote remoteId w = Fulfilled LocalServer.Inherited.
Proof.
  intros Hw Hid w1.
  pose proof (reachable_no_inherited_key remoteId w Hw Hid) as Hnone.
  pose proof (read_inherited remoteId w Hid Hnone) as Hread.
  subst w1. unfold LocalServer.connection, LocalServer.isConnected,
    LocalServer.getRemote.
  rewrite Hread. cbn [LocalServer.sessions LocalServer.events].
  split_and!; try done.
  all: try (by rewrite <- app_assoc).
  all: try (by apply bool_decide_eq_true_2).
Qed.

End LocalServerFacts.

(** ** The client core, continued *)

Section ClientMoreFacts.
Context {Value Parameters : Type}.
Variable stringify : Parameters -> string.

Local Abbreviation client := (RpcClientImpl.t Value Parameters).
Local Abbreviation registry := (RemoteSubscriptions.t Value Parameters).
Local Abbreviation subscribe := (RpcClientImpl.subscribe stringify).
Local Abbreviation unsubscribe := (RpcClientImpl.unsubscribe stringify).
Local Abbreviation resubscribe := (RpcClientImpl.resubscribe stringify).
Local Abbreviation resubscribe_one := (RpcClientImpl.resubscribe_one stringify).
Local Abbreviation remoteSubscriptions := RpcClientImpl.remoteSubscriptions.
Local Abbreviation trace := RpcClientImpl.trace.
Local Abbreviation records := RemoteSubscriptions.records.
Local Abbreviation consumers_of := (RemoteSubscriptions.consumers_of stringify).
Local Abbreviation reg_subscribe := (RemoteSubscriptions.subscribe stringify).
Local Abbreviation reg_unsubscribe :=
  (RemoteSubscriptions.unsubscribe stringify).
Local Abbreviation Invoked := (@RpcClientImpl.Invoked Value Parameters).
Local Abbreviation Requested := (@RpcClientImpl.Requested Value Parameters).
Local Abbreviation all := (@RpcClientViews._allSubscriptions Value Parameters).

Implicit Types (w : client) (reg : registry) (itemName : string)
  (parameters : Parameters) (consumer : Consumer) (data : Optional Value).

(** The registry operations for one key leave the records of the other
    keys as they are. *)
Lemma reg_subscribe_other data itemName parameters consumer reg key :
  key <> (itemName, stringify parameters) ->
  records (reg_subscribe data itemName parameters consumer reg).1 !! key
  = records reg !! key.
Proof. intros Hne. simpl. by rewrite lookup_insert_ne. Qed.

Lemma reg_unsubscribe_other itemName parameters consumer reg key :
  key <> (itemName, stringify parameters) ->
  records (reg_unsubscribe itemName parameters consumer reg).2 !! key
  = records reg !! key.
Proof.
  intros Hne. unfold RemoteSubscriptions.unsubscribe.
  destruct (records reg !! (itemName, stringify parameters)); [|done].
  case_bool_decide; simpl.
  - by rewrite lookup_delete_ne.
  - by rewrite lookup_insert_ne.
Qed.

(** What [unsubscribe] of the client does, by the answer of the registry. *)
Lemma unsubscribe_cases itemName parameters consumer w :
  let answer :=
    reg_unsubscribe itemName parameters consumer (remoteSubscriptions w) in
  let r := unsubscribe itemName parameters consumer w in
  remoteSubscriptions r.2 = answer.2
  /\ (if answer.1
      then awaiting r.1 = Some (HttpClient.ReqUnsubscribe itemName parameters)
           /\ trace r.2
              = trace w
                ++ [Requested (HttpClient.ReqUnsubscribe itemName parameters)]
           /\ forall w', resume r.1 (Fulfilled undefined) w'
                         = (Done (Fulfilled tt), w')
      else r.1 = Done (Fulfilled tt) /\ trace r.2 = trace w).
Proof.
  intros answer r. subst answer r. unfold RpcClientImpl.unsubscribe.
  by destruct (RemoteSubscriptions.unsubscribe _ _ _ _ _) as [[] reg].
Qed.

(** The state once the HTTP subscribe of a [subscribe] has answered. *)
Lemma subscribe_fulfilled itemName parameters consumer data w w' :
  let r := resume (subscribe itemName parameters consumer w).1
             (Fulfilled data) w' in
  settled r.1 = Some (Fulfilled tt)
  /\ remoteSubscriptions r.2
     = (reg_subscribe data itemName parameters consumer
          (remoteSubscriptions w')).1
  /\ trace r.2 = trace w' ++ [Invoked consumer data].
Proof.
  intros r. subst r. rewrite subscribe_resume. cbn [fst snd settled].
  by rewrite with_registry_trace, with_registry_registry.
Qed.

(** X20. On a key that has no record, a successful [subscribe] followed by
    [unsubscribe] of the same consumer calls the consumer once, with the
    value of the HTTP subscribe, issues the HTTP unsubscribe, and leaves
    the records of the registry as they were. *)
Theorem subscribe_unsubscribe_restores_records
    itemName parameters consumer data w :
  records (remoteSubscriptions w) !! (itemName, stringify parameters) = None ->
  let s := subscribe itemName parameters consumer w in
  let w1 := (resume s.1 (Fulfilled data) s.2).2 in
  let u := unsubscribe itemName parameters consumer w1 in
  consumers_of itemName parameters (remoteSubscriptions w1) = [consumer]
  /\ awaiting u.1 = Some (HttpClient.ReqUnsubscribe itemName parameters)
  /\ trace u.2
     = trace s.2
       ++ [Invoked consumer data;
           Requested (HttpClient.ReqUnsubscribe itemName parameters)]
  /\ records (remoteSubscriptions u.2) = records (remoteSubscriptions w).
Proof.
  intros Hnone s w1 u.
  destruct (subscribe_sync stringify itemName parameters consumer w)
    as (Hreg & _).
  destruct (subscribe_fulfilled itemName parameters consumer data w s.2)
    as (_ & Hreg1 & Htr1).
  change (subscribe itemName parameters consumer w) with s in Hreg, Hreg1, Htr1.
  change (resume s.1 (Fulfilled data) s.2).2 with w1 in Hreg1, Htr1.
  rewrite Hreg in Hreg1. clearbody s. clearbody w1.
  assert (Hcs : consumers_of itemName parameters (remoteSubscriptions w1)
                = [consumer]).
  { rewrite Hreg1, subscribe_consumers_of.
    unfold RemoteSubscriptions.consumers_of. by rewrite Hnone. }
  destruct (unsubscribe_cases itemName parameters consumer w1)
    as (Hreg2 & Hcase).
  fold u in Hreg2, Hcase.
  assert (Hans : (reg_unsubscribe itemName parameters consumer
                    (remoteSubscriptions w1)).1 = true).
  { apply unsubscribe_true_iff.
    by rewrite unsubscribe_consumers_of, Hcs, remove_one_head. }
  rewrite Hans in Hcase. destruct Hcase as (Hq & Htr2 & _).
  clearbody u. split_and!; [done|done| |].
  - by rewrite Htr2, Htr1, <- app_assoc.
  - apply map_eq. intros key. rewrite Hreg2.
    destruct (decide (key = (itemName, stringify parameters))) as [->|Hne].
    + rewrite Hnone. by apply unsubscribe_true_no_record.
    + rewrite reg_unsubscribe_other by done. rewrite Hreg1.
      by rewrite reg_subscribe_other.
Qed.

(** X21. Two successful subscribes to a key that had no record (by two
    consumers, or twice by the same one) register two consumers; the first
    [unsubscribe] then fulfils without any HTTP request, and only the second
    one issues the HTTP unsubscribe, after which the records of the
    registry are as at the start. *)
Theorem two_consumers_one_http_unsubscribe
    itemName parameters (c1 c2 : Consumer) (d1 d2 : Optional Value) w :
  records (remoteSubscriptions w) !! (itemName, stringify parameters) = None ->
  let s1 := subscribe itemName parameters c1 w in
  let w1 := (resume s1.1 (Fulfilled d1) s1.2).2 in
  let s2 := subscribe itemName parameters c2 w1 in
  let w2 := (resume s2.1 (Fulfilled d2) s2.2).2 in
  let u1 := unsubscribe itemName parameters c1 w2 in
  let u2 := unsubscribe itemName parameters c2 u1.2 in
  consumers_of itemName parameters (remoteSubscriptions w2) = [c1; c2]
  /\ u1.1 = Done (Fulfilled tt)
  /\ trace u1.2 = trace w2
  /\ consumers_of itemName parameters (remoteSubscriptions u1.2) = [c2]
  /\ awaiting u2.1 = Some (HttpClient.ReqUnsubscribe itemName parameters)
  /\ records (remoteSubscriptions u2.2) = records (remoteSubscriptions w).
Proof.
  intros Hnone s1 w1 s2 w2 u1 u2.
  destruct (subscribe_sync stringify itemName parameters c1 w) as (Hr0 & _).
  destruct (subscribe_fulfilled itemName parameters c1 d1 w s1.2)
    as (_ & Hr1 & _).
  change (subscribe itemName parameters c1 w) with s1 in Hr0, Hr1.
  change (resume s1.1 (Fulfilled d1) s1.2).2 with w1 in Hr1.
  rewrite Hr0 in Hr1. clearbody s1. clearbody w1.
  destruct (subscribe_sync stringify itemName parameters c2 w1) as (Hr1' & _).
  destruct (subscribe_fulfilled itemName parameters c2 d2 w1 s2.2)
    as (_ & Hr2 & _).
  change (subscribe itemName parameters c2 w1) with s2 in Hr1', Hr2.
  change (resume s2.1 (Fulfilled d2) s2.2).2 with w2 in Hr2.
  rewrite Hr1' in Hr2. clearbody s2. clearbody w2.
  assert (Hcs2 : consumers_of itemName parameters (remoteSubscriptions w2)
                 = [c1; c2]).
  { rewrite Hr2, subscribe_consumers_of, Hr1, subscribe_consumers_of.
    unfold RemoteSubscriptions.consumers_of. by rewrite Hnone. }
  destruct (unsubscribe_cases itemName parameters c1 w2) as (Hr3 & Hcase1).
  fold u1 in Hr3, Hcase1.
  assert (Hcs3 : consumers_of itemName parameters (remoteSubscriptions u1.2)
                 = [c2]).
  { by rewrite Hr3, unsubscribe_consumers_of, Hcs2, remove_one_head. }
  assert (Hans1 : (reg_unsubscribe itemName parameters c1
                     (remoteSubscriptions w2)).1 = false).
  { apply not_true_is_false. intros Ht.
    apply unsubscribe_true_iff in Ht. rewrite <- Hr3, Hcs3 in Ht. done. }
  rewrite Hans1 in Hcase1. destruct Hcase1 as (Hu1 & Htr1).
  clearbody u1.
  destruct (unsubscribe_cases itemName parameters c2 u1.2) as (Hr4 & Hcase2).
  fold u2 in Hr4, Hcase2.
  assert (Hans2 : (reg_unsubscribe itemName parameters c2
                     (remoteSubscriptions u1.2)).1 = true).
  { apply unsubscribe_true_iff.
    by rewrite unsubscribe_consumers_of, Hcs3, remove_one_head. }
  rewrite Hans2 in Hcase2. destruct Hcase2 as (Hq2 & _).
  clearbody u2. split_and!; try done.
  apply map_eq. intros key. rewrite Hr4.
  destruct (decide (key = (itemName, stringify parameters))) as [->|Hne].
  - rewrite Hnone. by apply unsubscribe_true_no_record.
  - rewrite reg_unsubscribe_other, Hr3, reg_unsubscribe_other by done.
    rewrite Hr2, reg_subscribe_other, Hr1 by done.
    by rewrite reg_subscribe_other.
Qed.


(** The number of entries of [_allSubscriptions]. *)
Lemma all_length w :
  length (all w)
  = sum_list_with
      (fun kr : string * string * RemoteSubscriptions.Subscription Value Parameters =>
         length (RemoteSubscriptions.consumers kr.2))
      (map_to_list (records (remoteSubscriptions w))).
Proof.
  unfold RpcClientViews._allSubscriptions,
    RemoteSubscriptions.getAllSubscriptions.
  induction (map_to_list (records (remoteSubscriptions w))) as [|kr l IH];
    [done|].
  rewrite fmap_cons, bind_cons, length_app, IH. simpl. f_equal.
  induction (RemoteSubscriptions.consumers kr.2) as [|c cs IHc]; [done|].
  rewrite bind_cons. simpl. by rewrite IHc.
Qed.

Lemma sum_insert (m : gmap (string * string)
                        (RemoteSubscriptions.Subscription Value Parameters))
    key r' :
  let f := fun kr : string * string
                    * RemoteSubscriptions.Subscription Value Parameters =>
             length (RemoteSubscriptions.consumers kr.2) in
  sum_list_with f (map_to_list (<[key := r']> m))
  + from_option (fun r => length (RemoteSubscriptions.consumers r)) 0 (m !! key)
  = sum_list_with f (map_to_list m)
    + length (RemoteSubscriptions.consumers r').
Proof.
  intros f. destruct (m !! key) as [r|] eqn:E; simpl.
  - rewrite <- (map_to_list_delete m key r E).
    rewrite <- insert_delete_eq.
    rewrite map_to_list_insert by apply lookup_delete_eq.
    subst f. simpl. lia.
  - rewrite map_to_list_insert by done. subst f. simpl. lia.
Qed.


End ClientMoreFacts.

(** ** Naming the topics *)

Section PrepareLocalFacts.
Import PrepareLocal.

Implicit Types (services item : Local) (members : list (string * Local))
  (prefix name key : string) (run : Run) (path : list string).

Lemma each_key_names prefix members :
  Forall (fun km => names_topics km.2) members ->
  forall run,
    completed (each_key prepareLocal prefix members run) = true ->
    forall ref name,
      (ref, name) ∈ names (each_key prepareLocal prefix members run)
      <-> (ref, name) ∈ names run
          \/ exists km, km ∈ members /\ named_by prefix km ref name.
Proof.
  induction 1 as [|[key item] members Hitem _ IH]; intros run Hdone ref name.
  - simpl. split; [by left|]. intros [?|(km & Hin & _)]; [done|].
    by apply elem_of_nil in Hin.
  - assert (Hsplit : (exists km, km ∈ (key, item) :: members
                                 /\ named_by prefix km ref name)
                     <-> named_by prefix (key, item) ref name
                         \/ exists km, km ∈ members
                                       /\ named_by prefix km ref name).
    { split.
      - intros (km & Hin & Hn). apply elem_of_cons in Hin as [->|Hin];
          [by left|right; by exists km].
      - intros [Hn|(km & Hin & Hn)].
        + exists (key, item). split; [apply list_elem_of_here|done].
        + exists km. split; [by apply list_elem_of_further|done]. }
    rewrite Hsplit. clear Hsplit.
    cbn [each_key] in Hdone |- *.
    destruct item as [r [|]|r [|]|inner| | |]; try (by cbn in Hdone).
    + rewrite (IH _ Hdone). cbn [names].
      rewrite elem_of_app, list_elem_of_singleton.
      unfold named_by. cbn [fst snd]. split.
      * intros [[?|[= -> ->]]|?]; [by left| |by right; right].
        right; left; left. split; [by eexists|done].
      * intros [?|[[[[wr [= ->]] ->]|(path & Hl & _)]|?]].
        -- by left; left.
        -- by left; right.
        -- inversion Hl.
        -- by right.
    + rewrite (IH _ Hdone). cbn [names].
      unfold named_by. cbn [fst snd]. split.
      * intros [?|?]; [by left|by right; right].
      * intros [?|[[[[wr ?] _]|(path & Hl & _)]|?]]; [by left|done| |by right].
        inversion Hl.
    + destruct (completed (prepareLocal (LObject inner)
                             (prefix ++ "/" ++ key) run)) eqn:Hc;
        [|by rewrite Hc in Hdone].
      rewrite (IH _ Hdone). cbn [snd] in Hitem.
      rewrite (Hitem _ _ Hc). unfold named_by. cbn [fst snd]. split.
      * intros [[?|(path & Hl & ->)]|?]; [by left| |by right; right].
        right; left; right. by exists path.
      * intros [?|[[[[wr ?] _]|(path & Hl & ->)]|?]];
          [by left; left|done| |by right].
        left; right. by exists path.
    + rewrite (IH _ Hdone). unfold named_by. cbn [fst snd]. split.
      * intros [?|?]; [by left|by right; right].
      * intros [?|[[[[wr ?] _]|(path & Hl & _)]|?]]; [by left|done| |by right].
        inversion Hl.
    + rewrite (IH _ Hdone). unfold named_by. cbn [fst snd]. split.
      * intros [?|?]; [by left|by right; right].
      * intros [?|[[[[wr ?] _]|(path & Hl & _)]|?]]; [by left|done| |by right].
        inversion Hl.
Qed.

Lemma names_topics_all services : names_topics services.
Proof.
  induction services using Local_nested_ind.
  - intros prefix run _ r name. simpl. split; [by left|].
    intros [?|(path & Hl & _)]; [done|inversion Hl].
  - intros prefix run _ r name. simpl. split; [by left|].
    intros [?|(path & Hl & _)]; [done|inversion Hl].
  - by intros prefix run Hdone.
  - by intros prefix run Hdone.
  - intros prefix run _ r name. simpl. split; [by left|].
    intros [?|(path & Hl & _)]; [done|inversion Hl].
  - intros prefix run Hdone r name. cbn [prepareLocal] in Hdone |- *.
    rewrite (each_key_names prefix members H run Hdone). split.
    + intros [?|([key item] & Hin & Hn)]; [by left|right].
      destruct Hn as [[[wr Hi] ->]|(path & Hl & ->)]; cbn [fst snd] in *.
      * subst item. exists [key]. split; [by econstructor|done].
      * destruct item as [r0 ?|r0 ?|inner| | |]; try (by inversion Hl).
        exists (key :: path). split; [by eapply leads_member|done].
    + intros [?|(path & Hl & ->)]; [by left|right].
      inversion Hl as [ms key r0 wr Hin|ms key inner path' r0 Hin Hl']; subst.
      * exists (key, LTopic r wr). split; [done|]. left.
        split; [by eexists|done].
      * exists (key, LObject inner). split; [done|]. right. by exists path'.
Qed.

(** X24. When [prepareLocal] completes, the names it has given are those
    it started with and, for every topic and every path of keys that leads
    to it through nested objects, the name [prefix + "/" + key] built along
    that path; nothing else is named. *)
Theorem prepareLocal_names_by_path services prefix run ref name :
  completed (prepareLocal services prefix run) = true ->
  (ref, name) ∈ names (prepareLocal services prefix run)
  <-> (ref, name) ∈ names run
      \/ exists path, leads services path ref /\ name = path_name prefix path.
Proof. intros Hdone. by apply names_topics_all. Qed.

(** A [null] among the members of an object, or inside one of them, ends
    the loop over the keys with a throw, unless something before it has
    thrown already. *)
Lemma each_key_throws prefix members :
  Forall (fun km => has_null km.2 = true ->
                    forall prefix run,
                      completed (prepareLocal km.2 prefix run) = false)
    members ->
  existsb (fun km => has_null km.2) members = true ->
  forall run, completed (each_key prepareLocal prefix members run) = false.
Proof.
  induction 1 as [|[key item] members Hitem _ IH]; intros Hnull run;
    [done|].
  cbn [each_key existsb snd] in Hnull |- *. cbn [snd] in Hitem.
  apply orb_true_iff in Hnull as [Hn|Hrest].
  - specialize (Hitem Hn (prefix ++ "/" ++ key)%string run).
    destruct item as [r wr|r wr|inner| | |]; try done.
    by rewrite Hitem.
  - specialize (IH Hrest).
    destruct item as [r [|]|r [|]|inner| | |]; try done.
    + destruct (completed (prepareLocal (LObject inner)
                             (prefix ++ "/" ++ key) run)) eqn:Hc; [done|].
      by rewrite Hc.
Qed.

(** X25. [prepareLocal] throws whenever [null] is among the members it
    goes through, at any depth (members of topics are not looked at): a
    services object with a [null] member cannot be served. *)
Theorem prepareLocal_throws_on_null services prefix run :
  has_null services = true ->
  completed (prepareLocal services prefix run) = false.
Proof.
  intros Hnull. revert prefix run. revert Hnull.
  induction services using Local_nested_ind; intros Hnull prefix run;
    try done.
  cbn [prepareLocal has_null] in Hnull |- *. by apply each_key_throws.
Qed.

End PrepareLocalFacts.

(** * Further concrete runs *)

Example one_subscriber_list : MoreExamples.sessions_of 0 true MoreExamples.one_subscriber = [2].
Proof. vm_compute. reflexivity. Qed.

(** Session 1 subscribes twice and its socket closes: session 2 loses its
    subscription. *)
Example repeated_subscribe_then_close :
  let w1 := (RpcServer.answered (Fulfilled "all")
               (MoreExamples.session_subscribe 1 0 true
                  MoreExamples.two_subscribers)).2 in
  MoreExamples.sessions_of 0 true w1 = [2; 1]
  /\ RpcServer.subscriptions (RpcServer.session_objs w1 1)
     = [(0, true); (0, true)]
  /\ MoreExamples.sessions_of 0 true
       (RpcServer.remove Examples.stringify_bool 1 w1).2 = []
  /\ RpcServer.sessions (RpcServer.remove Examples.stringify_bool 1 w1).2
     = [2].
Proof. vm_compute. by split_and!. Qed.

Example getServiceItem_topic :
  Services.getServiceItem (Services.JsObject MoreExamples.services)
    "todo/todos"
  = Services.Return MoreExamples.todo_topic
      (Services.JsObject MoreExamples.todo_service).
Proof. vm_compute. reflexivity. Qed.

Example getServiceItem_missing :
  Services.getServiceItem (Services.JsObject MoreExamples.services)
    "todo/nothing"
  = Services.Return Services.JsUndefined
      (Services.JsObject MoreExamples.todo_service).
Proof. vm_compute. reflexivity. Qed.

Example getServiceItem_leading_slash :
  Services.getServiceItem (Services.JsObject MoreExamples.services)
    "/todo/todos"
  = Services.Return Services.JsUndefined
      (Services.JsObject MoreExamples.services).
Proof. vm_compute. reflexivity. Qed.

Example prepareLocal_todo :
  PrepareLocal.prepareLocal MoreExamples.local_services ""
    MoreExamples.new_run
  = PrepareLocal.mkRun [(7, "/todo/todos")] ["/todo/addTodo"] true.
Proof. vm_compute. reflexivity. Qed.

(** The topic before the [null] member is named, the one after it is not.
    *)
Example prepareLocal_broken :
  PrepareLocal.prepareLocal MoreExamples.broken_services ""
    MoreExamples.new_run
  = PrepareLocal.mkRun [(7, "/todo/todos")] [] false.
Proof. vm_compute. reflexivity. Qed.

(** A frozen object stops [prepareLocal] at its first function member: the
    topic before it is named, the one after it is not. *)
Example prepareLocal_frozen :
  PrepareLocal.prepareLocal MoreExamples.frozen_services ""
    MoreExamples.new_run
  = PrepareLocal.mkRun [(7, "/todo/todos")] [] false.
Proof. vm_compute. reflexivity. Qed.

(** Without any argument [prepareLocal] throws at [Object.keys]. *)
Example prepareLocal_undefined :
  PrepareLocal.completed
    (PrepareLocal.prepareLocal PrepareLocal.LUndefined ""
       MoreExamples.new_run) = false.
Proof. reflexivity. Qed.

(** A new server answers [isConnected("constructor")] with [true], and a
    client that connects under that id is not stored. *)
Example isConnected_constructor :
  LocalServer.isConnected "constructor" LocalServer.create = true
  /\ LocalServer.isConnected "a" LocalServer.create = false
  /\ LocalServer.connection "constructor" 1 LocalServer.create
     = LocalServer.mk ∅
         [LocalServer.Opened 1; LocalServer.OnConnected "constructor";
          LocalServer.Thrown "constructor"].
Proof. vm_compute. by split_and!. Qed.

(** * Instances of the hypotheses *)

Lemma unsubscribeSession_removes_session_witness :
  LocalTopicImpl.subscribedSessions Examples.todos
    !! Examples.stringify_bool true = Some ([] ++ 1 :: [2])
  /\ (1 ∉ ([] : list RpcSession))
  /\ LocalTopicImpl.sessions_of Examples.stringify_bool true
       (Examples.unsubscribeSession 1 true Examples.todos) = [] ++ [2].
Proof.
  assert (H1 : LocalTopicImpl.subscribedSessions Examples.todos
                 !! Examples.stringify_bool true = Some ([] ++ 1 :: [2]))
    by (vm_compute; reflexivity).
  assert (H2 : 1 ∉ ([] : list RpcSession)) by apply not_elem_of_nil.
  split; [exact H1|]. split; [exact H2|].
  exact (proj1 (unsubscribeSession_removes_session Examples.stringify_bool
                  1 true Examples.todos [] [2] H1 H2)).
Defined.

Lemma todos_reachable :
  LocalTopicImpl.reachable Examples.stringify_bool Examples.context_of
    Examples.message_id Examples.todos.
Proof.
  unfold Examples.todos, Examples.subscribeSession.
  apply LocalTopicImpl.reach_subscribe, LocalTopicImpl.reach_subscribe,
    LocalTopicImpl.reach_create.
Defined.

Lemma todos_without_3 :
  3 ∉ LocalTopicImpl.sessions_of Examples.stringify_bool true Examples.todos.
Proof. refine (bool_decide_unpack _ _). vm_compute. exact I. Defined.

Lemma reachable_lists_nonempty_nodup_witness :
  LocalTopicImpl.reachable Examples.stringify_bool Examples.context_of
    Examples.message_id Examples.todos
  /\ LocalTopicImpl.subscribedSessions Examples.todos !! "true" = Some [1; 2]
  /\ ([1; 2] : list RpcSession) <> [] /\ NoDup ([1; 2] : list RpcSession).
Proof.
  assert (H2 : LocalTopicImpl.subscribedSessions Examples.todos !! "true"
               = Some [1; 2]) by (vm_compute; reflexivity).
  split; [exact todos_reachable|]. split; [exact H2|].
  exact (reachable_lists_nonempty_nodup Examples.stringify_bool
           Examples.context_of Examples.message_id Examples.todos "true"
           [1; 2] todos_reachable H2).
Defined.

Lemma subscribe_unsubscribe_round_trip_witness :
  LocalTopicImpl.reachable Examples.stringify_bool Examples.context_of
    Examples.message_id Examples.todos
  /\ (3 ∉ LocalTopicImpl.sessions_of Examples.stringify_bool true
            Examples.todos)
  /\ LocalTopicImpl.subscribedSessions
       (Examples.unsubscribeSession 3 true
          (Examples.subscribeSession 3 true Examples.todos).2)
     = LocalTopicImpl.subscribedSessions Examples.todos.
Proof.
  split; [exact todos_reachable|]. split; [exact todos_without_3|].
  exact (subscribe_unsubscribe_round_trip Examples.stringify_bool
           Examples.context_of Examples.message_id Examples.todos 3 true
           todos_reachable todos_without_3).
Defined.

Lemma topic_methods_keep_other_keys_witness :
  "false" <> Examples.stringify_bool true
  /\ LocalTopicImpl.subscribedSessions
       (Examples.subscribeSession 3 true Examples.todos).2 !! "false"
     = LocalTopicImpl.subscribedSessions Examples.todos !! "false"
  /\ LocalTopicImpl.subscribedSessions
       (Examples.unsubscribeSession 3 true Examples.todos) !! "false"
     = LocalTopicImpl.subscribedSessions Examples.todos !! "false"
  /\ LocalTopicImpl.subscribedSessions
       (Examples.trigger true undefined Examples.todos).2
     = LocalTopicImpl.subscribedSessions Examples.todos.
Proof.
  assert (H : "false" <> Examples.stringify_bool true) by discriminate.
  pose proof (topic_methods_keep_other_keys Examples.stringify_bool
                Examples.context_of Examples.message_id Examples.todos 3 true
                (undefined : Optional string) "false") as R.
  split; [exact H|].
  exact (conj (proj1 (proj1 R H))
           (conj (proj2 (proj1 R H)) (proj1 (proj2 R)))).
Defined.

Lemma subscribeSession_registers_before_supply_witness :
  (3 ∉ LocalTopicImpl.sessions_of Examples.stringify_bool true Examples.todos)
  /\ LocalTopicImpl.has_supplier Examples.todos = true
  /\ (let r := Examples.subscribeSession 3 true Examples.todos in
      awaiting r.1 = Some (LocalTopicImpl.Supply true (Examples.context_of 3))
      /\ LocalTopicImpl.sessions_of Examples.stringify_bool true r.2
         = LocalTopicImpl.sessions_of Examples.stringify_bool true
             Examples.todos ++ [3]).
Proof.
  assert (H2 : LocalTopicImpl.has_supplier Examples.todos = true)
    by reflexivity.
  split; [exact todos_without_3|]. split; [exact H2|].
  pose proof (subscribeSession_registers_before_supply Examples.stringify_bool
                Examples.context_of Examples.message_id Examples.todos 3 true
                Examples.timeout "all" todos_without_3 H2) as H.
  exact (conj (proj1 H) (proj1 (proj2 H))).
Defined.

Lemma subscribeSession_silent_witness :
  (LocalTopicImpl.has_supplier Examples.todos = false
   \/ 1 ∈ LocalTopicImpl.sessions_of Examples.stringify_bool true
            Examples.todos)
  /\ (let r := Examples.subscribeSession 1 true Examples.todos in
      settled r.1 = Some (Fulfilled tt)
      /\ LocalTopicImpl.log r.2 = LocalTopicImpl.log Examples.todos).
Proof.
  assert (H : LocalTopicImpl.has_supplier Examples.todos = false
              \/ 1 ∈ LocalTopicImpl.sessions_of Examples.stringify_bool true
                       Examples.todos).
  { right. refine (bool_decide_unpack _ _). vm_compute. exact I. }
  split; [exact H|].
  exact (subscribeSession_silent Examples.stringify_bool Examples.context_of
           Examples.message_id Examples.todos 1 true H).
Defined.

Lemma session_subscribe_failure_leaves_topic_entry_witness :
  (1 ∉ MoreExamples.sessions_of 0 true MoreExamples.one_subscriber)
  /\ RpcServer.topic_has_supplier
       (RpcServer.topics MoreExamples.one_subscriber 0) = true
  /\ Forall (fun s => RpcServer.other_subscription Examples.stringify_bool 0
                        (Examples.stringify_bool true) s = true)
       (RpcServer.subscriptions
          (RpcServer.session_objs MoreExamples.one_subscriber 1))
  /\ (let fin := RpcServer.answered (Rejected Examples.timeout)
                   (MoreExamples.session_subscribe 1 0 true
                      MoreExamples.one_subscriber) in
      MoreExamples.sessions_of 0 true
        (MoreExamples.session_unsubscribeAll 1 fin.2).2
      = MoreExamples.sessions_of 0 true MoreExamples.one_subscriber ++ [1]).
Proof.
  assert (H1 : 1 ∉ MoreExamples.sessions_of 0 true MoreExamples.one_subscriber)
    by (refine (bool_decide_unpack _ _); vm_compute; exact I).
  assert (H2 : RpcServer.topic_has_supplier
                 (RpcServer.topics MoreExamples.one_subscriber 0) = true)
    by (vm_compute; reflexivity).
  assert (H3 : Forall (fun s => RpcServer.other_subscription
                                  Examples.stringify_bool 0
                                  (Examples.stringify_bool true) s = true)
                 (RpcServer.subscriptions
                    (RpcServer.session_objs MoreExamples.one_subscriber 1)))
    by (vm_compute; constructor).
  split; [exact H1|]. split; [exact H2|]. split; [exact H3|].
  exact (proj2 (proj2 (proj2
           (session_subscribe_failure_leaves_topic_entry
              Examples.stringify_bool Examples.context_of Examples.message_id
              1 0 true Examples.timeout MoreExamples.one_subscriber
              H1 H2 H3)))).
Defined.

Lemma session_unsubscribe_undoes_repeated_subscribe_witness :
  (1 ∉ MoreExamples.sessions_of 0 true MoreExamples.one_subscriber)
  /\ Forall (fun s => RpcServer.other_subscription Examples.stringify_bool 0
                        (Examples.stringify_bool true) s = true)
       (RpcServer.subscriptions
          (RpcServer.session_objs MoreExamples.one_subscriber 1))
  /\ (let w1 := (RpcServer.answered (Fulfilled "a")
                   (MoreExamples.session_subscribe 1 0 true
                      MoreExamples.one_subscriber)).2 in
      let w2 := (RpcServer.answered (Fulfilled "b")
                   (MoreExamples.session_subscribe 1 0 true w1)).2 in
      let w3 := (RpcServer.unsubscribe Examples.stringify_bool 1 0 true w2).2 in
      MoreExamples.sessions_of 0 true w3
      = MoreExamples.sessions_of 0 true MoreExamples.one_subscriber).
Proof.
  assert (H1 : 1 ∉ MoreExamples.sessions_of 0 true MoreExamples.one_subscriber)
    by (refine (bool_decide_unpack _ _); vm_compute; exact I).
  assert (H3 : Forall (fun s => RpcServer.other_subscription
                                  Examples.stringify_bool 0
                                  (Examples.stringify_bool true) s = true)
                 (RpcServer.subscriptions
                    (RpcServer.session_objs MoreExamples.one_subscriber 1)))
    by (vm_compute; constructor).
  split; [exact H1|]. split; [exact H3|].
  exact (proj2 (proj2 (proj2
           (session_unsubscribe_undoes_repeated_subscribe
              Examples.stringify_bool Examples.context_of Examples.message_id
              1 0 true "a" "b" MoreExamples.one_subscriber H1 H3)))).
Defined.

Lemma unsubscribeAll_after_repeated_subscribe_drops_other_session_witness :
  MoreExamples.sessions_of 0 true MoreExamples.one_subscriber = [] ++ [2]
  /\ (1 ∉ ([] ++ [2] : list RpcSession))
  /\ Forall (fun s => RpcServer.other_subscription Examples.stringify_bool 0
                        (Examples.stringify_bool true) s = true)
       (RpcServer.subscriptions
          (RpcServer.session_objs MoreExamples.one_subscriber 1))
  /\ (let w1 := (RpcServer.answered (Fulfilled "a")
                   (MoreExamples.session_subscribe 1 0 true
                      MoreExamples.one_subscriber)).2 in
      let w2 := (RpcServer.answered (Fulfilled "b")
                   (MoreExamples.session_subscribe 1 0 true w1)).2 in
      let w3 := (MoreExamples.session_unsubscribeAll 1 w2).2 in
      MoreExamples.sessions_of 0 true w2 = [] ++ [2; 1]
      /\ MoreExamples.sessions_of 0 true w3 = []
      /\ RpcServer.subscriptions (RpcServer.session_objs w3 1) = []).
Proof.
  assert (H1 : MoreExamples.sessions_of 0 true MoreExamples.one_subscriber
               = [] ++ [2]) by (vm_compute; reflexivity).
  assert (H2 : 1 ∉ ([] ++ [2] : list RpcSession))
    by (refine (bool_decide_unpack _ _); vm_compute; exact I).
  assert (H3 : Forall (fun s => RpcServer.other_subscription
                                  Examples.stringify_bool 0
                                  (Examples.stringify_bool true) s = true)
                 (RpcServer.subscriptions
                    (RpcServer.session_objs MoreExamples.one_subscriber 1)))
    by (vm_compute; constructor).
  split; [exact H1|]. split; [exact H2|]. split; [exact H3|].
  exact (unsubscribeAll_after_repeated_subscribe_drops_other_session
           Examples.stringify_bool Examples.context_of Examples.message_id
           1 0 true "a" "b" MoreExamples.one_subscriber [] 2 H1 H2 H3).
Defined.

Lemma unsubscribeAll_removes_only_the_session_witness :
  NoDup ((fun s : RpcServer.TopicRef * bool =>
            (s.1 : nat, Examples.stringify_bool s.2))
         <$> RpcServer.subscriptions
               (RpcServer.session_objs MoreExamples.two_subscribers 1))
  /\ Forall (fun s => 1 ∈ MoreExamples.sessions_of s.1 s.2
                           MoreExamples.two_subscribers)
       (RpcServer.subscriptions
          (RpcServer.session_objs MoreExamples.two_subscribers 1))
  /\ (forall topic params,
        NoDup (MoreExamples.sessions_of topic params
                 MoreExamples.two_subscribers))
  /\ RpcServer.subscriptions
       (RpcServer.session_objs
          (MoreExamples.session_unsubscribeAll 1
             MoreExamples.two_subscribers).2 1) = [].
Proof.
  assert (H1 : NoDup ((fun s : RpcServer.TopicRef * bool =>
                         (s.1 : nat, Examples.stringify_bool s.2))
                      <$> RpcServer.subscriptions
                            (RpcServer.session_objs
                               MoreExamples.two_subscribers 1))).
  { vm_compute. apply NoDup_singleton. }
  assert (H2 : Forall (fun s => 1 ∈ MoreExamples.sessions_of s.1 s.2
                                      MoreExamples.two_subscribers)
                 (RpcServer.subscriptions
                    (RpcServer.session_objs MoreExamples.two_subscribers 1))).
  { apply Forall_singleton. refine (bool_decide_unpack _ _).
    vm_compute. exact I. }
  assert (H3 : forall topic params,
             NoDup (MoreExamples.sessions_of topic params
                      MoreExamples.two_subscribers)).
  { intros [|topic] [|]; vm_compute;
      try apply NoDup_nil_2.
    refine (bool_decide_unpack _ _). vm_compute. exact I. }
  split; [exact H1|]. split; [exact H2|]. split; [exact H3|].
  exact (proj1 (unsubscribeAll_removes_only_the_session
                  Examples.stringify_bool 1 MoreExamples.two_subscribers
                  H1 H2 H3)).
Defined.

Lemma keep_alive_terminates_silent_sessions_witness :
  1 ∈ RpcServer.sessions (RpcServer.connection 1 MoreExamples.new_server)
  /\ RpcServer.Terminate 1
     ∈ RpcServer.socket
         (RpcServer.checkAll
            (RpcServer.checkAll
               (RpcServer.connection 1 MoreExamples.new_server))).
Proof.
  assert (H : 1 ∈ RpcServer.sessions
                    (RpcServer.connection 1 MoreExamples.new_server))
    by (vm_compute; apply list_elem_of_here).
  split; [exact H|].
  exact (keep_alive_terminates_silent_sessions 1
           (RpcServer.connection 1 MoreExamples.new_server) H).
Defined.

Lemma remove_drops_session_once_witness :
  RpcServer.sessions
    (RpcServer.connection 2 (RpcServer.connection 1 MoreExamples.new_server))
  = [] ++ 1 :: [2]
  /\ (1 ∉ ([] : list RpcSession))
  /\ RpcServer.sessions
       (RpcServer.remove Examples.stringify_bool 1
          (RpcServer.connection 2
             (RpcServer.connection 1 MoreExamples.new_server))).2
     = [] ++ [2].
Proof.
  assert (H1 : RpcServer.sessions
                 (RpcServer.connection 2
                    (RpcServer.connection 1 MoreExamples.new_server))
               = [] ++ 1 :: [2]) by reflexivity.
  assert (H2 : 1 ∉ ([] : list RpcSession)) by apply not_elem_of_nil.
  split; [exact H1|]. split; [exact H2|].
  exact (proj2 (proj2 (proj2
           (remove_drops_session_once Examples.stringify_bool 1
              (RpcServer.connection 2
                 (RpcServer.connection 1 MoreExamples.new_server)))))
           [] [2] H1 H2).
Defined.

Lemma todo_is_member_name : Services.member_name "todo".
Proof. split; [discriminate|reflexivity]. Defined.

Lemma todos_is_member_name : Services.member_name "todos".
Proof. split; [discriminate|reflexivity]. Defined.

Lemma getServiceItem_resolves_witness :
  Services.resolves (Services.JsObject MoreExamples.services)
    ["todo"; "todos"] MoreExamples.todo_topic
    (Services.JsObject MoreExamples.todo_service)
  /\ Forall Services.member_name ["todo"; "todos"]
  /\ Services.getServiceItem (Services.JsObject MoreExamples.services)
       (Services.join "/" ["todo"; "todos"])
     = Services.Return MoreExamples.todo_topic
         (Services.JsObject MoreExamples.todo_service).
Proof.
  assert (H1 : Services.resolves (Services.JsObject MoreExamples.services)
                 ["todo"; "todos"] MoreExamples.todo_topic
                 (Services.JsObject MoreExamples.todo_service)).
  { apply (Services.resolves_member MoreExamples.services "todo"
             MoreExamples.todo_service); [reflexivity|reflexivity|].
    apply Services.resolves_item; reflexivity. }
  assert (H2 : Forall Services.member_name ["todo"; "todos"]).
  { apply Forall_cons_2; [exact todo_is_member_name|].
    apply Forall_cons_2; [exact todos_is_member_name|]. apply Forall_nil_2. }
  split; [exact H1|]. split; [exact H2|].
  exact (getServiceItem_resolves _ _ _ _ H1 H2).
Defined.

Lemma getServiceItem_ignores_rest_witness :
  Services.member_name "todo"
  /\ Services.is_item
       (Services.get [("todo", Services.JsFunction 1)] "todo") = true
  /\ Services.getServiceItem
       (Services.JsObject [("todo", Services.JsFunction 1)])
       ("todo" ++ String Services.slash "todos")
     = Services.getServiceItem
         (Services.JsObject [("todo", Services.JsFunction 1)]) "todo".
Proof.
  assert (H2 : Services.is_item
                 (Services.get [("todo", Services.JsFunction 1)] "todo")
               = true) by reflexivity.
  split; [exact todo_is_member_name|]. split; [exact H2|].
  exact (proj1 (getServiceItem_ignores_rest
                  [("todo", Services.JsFunction 1)] "todo" "todos"
                  todo_is_member_name H2)).
Defined.

Lemma getServiceItem_object_or_null_witness :
  Services.member_name "broken"
  /\ Services.get MoreExamples.services "broken" = Services.JsNull
  /\ Services.getServiceItem (Services.JsObject MoreExamples.services)
       "broken" = Services.ThrowTypeError
  /\ Services.getServiceItem (Services.JsObject MoreExamples.services)
       ("broken" ++ String Services.slash "todos") = Services.ThrowTypeError.
Proof.
  assert (H1 : Services.member_name "broken")
    by (split; [discriminate|reflexivity]).
  assert (H2 : Services.get MoreExamples.services "broken" = Services.JsNull)
    by reflexivity.
  split; [exact H1|]. split; [exact H2|].
  exact (proj2 (getServiceItem_object_or_null MoreExamples.services "broken"
                  [] "todos" H1) H2).
Defined.

Lemma a_is_not_inherited : "a" ∉ LocalServer.Object_prototype.
Proof. refine (bool_decide_unpack _ _). vm_compute. exact I. Defined.

Lemma reconnect_keeps_new_session_witness :
  ("a" ∉ LocalServer.Object_prototype)
  /\ (1 : RpcSession) <> 2
  /\ (let w2 := LocalServer.connection "a" 2
                  (LocalServer.connection "a" 1 LocalServer.create) in
      let w3 := LocalServer.close "a" 1 w2 in
      LocalServer.isConnected "a" w3 = true
      /\ LocalServer.getRemote "a" w3 = Fulfilled (LocalServer.Session 2)
      /\ LocalServer.events w3
         = LocalServer.events w2
           ++ [LocalServer.Removed 1; LocalServer.OnDisconnected "a"]).
Proof.
  assert (H : (1 : RpcSession) <> 2) by discriminate.
  split; [exact a_is_not_inherited|]. split; [exact H|].
  pose proof (reconnect_keeps_new_session "a" 1 2 LocalServer.create
                a_is_not_inherited H) as R.
  exact (conj (proj1 (proj2 (proj2 R)))
           (conj (proj1 (proj2 (proj2 (proj2 R))))
              (proj1 (proj2 (proj2 (proj2 (proj2 R))))))).
Defined.

Lemma handlers_keep_other_clients_witness :
  "b" <> "a"
  /\ (let w := LocalServer.connection "b" 2
                 (LocalServer.connection "a" 1 LocalServer.create) in
      LocalServer.getRemote "b" (LocalServer.connection "a" 3 w)
      = LocalServer.getRemote "b" w
      /\ LocalServer.getRemote "b" (LocalServer.close "a" 1 w)
         = LocalServer.getRemote "b" w).
Proof.
  assert (H : "b" <> "a") by discriminate.
  split; [exact H|]. split.
  - exact (proj2 (proj2 (proj1
             (handlers_keep_other_clients "a" "b" 3
                (LocalServer.connection "b" 2
                   (LocalServer.connection "a" 1 LocalServer.create)) H)))).
  - exact (proj2 (proj2 (proj2
             (handlers_keep_other_clients "a" "b" 1
                (LocalServer.connection "b" 2
                   (LocalServer.connection "a" 1 LocalServer.create)) H)))).
Defined.

Lemma one_client_reachable :
  LocalServer.reachable (LocalServer.connection "a" 1 LocalServer.create).
Proof. apply LocalServer.reach_connection, LocalServer.reach_create. Defined.

Lemma constructor_is_inherited :
  "constructor" ∈ LocalServer.Object_prototype.
Proof. apply list_elem_of_here. Defined.

Lemma inherited_id_never_connects_witness :
  LocalServer.reachable (LocalServer.connection "a" 1 LocalServer.create)
  /\ "constructor" ∈ LocalServer.Object_prototype
  /\ (let w := LocalServer.connection "a" 1 LocalServer.create in
      LocalServer.sessions (LocalServer.connection "constructor" 2 w)
      = LocalServer.sessions w
      /\ LocalServer.isConnected "constructor" w = true).
Proof.
  split; [exact one_client_reachable|].
  split; [exact constructor_is_inherited|].
  pose proof (inherited_id_never_connects "constructor" 2
                (LocalServer.connection "a" 1 LocalServer.create)
                one_client_reachable constructor_is_inherited) as R.
  exact (conj (proj1 (proj2 R)) (proj1 (proj2 (proj2 (proj2 R))))).
Defined.

Lemma new_client_has_no_record :
  RemoteSubscriptions.records
    (RpcClientImpl.remoteSubscriptions
       (RpcClientImpl.create true : Examples.client))
    !! ("todo/getTodos", Examples.stringify_flags [true]) = None.
Proof. reflexivity. Defined.

Lemma subscribe_unsubscribe_restores_records_witness :
  RemoteSubscriptions.records
    (RpcClientImpl.remoteSubscriptions
       (RpcClientImpl.create true : Examples.client))
    !! ("todo/getTodos", Examples.stringify_flags [true]) = None
  /\ (let s := Examples.subscribe "todo/getTodos" [true] 1
                 (RpcClientImpl.create true) in
      let w1 := (resume s.1 (Fulfilled (defined "one")) s.2).2 in
      let u := Examples.unsubscribe "todo/getTodos" [true] 1 w1 in
      RemoteSubscriptions.records (RpcClientImpl.remoteSubscriptions u.2)
      = RemoteSubscriptions.records
          (RpcClientImpl.remoteSubscriptions
             (RpcClientImpl.create true : Examples.client))).
Proof.
  split; [exact new_client_has_no_record|].
  exact (proj2 (proj2 (proj2
           (subscribe_unsubscribe_restores_records Examples.stringify_flags
              "todo/getTodos" [true] 1 (defined "one")
              (RpcClientImpl.create true) new_client_has_no_record)))).
Defined.

Lemma two_consumers_one_http_unsubscribe_witness :
  RemoteSubscriptions.records
    (RpcClientImpl.remoteSubscriptions
       (RpcClientImpl.create true : Examples.client))
    !! ("todo/getTodos", Examples.stringify_flags [true]) = None
  /\ (let s1 := Examples.subscribe "todo/getTodos" [true] 1
                  (RpcClientImpl.create true) in
      let w1 := (resume s1.1 (Fulfilled (defined "one")) s1.2).2 in
      let s2 := Examples.subscribe "todo/getTodos" [true] 2 w1 in
      let w2 := (resume s2.1 (Fulfilled (defined "two")) s2.2).2 in
      let u1 := Examples.unsubscribe "todo/getTodos" [true] 1 w2 in
      u1.1 = Done (Fulfilled tt)
      /\ RpcClientImpl.trace u1.2 = RpcClientImpl.trace w2).
Proof.
  split; [exact new_client_has_no_record|].
  pose proof (two_consumers_one_http_unsubscribe Examples.stringify_flags
                "todo/getTodos" [true] 1 2 (defined "one") (defined "two")
                (RpcClientImpl.create true) new_client_has_no_record) as R.
  exact (conj (proj1 (proj2 R)) (proj1 (proj2 (proj2 R)))).
Defined.

Lemma prepareLocal_names_by_path_witness :
  PrepareLocal.completed
    (PrepareLocal.prepareLocal MoreExamples.local_services ""
       MoreExamples.new_run) = true
  /\ PrepareLocal.leads MoreExamples.local_services ["todo"; "todos"] 7
  /\ (7, "/todo/todos")
     ∈ PrepareLocal.names
         (PrepareLocal.prepareLocal MoreExamples.local_services ""
            MoreExamples.new_run).
Proof.
  assert (H1 : PrepareLocal.completed
                 (PrepareLocal.prepareLocal MoreExamples.local_services ""
                    MoreExamples.new_run) = true) by reflexivity.
  assert (H2 : PrepareLocal.leads MoreExamples.local_services
                 ["todo"; "todos"] 7).
  { eapply PrepareLocal.leads_member; [apply list_elem_of_here|].
    apply (PrepareLocal.leads_topic _ "todos" 7 true).
    apply list_elem_of_further, list_elem_of_here. }
  split; [exact H1|]. split; [exact H2|].
  exact (proj2 (prepareLocal_names_by_path MoreExamples.local_services ""
                  MoreExamples.new_run 7 "/todo/todos" H1)
           (or_intror (ex_intro _ ["todo"; "todos"] (conj H2 eq_refl)))).
Defined.

Lemma prepareLocal_throws_on_null_witness :
  PrepareLocal.has_null MoreExamples.broken_services = true
  /\ PrepareLocal.completed
       (PrepareLocal.prepareLocal MoreExamples.broken_services ""
          MoreExamples.new_run) = false.
Proof.
  assert (H : PrepareLocal.has_null MoreExamples.broken_services = true)
    by reflexivity.
  split; [exact H|].
  exact (prepareLocal_throws_on_null MoreExamples.broken_services ""
           MoreExamples.new_run H).
Defined.
